(** * Verification of the [packets] MySQL constants and the [ble_sniff] module

    The development embeds two Go packages:

    - [packets] (MySQL honeypot constants and [MySQLGetFile]), modelled over
      an explicit heap of backing arrays so that slice aliasing and the
      behaviour of [append] are visible;
    - [ble_sniff] (the BLE sniffer session module), modelled with explicit
      state passing: every function returns its result together with the
      list of externally visible actions it performed (events pushed on the
      session bus, log lines, processes started or killed, files opened,
      created or closed).

    Go values of type [interface{}] produced by the JSON stream decoder are
    an inductive type whose objects are finite maps. *)

From Stdlib Require Import ZArith Lia Ascii String.
From stdpp Require Import gmap strings list fin_maps.

#[local] Set Warnings "-register-all".
#[local] Open Scope Z_scope.

(** ** Machine integers and bytes shared by both packages *)

Definition uint64_mod : Z := 2 ^ 64.

(** Addition on [uint64] wraps around. *)
Definition uint64_add (a b : Z) : Z := (a + b) mod uint64_mod.

(** Multiplication on [uint64] wraps around. *)
Definition uint64_mul (a b : Z) : Z := (a * b) mod uint64_mod.

(** Addition on the 64-bit signed [int] wraps around in two's complement. *)
Definition int_add (a b : Z) : Z := (a + b + 2 ^ 63) mod 2 ^ 64 - 2 ^ 63.

(** The conversion [byte(x)] keeps the low eight bits. *)
Definition byte_of_int (x : Z) : Z := x mod 256.

(** The conversion [uint16(x)] keeps the low sixteen bits. *)
Definition uint16_of (x : Z) : Z := x mod 2 ^ 16.

(** A Go string is a sequence of bytes; [bytes_of_string] is [[]byte(s)]. *)
Definition Z_of_ascii (c : ascii) : Z := Z.of_N (Ascii.N_of_ascii c).

Definition bytes_of_string (s : string) : list Z :=
  Z_of_ascii <$> String.list_ascii_of_string s.

(** [len(s)] as an [int]. *)
Definition len_string (s : string) : Z := Z.of_nat (String.length s).

Definition is_byte (b : Z) : Prop := 0 <= b < 256.

(** * Package [packets] *)

Module packets.

(** ** Slices over a heap of backing arrays *)

Definition loc := positive.

Record slice := Slice {
  s_arr : loc;   (* backing array *)
  s_off : nat;   (* index of the first element in the backing array *)
  s_len : nat;
  s_cap : nat;
}.

(** Computations over the heap: a state monad. *)
Definition M (A : Type) : Type := gmap loc (list Z) -> A * gmap loc (list Z).

Definition ret {A} (a : A) : M A := fun h => (a, h).

Definition bind {A B} (m : M A) (k : A -> M B) : M B :=
  fun h => let '(a, h') := m h in k a h'.

Notation "'do' x <- m ; k" := (bind m (fun x => k))
  (at level 10, x name, m at level 100, k at level 200).

(** Allocation of a new backing array at an unused location. *)
Definition alloc (bs : list Z) : M loc :=
  fun h => let l := fresh (dom h) in (l, <[l := bs]> h).

(** A composite literal [[]byte{...}]: a new array, fully used. *)
Definition slice_lit (bs : list Z) : M slice :=
  do l <- alloc bs;
  ret (Slice l 0 (length bs) (length bs)).

(** The elements of a slice, read from the heap. *)
Definition slice_read (s : slice) (h : gmap loc (list Z)) : option (list Z) :=
  match h !! s_arr s with
  | Some arr => Some (take (s_len s) (drop (s_off s) arr))
  | None => None
  end.

(** Overwrite [arr] from index [pos] with [xs]. *)
Definition write_at (pos : nat) (xs arr : list Z) : list Z :=
  take pos arr ++ xs ++ drop (pos + length xs) arr.

Section Append.

(** How much spare capacity the runtime adds when [append] has to grow a
    slice is left to the implementation: [spare cap needed] is any number. *)
Variable spare : nat -> nat -> nat.

(** [append(s, xs...)]: in place when the capacity suffices, otherwise into
    a new, sufficiently large array holding the old elements and [xs]. *)
Definition append (s : slice) (xs : list Z) : M slice :=
  fun h =>
    let needed := (s_len s + length xs)%nat in
    if decide (needed <= s_cap s)%nat then
      match h !! s_arr s with
      | Some arr =>
          (Slice (s_arr s) (s_off s) needed (s_cap s),
           <[s_arr s := write_at (s_off s + s_len s) xs arr]> h)
      | None => (Slice (s_arr s) (s_off s) needed (s_cap s), h)
      end
    else
      let old := default [] (slice_read s h) in
      let newcap := (needed + spare (s_cap s) needed)%nat in
      let '(l, h') := alloc (old ++ xs ++ replicate (newcap - needed) 0) h in
      (Slice l 0 needed newcap, h').

(** ** The package-level variables *)

Definition MySQLGreeting : list Z := [
  0x5b; 0x00; 0x00; 0x00; 0x0a; 0x35; 0x2e; 0x36;
  0x2e; 0x32; 0x38; 0x2d; 0x30; 0x75; 0x62; 0x75;
  0x6e; 0x74; 0x75; 0x30; 0x2e; 0x31; 0x34; 0x2e;
  0x30; 0x34; 0x2e; 0x31; 0x00; 0x2d; 0x00; 0x00;
  0x00; 0x40; 0x3f; 0x59; 0x26; 0x4b; 0x2b; 0x34;
  0x60; 0x00; 0xff; 0xf7; 0x08; 0x02; 0x00; 0x7f;
  0x80; 0x15; 0x00; 0x00; 0x00; 0x00; 0x00; 0x00;
  0x00; 0x00; 0x00; 0x00; 0x68; 0x69; 0x59; 0x5f;
  0x52; 0x5f; 0x63; 0x55; 0x60; 0x64; 0x53; 0x52;
  0x00; 0x6d; 0x79; 0x73; 0x71; 0x6c; 0x5f; 0x6e;
  0x61; 0x74; 0x69; 0x76; 0x65; 0x5f; 0x70; 0x61;
  0x73; 0x73; 0x77; 0x6f; 0x72; 0x64; 0x00
].

Definition MySQLFirstResponseOK : list Z := [
  0x07; 0x00; 0x00; 0x02; 0x00; 0x00; 0x00; 0x02;
  0x00; 0x00; 0x00
].

Definition MySQLSecondResponseOK : list Z := [
  0x07; 0x00; 0x00; 0x04; 0x00; 0x00; 0x00; 0x02;
  0x00; 0x00; 0x00
].

(** The three [var]s hold slices; package initialisation allocates their
    backing arrays from the literals above. *)
Record vars := Vars {
  var_MySQLGreeting : slice;
  var_MySQLFirstResponseOK : slice;
  var_MySQLSecondResponseOK : slice;
}.

Definition init : M vars :=
  do g <- slice_lit MySQLGreeting;
  do f <- slice_lit MySQLFirstResponseOK;
  do s <- slice_lit MySQLSecondResponseOK;
  ret (Vars g f s).

(** The state of the package: its variables and the heap. *)
Record state := State { st_vars : vars; st_heap : gmap loc (list Z) }.

Definition initial_state : state :=
  let '(v, h) := init ∅ in State v h.

(** ** [MySQLGetFile] *)

Definition MySQLGetFile (infile : string) : M slice :=
  do hdr <- slice_lit [
    byte_of_int (int_add (len_string infile) 1);
    0x00; 0x00; 0x01; 0xfb
  ];
  append hdr (bytes_of_string infile).

(** The bytes of the slice that a call returns, read in the heap the call
    leaves. *)
Definition MySQLGetFile_bytes (infile : string) (h : gmap loc (list Z))
  : option (list Z) :=
  let '(r, h') := MySQLGetFile infile h in slice_read r h'.

(** A call made by a program whose state is [st]: the function has no
    access to the variables other than through the heap. *)
Definition call_MySQLGetFile (infile : string) (st : state) : slice * state :=
  let '(r, h') := MySQLGetFile infile (st_heap st) in
  (r, State (st_vars st) h').

End Append.

(** ** The MySQL wire format of a packet: a three-byte little-endian payload
    length, a sequence number, then the payload. *)

Definition le24 (b0 b1 b2 : Z) : Z :=
  Z.lor b0 (Z.lor (Z.shiftl b1 8) (Z.shiftl b2 16)).

Record packet := Packet {
  declared_length : Z;
  sequence_id : Z;
  payload : list Z;
}.

Definition parse_packet (bs : list Z) : option packet :=
  match bs with
  | b0 :: b1 :: b2 :: seq :: rest => Some (Packet (le24 b0 b1 b2) seq rest)
  | _ => None
  end.

Definition well_formed_packet (bs : list Z) : Prop :=
  Forall is_byte bs /\
  exists p, parse_packet bs = Some p /\
            declared_length p = Z.of_nat (length (payload p)).

(** The variables all point at allocated arrays. *)
Definition vars_allocated (st : state) : Prop :=
  s_arr (var_MySQLGreeting (st_vars st)) ∈ dom (st_heap st) /\
  s_arr (var_MySQLFirstResponseOK (st_vars st)) ∈ dom (st_heap st) /\
  s_arr (var_MySQLSecondResponseOK (st_vars st)) ∈ dom (st_heap st).

(** A client that calls [MySQLGetFile] on each name in turn, dropping the
    results; [spare] is the growth policy of [append]. *)
Fixpoint call_sequence (spare : nat -> nat -> nat) (infiles : list string)
    (st : state) : state :=
  match infiles with
  | [] => st
  | infile :: rest =>
      call_sequence spare rest (call_MySQLGetFile spare infile st).2
  end.

(** An assignment [s[i] = b] through a slice: it writes the backing array
    when [i] is within the length, and panics ([None]) otherwise. *)
Definition slice_store (s : slice) (i : nat) (b : Z)
    (h : gmap loc (list Z)) : option (gmap loc (list Z)) :=
  if decide (i < s_len s)%nat then
    match h !! s_arr s with
    | Some arr => Some (<[s_arr s := <[(s_off s + i)%nat := b]> arr]> h)
    | None => None
    end
  else None.

End packets.

(** * Library functions used by [ble_sniff]

    [strings.Replace], [strconv.ParseUint] and [fmt.Sprintf] belong to the Go
    standard library; they are modelled on the inputs the package gives
    them. *)

Module golib.

Inductive error :=
| ErrSyntax                          (* strconv.ErrSyntax *)
| ErrRange                           (* strconv.ErrRange *)
| ErrAlreadyStarted (name : string)  (* session.ErrAlreadyStarted *)
| ErrAlreadyStopped (name : string)  (* session.ErrAlreadyStopped *)
| ErrOther (msg : string).           (* any other error value *)

(** [strings.Replace(s, old, new, n)] for a non-empty [old]: the first [n]
    non-overlapping occurrences of [old], from the left, are replaced; a
    negative [n] puts no limit. (With an empty [old] Go inserts [new]
    between runes; the package never does that and the model leaves [s]
    alone then.) *)
Fixpoint Replace_from (fuel : nat) (s old new : string) (n : Z) : string :=
  match fuel with
  | O => s
  | S fuel' =>
      if n =? 0 then s
      else if String.prefix old s then
        new +:+ Replace_from fuel'
                  (String.substring (String.length old)
                     (String.length s - String.length old)%nat s)
                  old new (n - 1)
      else
        match s with
        | EmptyString => EmptyString
        | String c s' => String c (Replace_from fuel' s' old new n)
        end
  end.

Definition Replace (s old new : string) (n : Z) : string :=
  match old with
  | EmptyString => s
  | _ => Replace_from (S (String.length s)) s old new n
  end.

(** [strconv.ParseUint(s, base, bitSize)] for an explicit base between 2
    and 36 and a bit size between 1 and 64: no prefix and no underscore is
    accepted. As in the library, a bad character gives [(0, ErrSyntax)] and
    an overflow gives the largest value of the size with [ErrRange], each
    as soon as the scan meets it. *)
Definition lower (c : Z) : Z := Z.lor c 32.

Definition digit_of (c : Z) : option Z :=
  if (48 <=? c) && (c <=? 57) then Some (c - 48)
  else if (97 <=? lower c) && (lower c <=? 122) then Some (lower c - 97 + 10)
  else None.

Fixpoint ParseUint_loop (base cutoff maxVal : Z) (cs : list Z) (n : Z)
  : Z * option error :=
  match cs with
  | [] => (n, None)
  | c :: cs' =>
      match digit_of c with
      | None => (0, Some ErrSyntax)
      | Some d =>
          if d >=? base then (0, Some ErrSyntax)
          else if n >=? cutoff then (maxVal, Some ErrRange)
          else
            let n0 := uint64_mul n base in
            let n1 := uint64_add n0 d in
            if (n1 <? n0) || (n1 >? maxVal) then (maxVal, Some ErrRange)
            else ParseUint_loop base cutoff maxVal cs' n1
      end
  end.

Definition ParseUint (s : string) (base bitSize : Z) : Z * option error :=
  match s with
  | EmptyString => (0, Some ErrSyntax)
  | _ =>
      let cutoff := (uint64_mod - 1) / base + 1 in
      let maxVal := 2 ^ bitSize - 1 in
      ParseUint_loop base cutoff maxVal (bytes_of_string s) 0
  end.

(** [fmt.Sprintf(format, args...)] for string operands and the verb [%s]
    (and [%%]); an operand that is missing or left over is reported the way
    the library does. Other verbs are not used by the package and are
    copied through. *)
Fixpoint Sprintf_extra (args : list string) : string :=
  match args with
  | [] => ""
  | [a] => "string=" +:+ a
  | a :: args' => "string=" +:+ a +:+ ", " +:+ Sprintf_extra args'
  end.

Fixpoint Sprintf (format : string) (args : list string) : string :=
  match format with
  | EmptyString =>
      match args with
      | [] => ""
      | _ => "%!(EXTRA " +:+ Sprintf_extra args +:+ ")"
      end
  | String "%" (String "s" rest) =>
      match args with
      | a :: args' => a +:+ Sprintf rest args'
      | [] => "%!s(MISSING)" +:+ Sprintf rest []
      end
  | String "%" (String "%" rest) => String "%" (Sprintf rest args)
  | String c rest => String c (Sprintf rest args)
  end.

End golib.

(** * Package [ble_sniff] *)

Module ble_sniff.

Import golib.

(** ** Dynamic values

    What the JSON stream decoder hands over as [interface{}]: [nil], a
    [bool], a number ([int64] or [float64], the latter kept as its bit
    pattern), a [string], a [[]interface{}] or a [map[string]interface{}]. *)
Inductive value : Type :=
| VNil
| VBool (b : bool)
| VInt64 (n : Z)
| VFloat64 (bits : Z)
| VString (s : string)
| VArray (l : list value)
| VMap (m : gmap string value).

(** The type assertion [x.(map[string]interface{})] with the comma-ok form;
    indexing a map at a missing key gives the [nil] interface, on which the
    assertion fails: both are [None] here. *)
Definition as_map (x : option value) : option (gmap string value) :=
  match x with
  | Some (VMap m) => Some m
  | _ => None
  end.

(** The type assertion [x.(string)]. *)
Definition as_string (x : option value) : option string :=
  match x with
  | Some (VString s) => Some s
  | _ => None
  end.

(** ** Time

    An instant is an integer count of clock ticks after the zero time
    [time.Time{}]; [IsZero] recognises the zero time. *)
Definition IsZero (t : Z) : bool := t =? 0.

(** ** Events and actions *)

Record SnifferEvent := {
  PacketTime : Z;
  Protocol : string;
  Source : string;
  Destination : string;
  Message : string;
  Data : value;
}.

(** An external command, as [exec.CommandContext] receives it. *)
Record Cmd := { cmd_name : string; cmd_arg : list string }.

(** What a [bufio.Reader] of the context reads from. *)
Inductive reader :=
| StdoutOf (c : Cmd)        (* the stdout pipe of a process *)
| FileReader (path : string).

(** Everything the package does to the outside world. *)
Inductive action :=
| EventAdd (tag : string) (e : SnifferEvent)  (* session.I.Events.Add *)
| Refresh                                     (* session.I.Refresh *)
| ModDebug (msg : string)                     (* mod.Debug *)
| LogDebug (msg : string)                     (* log.Debug *)
| LogWarning (msg : string)                   (* log.Warning *)
| ProcStdoutPipe (c : Cmd)                    (* Cmd.StdoutPipe *)
| ProcStart (c : Cmd)                         (* Cmd.Start *)
| ProcKill (c : Cmd)                          (* Cmd.Process.Kill *)
| FileOpen (path : string)                    (* os.Open *)
| FileCreate (path : string)                  (* os.Create *)
| FileClose (path : string).                  (* File.Close *)

(** A computation performs actions and yields a result, or panics
    ([None]) after the actions performed so far. *)
Definition Act (A : Type) : Type := option A * list action.

Definition pure {A} (a : A) : Act A := (Some a, []).

Definition emit (a : action) : Act unit := (Some tt, [a]).

Definition panic {A} : Act A := (None, []).

Definition andThen {A B} (m : Act A) (k : A -> Act B) : Act B :=
  match m with
  | (Some a, acts) => let '(r, acts') := k a in (r, acts ++ acts')
  | (None, acts) => (None, acts)
  end.

Notation "'run' x <- m ; k" := (andThen m (fun x => k))
  (at level 10, x name, m at level 100, k at level 200).
Notation "'exec' m ; k" := (andThen m (fun _ => k))
  (at level 10, m at level 100, k at level 200).

(** ** bufio, os and exec: what the environment answers *)
Record OS := {
  StdoutPipe_err : Cmd -> option error;
  Start_err : Cmd -> option error;
  Kill_err : Cmd -> option error;
  Open_err : string -> option error;
  Create_err : string -> option error;
}.

(** ** The sniffer context *)

(** [TSharkProc] points to an [exec.Cmd]. Of that command the model keeps
    what it was built from, and, in [Process], whether its [Process] field
    is set ([c.TSharkProc.Process != nil]): [Cmd.Start] sets it when it
    succeeds, and [Close] dereferences it. *)
Record SnifferContext := {
  Reader : option reader;
  TSharkProc : option Cmd;
  Process : bool;
  TSharkRunning : bool;
  Interface : string;
  Source_ : string;
  PcapFile : string;
  DumpLocal : bool;
  Verbose : bool;
  Filter : string;
  Expression : string;
  Compiled : option string;
  Output : string;
  OutputFile : option string;
}.

Definition NewSnifferContext : SnifferContext := {|
  Reader := None;
  TSharkProc := None;
  Process := false;
  TSharkRunning := false;
  Interface := "";
  Source_ := "";
  PcapFile := "";
  DumpLocal := false;
  Verbose := false;
  Filter := "";
  Expression := "";
  Compiled := None;
  Output := "";
  OutputFile := None;
|}.

(** Assignments to the fields the package writes. *)
Definition set_Reader (v : option reader) (c : SnifferContext) :=
  {| Reader := v; TSharkProc := TSharkProc c;
     Process := Process c;
     TSharkRunning := TSharkRunning c; Interface := Interface c;
     Source_ := Source_ c; PcapFile := PcapFile c; DumpLocal := DumpLocal c;
     Verbose := Verbose c; Filter := Filter c; Expression := Expression c;
     Compiled := Compiled c; Output := Output c;
     OutputFile := OutputFile c |}.

Definition set_TSharkProc (v : option Cmd) (c : SnifferContext) :=
  {| Reader := Reader c; TSharkProc := v;
     Process := Process c;
     TSharkRunning := TSharkRunning c; Interface := Interface c;
     Source_ := Source_ c; PcapFile := PcapFile c; DumpLocal := DumpLocal c;
     Verbose := Verbose c; Filter := Filter c; Expression := Expression c;
     Compiled := Compiled c; Output := Output c;
     OutputFile := OutputFile c |}.

Definition set_Process (v : bool) (c : SnifferContext) :=
  {| Reader := Reader c; TSharkProc := TSharkProc c;
     Process := v;
     TSharkRunning := TSharkRunning c; Interface := Interface c;
     Source_ := Source_ c; PcapFile := PcapFile c; DumpLocal := DumpLocal c;
     Verbose := Verbose c; Filter := Filter c; Expression := Expression c;
     Compiled := Compiled c; Output := Output c;
     OutputFile := OutputFile c |}.

Definition set_TSharkRunning (v : bool) (c : SnifferContext) :=
  {| Reader := Reader c; TSharkProc := TSharkProc c;
     Process := Process c;
     TSharkRunning := v; Interface := Interface c;
     Source_ := Source_ c; PcapFile := PcapFile c; DumpLocal := DumpLocal c;
     Verbose := Verbose c; Filter := Filter c; Expression := Expression c;
     Compiled := Compiled c; Output := Output c;
     OutputFile := OutputFile c |}.

Definition set_Interface (v : string) (c : SnifferContext) :=
  {| Reader := Reader c; TSharkProc := TSharkProc c;
     Process := Process c;
     TSharkRunning := TSharkRunning c; Interface := v;
     Source_ := Source_ c; PcapFile := PcapFile c; DumpLocal := DumpLocal c;
     Verbose := Verbose c; Filter := Filter c; Expression := Expression c;
     Compiled := Compiled c; Output := Output c;
     OutputFile := OutputFile c |}.

Definition set_Source (v : string) (c : SnifferContext) :=
  {| Reader := Reader c; TSharkProc := TSharkProc c;
     Process := Process c;
     TSharkRunning := TSharkRunning c; Interface := Interface c;
     Source_ := v; PcapFile := PcapFile c; DumpLocal := DumpLocal c;
     Verbose := Verbose c; Filter := Filter c; Expression := Expression c;
     Compiled := Compiled c; Output := Output c;
     OutputFile := OutputFile c |}.

Definition set_PcapFile (v : string) (c : SnifferContext) :=
  {| Reader := Reader c; TSharkProc := TSharkProc c;
     Process := Process c;
     TSharkRunning := TSharkRunning c; Interface := Interface c;
     Source_ := Source_ c; PcapFile := v; DumpLocal := DumpLocal c;
     Verbose := Verbose c; Filter := Filter c; Expression := Expression c;
     Compiled := Compiled c; Output := Output c;
     OutputFile := OutputFile c |}.

Definition set_Output (v : string) (c : SnifferContext) :=
  {| Reader := Reader c; TSharkProc := TSharkProc c;
     Process := Process c;
     TSharkRunning := TSharkRunning c; Interface := Interface c;
     Source_ := Source_ c; PcapFile := PcapFile c; DumpLocal := DumpLocal c;
     Verbose := Verbose c; Filter := Filter c; Expression := Expression c;
     Compiled := Compiled c; Output := v;
     OutputFile := OutputFile c |}.

Definition set_OutputFile (v : option string) (c : SnifferContext) :=
  {| Reader := Reader c; TSharkProc := TSharkProc c;
     Process := Process c;
     TSharkRunning := TSharkRunning c; Interface := Interface c;
     Source_ := Source_ c; PcapFile := PcapFile c; DumpLocal := DumpLocal c;
     Verbose := Verbose c; Filter := Filter c; Expression := Expression c;
     Compiled := Compiled c; Output := Output c;
     OutputFile := v |}.

(** ** The session module

    [session.SessionModule] belongs to the host application. The model keeps
    what the package reads from it: the running flag behind [Running()] and
    the parameter table behind [StringParam], which answers an error and a
    string. *)
Record SessionModule := {
  Started : bool;
  StringParam : string -> option error * string;
}.

Record SnifferStats := {
  NumAdvertisements : Z;
  NumMatched : Z;
  NumDumped : Z;
  NumWrote : Z;
  Started_ : Z;
  FirstPacket : Z;
  LastPacket : Z;
}.

(** The channel returned by [jstream.NewDecoder(r, 3).Stream()]. *)
Record chan := { chan_reader : option reader }.

Record Sniffer := {
  SessionModule_ : SessionModule;
  Stats : option SnifferStats;
  Ctx : option SnifferContext;
  pktSourceChan : option chan;
}.

Definition Running (sn : Sniffer) : bool := Started (SessionModule_ sn).

Definition Name : string := "ble.sniff".

Definition set_Started (v : bool) (sn : Sniffer) : Sniffer :=
  {| SessionModule_ :=
       {| Started := v; StringParam := StringParam (SessionModule_ sn) |};
     Stats := Stats sn; Ctx := Ctx sn; pktSourceChan := pktSourceChan sn |}.

Definition set_Stats (v : option SnifferStats) (sn : Sniffer) : Sniffer :=
  {| SessionModule_ := SessionModule_ sn; Stats := v; Ctx := Ctx sn;
     pktSourceChan := pktSourceChan sn |}.

Definition set_Ctx (v : option SnifferContext) (sn : Sniffer) : Sniffer :=
  {| SessionModule_ := SessionModule_ sn; Stats := Stats sn; Ctx := v;
     pktSourceChan := pktSourceChan sn |}.

Definition set_pktSourceChan (v : option chan) (sn : Sniffer) : Sniffer :=
  {| SessionModule_ := SessionModule_ sn; Stats := Stats sn; Ctx := Ctx sn;
     pktSourceChan := v |}.

(** ** [GetContext] *)

Definition GetContext (os : OS) (sn : Sniffer)
  : Act (option error * option SnifferContext) :=
  let ctx := NewSnifferContext in
  (* the code after the if/else: the output file *)
  let output (ctx : SnifferContext) :=
    let '(err, v) := StringParam (SessionModule_ sn) "ble.sniff.output" in
    let ctx := set_Output v ctx in
    match err with
    | Some e => pure (Some e, Some ctx)
    | None =>
        if String.eqb (Output ctx) "" then pure (None, Some ctx)
        else
          exec emit (FileCreate (Output ctx));
          match Create_err os (Output ctx) with
          | Some e => pure (Some e, Some (set_OutputFile None ctx))
          | None => pure (None, Some (set_OutputFile (Some (Output ctx)) ctx))
          end
    end in
  let '(err, v) := StringParam (SessionModule_ sn) "ble.sniff.source" in
  let ctx := set_Source v ctx in
  match err with
  | Some e => pure (Some e, Some ctx)
  | None =>
      if String.eqb (Source_ ctx) "" then
        let '(err, tshark) :=
          StringParam (SessionModule_ sn) "ble.sniff.tshark" in
        match err with
        | Some e => pure (Some e, Some ctx)
        | None =>
            let '(err, v) :=
              StringParam (SessionModule_ sn) "ble.sniff.interface" in
            let ctx := set_Interface v ctx in
            match err with
            | Some e => pure (Some e, Some ctx)
            | None =>
                let '(err, v) :=
                  StringParam (SessionModule_ sn) "ble.sniff.pcap" in
                let ctx := set_PcapFile v ctx in
                match err with
                | Some e => pure (Some e, Some ctx)
                | None =>
                    let proc :=
                      if String.eqb (PcapFile ctx) "" then
                        {| cmd_name := tshark;
                           cmd_arg := ["-i"; Interface ctx; "-T"; "json"] |}
                      else
                        {| cmd_name := tshark;
                           cmd_arg := ["-T"; "json"; "-r"; PcapFile ctx] |} in
                    let ctx := set_TSharkProc (Some proc) ctx in
                    exec emit (ProcStdoutPipe proc);
                    match StdoutPipe_err os proc with
                    | Some e => pure (Some e, Some ctx)
                    | None =>
                        exec emit (ProcStart proc);
                        match Start_err os proc with
                        | Some e => pure (Some e, Some ctx)
                        | None =>
                            (* Start has set TSharkProc.Process *)
                            let ctx := set_Process true ctx in
                            let ctx := set_TSharkRunning true ctx in
                            let ctx :=
                              set_Reader (Some (StdoutOf proc)) ctx in
                            output ctx
                        end
                    end
                end
            end
        end
      else
        exec emit (FileOpen (Source_ ctx));
        match Open_err os (Source_ ctx) with
        | Some e => pure (Some e, Some ctx)
        | None =>
            let ctx := set_Reader (Some (FileReader (Source_ ctx))) ctx in
            output ctx
        end
  end.

(** ** [Close] *)

Definition Close (os : OS) (c : SnifferContext) : Act SnifferContext :=
  exec (if TSharkRunning c then
          match TSharkProc c with
          | None => panic      (* nil pointer dereference *)
          | Some proc =>
              if Process c then
                exec emit (ProcKill proc);
                match Kill_err os proc with
                | Some _ => emit (LogDebug "killed TSharkProc")
                | None => emit (LogWarning "could not kill TShark Process")
                end
              else panic       (* Kill on a nil *os.Process *)
          end
        else pure tt);
  match OutputFile c with
  | Some f =>
      exec emit (LogDebug "closing output");
      exec emit (FileClose f);
      exec emit (LogDebug "output closed");
      pure (set_OutputFile None c)
  | None => pure c
  end.

(** ** [Configure] *)

Definition Configure (os : OS) (sn : Sniffer) : Act (option error * Sniffer) :=
  if Running sn then pure (Some (ErrAlreadyStarted Name), sn)
  else
    run r <- GetContext os sn;
    let '(err, ctx) := r in
    let sn := set_Ctx ctx sn in
    match err with
    | Some e =>
        match Ctx sn with
        | Some c =>
            run closed <- Close os c;
            pure (Some e, set_Ctx None sn)
        | None => pure (Some e, sn)
        end
    | None => pure (None, sn)
    end.

(** ** Events *)

Definition NewSnifferEvent (t : Z) (proto src dst : string) (data : value)
    (format : string) (args : list string) : SnifferEvent :=
  {| PacketTime := t;
     Protocol := proto;
     Source := src;
     Destination := dst;
     Message := Sprintf format args;
     Data := data |}.

Definition Push (e : SnifferEvent) : Act unit :=
  exec emit (EventAdd "ble.sniff" e);
  emit Refresh.

Definition NewSnifferStats (now : Z) : SnifferStats :=
  {| NumAdvertisements := 0;
     NumMatched := 0;
     NumDumped := 0;
     NumWrote := 0;
     Started_ := now;
     FirstPacket := 0;
     LastPacket := 0 |}.

Definition set_FirstPacket (v : Z) (s : SnifferStats) : SnifferStats :=
  {| NumAdvertisements := NumAdvertisements s; NumMatched := NumMatched s;
     NumDumped := NumDumped s; NumWrote := NumWrote s;
     Started_ := Started_ s; FirstPacket := v; LastPacket := LastPacket s |}.

Definition set_LastPacket (v : Z) (s : SnifferStats) : SnifferStats :=
  {| NumAdvertisements := NumAdvertisements s; NumMatched := NumMatched s;
     NumDumped := NumDumped s; NumWrote := NumWrote s;
     Started_ := Started_ s; FirstPacket := FirstPacket s; LastPacket := v |}.

Definition set_NumAdvertisements (v : Z) (s : SnifferStats) : SnifferStats :=
  {| NumAdvertisements := v; NumMatched := NumMatched s;
     NumDumped := NumDumped s; NumWrote := NumWrote s;
     Started_ := Started_ s; FirstPacket := FirstPacket s;
     LastPacket := LastPacket s |}.

Definition set_NumMatched (v : Z) (s : SnifferStats) : SnifferStats :=
  {| NumAdvertisements := NumAdvertisements s; NumMatched := v;
     NumDumped := NumDumped s; NumWrote := NumWrote s;
     Started_ := Started_ s; FirstPacket := FirstPacket s;
     LastPacket := LastPacket s |}.

(** One reception from the channel, with what the environment answers
    during that iteration: the result of [Running()], the instant read by
    the loop's [time.Now()], the instant read by [time.Now()] if an event is
    built, and the streamed [packet.Value]. *)
Record recv := {
  r_running : bool;
  r_now : Z;
  r_event_now : Z;
  r_value : value;
}.

(** How an iteration of the loop ends: [continue] (or the end of the body),
    [break], or [return] from the enclosing function. *)
Inductive control := Continue | Break | Return.

(** How the loop ends: the channel was closed, the loop was left by
    [break], or the function returned from inside the loop. *)
Inductive loop_exit := ChanClosed | Broken | Returned.

Section Handlers.

(** [gatt.CompanyIdents], a [map[uint16]string] of the gatt library. *)
Variable CompanyIdents : gmap Z string.

(** Indexing a Go map: the zero value for a missing key. *)
Definition CompanyIdents_at (k : Z) : string :=
  default "" (CompanyIdents !! k).

Definition onProprietary (now : Z) (btleData : gmap string value)
  : Act unit :=
  match as_string (btleData !! "btle.advertising_address") with
  | None => pure tt
  | Some advert_address =>
  match as_map (btleData !! "btcommon.eir_ad.advertising_data") with
  | None => pure tt
  | Some advertising_data =>
  match as_map (advertising_data !! "btcommon.eir_ad.entry") with
  | None => pure tt
  | Some eir_ad_entry =>
  let data :=
    match as_string (eir_ad_entry !! "btcommon.eir_ad.entry.data") with
    | Some d => d
    | None => "No data could be retrieved"
    end in
  match as_string (eir_ad_entry !! "btcommon.eir_ad.entry.company_id") with
  | None => pure tt
  | Some company_code_string =>
      let company_code_hex := Replace company_code_string "0x" "" (-1) in
      let company_code := fst (ParseUint company_code_hex 16 16) in
      let company_name := CompanyIdents_at (uint16_of company_code) in
      Push (NewSnifferEvent now
              "BLE ADVERT"
              advert_address
              "BROADCAST"
              (VString data)
              "Proprietary %s Data"
              [company_name])
  end end end end.

Definition onAdvertisement (now : Z) (btleData : gmap string value)
  : Act unit :=
  onProprietary now btleData.

(** ** The packet loop of [Start] *)

(** The body of [for packet := range mod.pktSourceChan]. *)
Definition pkt_body (stats : SnifferStats) (packet : recv)
  : Act (control * SnifferStats) :=
  if negb (r_running packet) then
    exec emit (ModDebug "end pkt loop");
    pure (Break, stats)
  else
    let now := r_now packet in
    let stats :=
      if IsZero (FirstPacket stats) then set_FirstPacket now stats
      else stats in
    let stats := set_LastPacket now stats in
    match as_map (Some (r_value packet)) with
    | None => pure (Continue, stats)
    | Some packet_map =>
    match as_map (packet_map !! "btle") with
    | None => pure (Continue, stats)
    | Some btle_data =>
    match as_string (btle_data !! "btle.access_address") with
    | None => pure (Return, stats)
    | Some access_address =>
        run stats <-
          (if String.eqb access_address "0x8e89bed6" then
             exec onAdvertisement (r_event_now packet) btle_data;
             pure (set_NumAdvertisements
                     (uint64_add (NumAdvertisements stats) 1) stats)
           else pure stats);
        pure (Continue, set_NumMatched (uint64_add (NumMatched stats) 1) stats)
    end end end.

(** The loop over what the channel delivers until it is closed. *)
Fixpoint pkt_loop (stats : SnifferStats) (ch : list recv)
  : Act (loop_exit * SnifferStats) :=
  match ch with
  | [] => pure (ChanClosed, stats)
  | packet :: ch' =>
      run r <- pkt_body stats packet;
      match r with
      | (Continue, stats') => pkt_loop stats' ch'
      | (Break, stats') => pure (Broken, stats')
      | (Return, stats') => pure (Returned, stats')
      end
  end.

(** The function literal that [Start] hands to [SetRunning]: [started] is
    the instant read by [NewSnifferStats], [ch] what the channel delivers. *)
Definition worker (started : Z) (ch : list recv) (sn : Sniffer)
  : Act Sniffer :=
  let sn := set_Stats (Some (NewSnifferStats started)) sn in
  match Ctx sn, Stats sn with
  | Some ctx, Some stats =>
      let sn := set_pktSourceChan (Some {| chan_reader := Reader ctx |}) sn in
      run r <- pkt_loop stats ch;
      match r with
      | (Returned, stats') => pure (set_Stats (Some stats') sn)
      | (_, stats') =>
          pure (set_pktSourceChan None (set_Stats (Some stats') sn))
      end
  | _, _ => panic              (* nil pointer dereference *)
  end.

(** A function literal handed to [SetRunning] and started as a goroutine:
    it runs later, on the module as it then is. *)
Definition goroutine : Type := Sniffer -> Act Sniffer.

(** [SetRunning] of the host's session module. Asked for the state the
    module is in, it answers [ErrAlreadyStarted] or [ErrAlreadyStopped] and
    does nothing. Otherwise it sets the flag; a worker ([running] true) is
    started with [go cb()] and [SetRunning] returns at once, without
    waiting for it; a stop callback ([running] false) is run and waited
    for (the host gives up waiting after ten seconds, which is left out).
    The result holds the goroutine that was started, if any. *)
Definition SetRunning (running : bool) (cb : Sniffer -> Act Sniffer)
    (sn : Sniffer) : Act (option error * Sniffer * option goroutine) :=
  if Bool.eqb running (Running sn) then
    pure (Some (if Running sn then ErrAlreadyStarted Name
                else ErrAlreadyStopped Name), sn, None)
  else
    let sn := set_Started running sn in
    if running then pure (None, sn, Some cb)
    else
      run sn' <- cb sn;
      pure (None, sn', None).

(** [Start] returns as soon as the worker is started: [started] and [ch]
    are what the environment will answer the worker when it runs. *)
Definition Start (os : OS) (started : Z) (ch : list recv) (sn : Sniffer)
  : Act (option error * Sniffer * option goroutine) :=
  run r <- Configure os sn;
  match r with
  | (Some err, sn') => pure (Some err, sn', None)
  | (None, sn') => SetRunning true (worker started ch) sn'
  end.

(** The statistics at the end of the loop (those of the start if the loop
    panicked). *)
Definition stats_after (stats : SnifferStats) (ch : list recv)
  : SnifferStats :=
  match pkt_loop stats ch with
  | (Some (_, stats'), _) => stats'
  | (None, _) => stats
  end.

End Handlers.

(** ** Vocabulary of the specification *)

(** The streamed value is a JSON object with a ["btle"] object [btle] whose
    ["btle.access_address"] is the string ["0x8e89bed6"]. *)
Definition is_advertisement (v : value) (btle : gmap string value) : Prop :=
  exists packet_map,
    v = VMap packet_map /\
    packet_map !! "btle" = Some (VMap btle) /\
    btle !! "btle.access_address" = Some (VString "0x8e89bed6").

(** The iteration that receives [x] republishes the ["btle"] object [btle]:
    its actions are those of [onAdvertisement] on [btle] and
    [NumAdvertisements] is incremented once. *)
Definition republished (CompanyIdents : gmap Z string) (stats : SnifferStats)
    (x : recv) (btle : gmap string value) : Prop :=
  exists c stats',
    pkt_body CompanyIdents stats x
      = (Some (c, stats'),
         (onAdvertisement CompanyIdents (r_event_now x) btle).2) /\
    NumAdvertisements stats'
      = uint64_add (NumAdvertisements stats) 1.

(** The fields of a ["btle"] object that an event is built from. *)
Definition advertising_address (btle : gmap string value) : option string :=
  as_string (btle !! "btle.advertising_address").

Definition advertising_data (btle : gmap string value)
  : option (gmap string value) :=
  as_map (btle !! "btcommon.eir_ad.advertising_data").

Definition eir_ad_entry (btle : gmap string value)
  : option (gmap string value) :=
  match advertising_data btle with
  | Some ad => as_map (ad !! "btcommon.eir_ad.entry")
  | None => None
  end.

Definition entry_company_id (btle : gmap string value) : option string :=
  match eir_ad_entry btle with
  | Some entry => as_string (entry !! "btcommon.eir_ad.entry.company_id")
  | None => None
  end.

Definition entry_data (btle : gmap string value) : option value :=
  match eir_ad_entry btle with
  | Some entry => entry !! "btcommon.eir_ad.entry.data"
  | None => None
  end.

(** The number that a string of hexadecimal digits denotes; [None] for the
    empty string and for a string with any other character. *)
Definition hex_digit_value (c : ascii) : option Z :=
  let z := Z_of_ascii c in
  if (48 <=? z) && (z <=? 57) then Some (z - 48)          (* 0-9 *)
  else if (97 <=? z) && (z <=? 102) then Some (z - 87)    (* a-f *)
  else if (65 <=? z) && (z <=? 70) then Some (z - 55)     (* A-F *)
  else None.

Fixpoint hex_value_from (acc : Z) (s : string) : option Z :=
  match s with
  | EmptyString => Some acc
  | String c s' =>
      match hex_digit_value c with
      | Some d => hex_value_from (16 * acc + d) s'
      | None => None
      end
  end.

Definition hex_value (s : string) : option Z :=
  match s with
  | EmptyString => None
  | _ => hex_value_from 0 s
  end.

(** The instants read by the loop never go back. *)
Definition clock_monotone (ch : list recv) : Prop :=
  forall (i j : nat) (x y : recv),
    (i <= j)%nat -> ch !! i = Some x -> ch !! j = Some y ->
    r_now x <= r_now y.

(** The counters are within the number [k] of values received so far. *)
Definition counters_ok (k : Z) (s : SnifferStats) : Prop :=
  0 <= NumAdvertisements s <= NumMatched s /\ NumMatched s <= k.

(** The stamps that every iteration leaves once [Running()] answered true. *)
Definition stamp (now : Z) (stats : SnifferStats) : SnifferStats :=
  set_LastPacket now
    (if IsZero (FirstPacket stats) then set_FirstPacket now stats else stats).

(** ** [Stop] *)

(** The function literal that [Stop] hands to [SetRunning]: [Close] works
    on the context that [Ctx] points to, which stays in place. *)
Definition stop_callback (os : OS) (sn : Sniffer) : Act Sniffer :=
  match Ctx sn with
  | None => panic              (* nil pointer dereference in Close *)
  | Some c =>
      run c' <- Close os c;
      pure (set_Ctx (Some c') sn)
  end.

Definition Stop (os : OS) (sn : Sniffer)
  : Act (option error * Sniffer * option goroutine) :=
  SetRunning false (stop_callback os) sn.

(** ** [SnifferStats.Print] *)

(** An operand of a [log.Info] call. *)
Inductive log_arg :=
| ArgString (s : string)
| ArgTime (t : Z)
| ArgUint64 (n : Z).

(** A call [log.Info(format, args...)]. *)
Record info_line := { info_format : string; info_args : list log_arg }.

Section Print.

(** [time.Time.String], the rendering of an instant. *)
Variable time_String : Z -> string.

Definition Print (s : SnifferStats) : option error * list info_line :=
  let first := "never" in
  let last := "never" in
  let first :=
    if negb (IsZero (FirstPacket s)) then time_String (FirstPacket s)
    else first in
  let last :=
    if negb (IsZero (LastPacket s)) then time_String (LastPacket s)
    else last in
  (None,
   [ {| info_format := "Sniffer Started    : %s";
        info_args := [ArgTime (Started_ s)] |};
     {| info_format := "First Packet Seen  : %s";
        info_args := [ArgString first] |};
     {| info_format := "Last Packet Seen   : %s";
        info_args := [ArgString last] |};
     {| info_format := "Advertisements     : %d";
        info_args := [ArgUint64 (NumAdvertisements s)] |};
     {| info_format := "Matched Packets    : %d";
        info_args := [ArgUint64 (NumMatched s)] |};
     {| info_format := "Dumped Packets     : %d";
        info_args := [ArgUint64 (NumDumped s)] |} ]).

End Print.

(** ** [NewSniffer] *)

(** The parameters that [NewSniffer] registers, each with its default. *)
Definition registered_params : list (string * string) :=
  [ ("ble.sniff.verbose", "false");
    ("ble.sniff.interface", "nRF Sniffer for Bluetooth LE");
    ("ble.sniff.source", "");
    ("ble.sniff.pcap", "");
    ("ble.sniff.output", "");
    ("ble.sniff.tshark", "tshark") ].

(** The default of a registered parameter. *)
Fixpoint param_default (params : list (string * string)) (name : string)
  : option string :=
  match params with
  | [] => None
  | (n, d) :: rest => if String.eqb n name then Some d else param_default rest name
  end.

(** The module that [NewSniffer(s)] builds. Of the session [s] the model
    keeps [env], the values that the user has set: a registered parameter
    reads as the value set for it, or else as its default; a name that is
    not registered is an error of the host. (["ble.sniff.verbose"] is a
    bool parameter; the package never reads it, and what the host does when
    it is read as a string is not modelled.) The module is not running, has
    no statistics and a new context. *)
Definition NewSniffer (env : gmap string string) : Sniffer :=
  {| SessionModule_ :=
       {| Started := false;
          StringParam := fun name =>
            match param_default registered_params name with
            | Some d => (None, default d (env !! name))
            | None =>
                (Some (ErrOther ("Parameter " +:+ name +:+ " does not exist.")),
                 "")
            end |};
     Stats := None;
     Ctx := Some NewSnifferContext;
     pktSourceChan := None |}.

(** ** More vocabulary: the shape of a streamed value *)

(** What the three type assertions of the loop find in a value: it is not a
    packet (not an object, or without a ["btle"] object), its ["btle"]
    object has no string ["btle.access_address"], or it has one. *)
Inductive shape :=
| NotPacket
| NoAddress
| Addressed (btle : gmap string value) (access_address : string).

Definition classify (v : value) : shape :=
  match v with
  | VMap packet_map =>
      match packet_map !! "btle" with
      | Some (VMap btle) =>
          match btle !! "btle.access_address" with
          | Some (VString a) => Addressed btle a
          | _ => NoAddress
          end
      | _ => NotPacket
      end
  | _ => NotPacket
  end.

Definition addressed (x : recv) : bool :=
  match classify (r_value x) with
  | Addressed _ _ => true
  | _ => false
  end.

Definition advertises (x : recv) : bool :=
  match classify (r_value x) with
  | Addressed _ a => String.eqb a "0x8e89bed6"
  | _ => false
  end.

Definition lacks_address (x : recv) : bool :=
  match classify (r_value x) with
  | NoAddress => true
  | _ => false
  end.

(** The events among a list of actions, in order. *)
Definition events_of (acts : list action) : list SnifferEvent :=
  omap (fun a => match a with EventAdd _ e => Some e | _ => None end) acts.

(** What the loop does for each event it republishes. *)
Definition pushes (events : list SnifferEvent) : list action :=
  events ≫= (fun e => [EventAdd "ble.sniff" e; Refresh]).

End ble_sniff.

(** * Sample inputs

    Concrete values on which the statements below are instantiated. *)

Module samples.

Import golib ble_sniff.

(** One entry of the company table: 0x004c. *)
Definition CompanyIdents : gmap Z string := {[ 76 := "Apple, Inc." ]}.

Definition entry : gmap string value :=
  {[ "btcommon.eir_ad.entry.company_id" := VString "0x004c";
     "btcommon.eir_ad.entry.data" := VString "02:15:aa:bb" ]}.

(** The ["btle"] object of an advertising packet. *)
Definition btle : gmap string value :=
  {[ "btle.access_address" := VString "0x8e89bed6";
     "btle.advertising_address" := VString "c0:ff:ee:c0:ff:ee";
     "btcommon.eir_ad.advertising_data" :=
       VMap {[ "btcommon.eir_ad.entry" := VMap entry ]} ]}.

Definition advertisement : value := VMap {[ "btle" := VMap btle ]}.

(** A ["btle"] object without ["btle.access_address"]. *)
Definition btle_no_address : gmap string value :=
  {[ "btle.length" := VString "37" ]}.

Definition no_access_address : value :=
  VMap {[ "btle" := VMap btle_no_address ]}.

(** A value that is not an object. *)
Definition not_an_object : value := VArray [VInt64 1; VNil].

Definition received (running : bool) (now : Z) (v : value) : recv :=
  {| r_running := running; r_now := now; r_event_now := now + 1;
     r_value := v |}.

(** A delivery of three values under a clock that does not go back. *)
Definition delivery : list recv :=
  [received true 2 not_an_object;
   received true 4 advertisement;
   received true 4 advertisement].

(** An environment in which everything succeeds, and one in which no file
    can be opened. *)
Definition os_ok : OS :=
  {| StdoutPipe_err := fun _ => None;
     Start_err := fun _ => None;
     Kill_err := fun _ => None;
     Open_err := fun _ => None;
     Create_err := fun _ => None |}.

Definition os_no_file : OS :=
  {| StdoutPipe_err := fun _ => None;
     Start_err := fun _ => None;
     Kill_err := fun _ => None;
     Open_err := fun _ => Some (ErrOther "no such file or directory");
     Create_err := fun _ => None |}.

(** Modules whose parameter table is given as a finite map; a missing
    parameter reads as the empty string. *)
Definition module_with (started : bool) (params : gmap string string)
  : Sniffer :=
  {| SessionModule_ :=
       {| Started := started;
          StringParam := fun k => (None, default "" (params !! k)) |};
     Stats := None;
     Ctx := Some NewSnifferContext;
     pktSourceChan := None |}.

(** Reading from a JSON file. *)
Definition file_module : Sniffer :=
  module_with false {[ "ble.sniff.source" := "capture.json" ]}.

(** Live capture, and capture replayed from a pcap file. *)
Definition live_module : Sniffer :=
  module_with false
    {[ "ble.sniff.tshark" := "tshark";
       "ble.sniff.interface" := "nRF Sniffer for Bluetooth LE" ]}.

Definition pcap_module : Sniffer :=
  module_with false
    {[ "ble.sniff.tshark" := "tshark";
       "ble.sniff.interface" := "nRF Sniffer for Bluetooth LE";
       "ble.sniff.pcap" := "capture.pcap" ]}.

Definition running_module : Sniffer :=
  module_with true {[ "ble.sniff.source" := "capture.json" ]}.

(** A company table with the entries 0 and 0x004c. *)
Definition CompanyIdents0 : gmap Z string :=
  {[ 0 := "Ericsson Technology Licensing"; 76 := "Apple, Inc." ]}.

(** A ["btle"] object whose entry has the company id [cid] and no data. *)
Definition btle_with_company (cid : string) : gmap string value :=
  {[ "btle.access_address" := VString "0x8e89bed6";
     "btle.advertising_address" := VString "c0:ff:ee:c0:ff:ee";
     "btcommon.eir_ad.advertising_data" :=
       VMap {[ "btcommon.eir_ad.entry" :=
                 VMap {[ "btcommon.eir_ad.entry.company_id" :=
                           VString cid ]} ]} ]}.

(** Live capture written to an output file, and an environment in which
    no file can be created. *)
Definition live_output_module : Sniffer :=
  module_with false
    {[ "ble.sniff.tshark" := "tshark";
       "ble.sniff.interface" := "nRF Sniffer for Bluetooth LE";
       "ble.sniff.output" := "out.json" ]}.

Definition os_no_create : OS :=
  {| StdoutPipe_err := fun _ => None;
     Start_err := fun _ => None;
     Kill_err := fun _ => None;
     Open_err := fun _ => None;
     Create_err := fun _ => Some (ErrOther "permission denied") |}.

Definition tshark_live : Cmd :=
  {| cmd_name := "tshark";
     cmd_arg := ["-i"; "nRF Sniffer for Bluetooth LE"; "-T"; "json"] |}.

(** The context of a live capture with an open output file. *)
Definition live_context : SnifferContext :=
  set_OutputFile (Some "out.json")
    (set_Output "out.json"
       (set_Reader (Some (StdoutOf tshark_live))
          (set_TSharkRunning true
             (set_Process true
                (set_TSharkProc (Some tshark_live) NewSnifferContext))))).

(** A context whose flag is set on a command that was never started. *)
Definition unstarted_context : SnifferContext :=
  set_TSharkRunning true
    (set_TSharkProc (Some tshark_live) NewSnifferContext).

(** Two values received while the clock goes back from 5 to 3. *)
Definition clock_goes_back : list recv :=
  [received true 5 not_an_object; received true 3 not_an_object].

(** A packet of a connection: its access address is not the advertising
    one. *)
Definition data_packet : value :=
  VMap {[ "btle" := VMap {[ "btle.access_address" := VString "0x50654b1d" ]} ]}.

(** An advertisement followed by 2^64 - 1 packets of a connection: 2^64
    values with an access address. *)
Definition wrapping_delivery : list recv :=
  received true 1 advertisement
    :: replicate (Z.to_nat (uint64_mod - 1)) (received true 1 data_packet).

(** A module none of whose parameters can be read. *)
Definition broken_module : Sniffer :=
  {| SessionModule_ :=
       {| Started := false;
          StringParam := fun k =>
            (Some (ErrOther "Parameter does not exist."), "") |};
     Stats := None;
     Ctx := Some NewSnifferContext;
     pktSourceChan := None |}.

(** A rendering of instants. *)
Definition time_String (t : Z) : string :=
  if t =? 0 then "0001-01-01 00:00:00 +0000 UTC"
  else "2023-12-01 10:00:00 +0000 UTC".

End samples.

(** * Properties of [packets] *)

Section PacketsFacts.

Import packets.

Variable spare : nat -> nat -> nat.

Lemma byte_of_int_add (x y : Z) :
  byte_of_int (int_add x y) = (x + y) mod 256.
Proof.
  unfold byte_of_int, int_add.
  pose proof (Z.div_mod (x + y + 2 ^ 63) (2 ^ 64) ltac:(lia)) as E.
  set (q := (x + y + 2 ^ 63) / 2 ^ 64) in *.
  replace ((x + y + 2 ^ 63) mod 2 ^ 64 - 2 ^ 63)
    with (x + y + (- (2 ^ 56) * q) * 256) by lia.
  apply Z_mod_plus_full.
Qed.

Lemma length_bytes_of_string (s : string) :
  length (bytes_of_string s) = String.length s.
Proof.
  unfold bytes_of_string. rewrite length_fmap.
  induction s as [|c s IH]; simpl; congruence.
Qed.

Lemma Z_of_ascii_byte (c : ascii) : is_byte (Z_of_ascii c).
Proof.
  unfold is_byte, Z_of_ascii.
  pose proof (Ascii.N_ascii_bounded c). lia.
Qed.

(** What [MySQLGetFile] computes, in both cases of [append]. *)
Lemma MySQLGetFile_unfold (infile : string) (h : gmap loc (list Z)) :
  let hdr := [byte_of_int (int_add (len_string infile) 1); 0; 0; 1; 251] in
  let l := fresh (dom h) in
  let h1 := <[l := hdr]> h in
  MySQLGetFile spare infile h =
    match bytes_of_string infile with
    | [] => (Slice l 0 5 5, <[l := hdr]> h1)
    | xs =>
        let needed := (5 + length xs)%nat in
        let l2 := fresh (dom h1) in
        (Slice l2 0 needed (needed + spare 5 needed),
         <[l2 := hdr ++ xs ++ replicate (spare 5 needed) 0]> h1)
    end.
Proof.
  intros hdr l h1.
  unfold MySQLGetFile, bind, slice_lit, alloc, ret, append, slice_read; simpl.
  fold l. fold hdr. fold h1.
  assert (Hl : h1 !! l = Some hdr) by apply lookup_insert_eq.
  destruct (bytes_of_string infile) as [|x xs] eqn:E; simpl.
  - rewrite Hl. reflexivity.
  - rewrite Hl. simpl. repeat f_equal; lia.
Qed.

(** C3. For every string [infile], [MySQLGetFile(infile)] returns a slice of
    length [len(infile)+5]; read in the heap the call leaves, its first
    byte is [(len(infile)+1) mod 256], the next four are 0x00 0x00 0x01
    0xfb and the rest are the bytes of [infile]. The bytes returned do not
    depend on the heap the call starts from: equal inputs give equal
    outputs. *)
Theorem MySQLGetFile_returns (infile : string) (h : gmap loc (list Z)) :
  let r := MySQLGetFile spare infile h in
  let out :=
    (len_string infile + 1) mod 256
      :: 0x00 :: 0x00 :: 0x01 :: 0xfb :: bytes_of_string infile in
  s_len r.1 = (String.length infile + 5)%nat /\
  slice_read r.1 r.2 = Some out /\
  length out = (String.length infile + 5)%nat /\
  Forall is_byte out /\
  (forall h2, MySQLGetFile_bytes spare infile h2 = Some out).
Proof.
  intros r out.
  assert (Hbytes : forall h0, MySQLGetFile_bytes spare infile h0 = Some out).
  { intros h0. unfold MySQLGetFile_bytes.
    rewrite MySQLGetFile_unfold. subst out.
    rewrite byte_of_int_add.
    destruct (bytes_of_string infile) as [|x xs] eqn:E.
    - unfold slice_read; simpl. rewrite lookup_insert_eq. reflexivity.
    - unfold slice_read; cbv zeta.
      cbn [s_arr s_len s_off]. rewrite lookup_insert_eq.
      rewrite drop_0. do 2 f_equal.
      set (hdr := [_; 0; 0; 1; 251]).
      change (take (length (hdr ++ x :: xs))
                ((hdr ++ x :: xs) ++ replicate
                   (spare 5 (5 + length (x :: xs))) 0) = hdr ++ x :: xs).
      apply take_app_length. }
  assert (Hlen : s_len r.1 = (String.length infile + 5)%nat).
  { subst r. rewrite MySQLGetFile_unfold.
    pose proof (length_bytes_of_string infile) as L.
    destruct (bytes_of_string infile); simpl in *; lia. }
  repeat split.
  - exact Hlen.
  - specialize (Hbytes h). unfold MySQLGetFile_bytes in Hbytes.
    subst r. destruct (MySQLGetFile spare infile h). exact Hbytes.
  - subst out. simpl. rewrite length_bytes_of_string. lia.
  - subst out. apply Forall_cons. split.
    { apply Z.mod_pos_bound. lia. }
    repeat (apply Forall_cons; split; [unfold is_byte; lia|]).
    unfold bytes_of_string. apply Forall_fmap, Forall_forall.
    intros c _. apply Z_of_ascii_byte.
  - exact Hbytes.
Qed.

(** C4. The three constants are MySQL packets whose declared payload length
    is the number of bytes after the four-byte header: the greeting has 95
    bytes, declares 0x5b = 91 and has sequence number 0; the two OK
    responses have 11 bytes, declare 7, have sequence numbers 2 and 4, and
    carry the same payload 00 00 00 02 00 00 00. *)
Theorem MySQL_constants_well_formed :
  (well_formed_packet MySQLGreeting /\
   length MySQLGreeting = 95%nat /\
   declared_length <$> parse_packet MySQLGreeting = Some 91 /\
   sequence_id <$> parse_packet MySQLGreeting = Some 0 /\
   (length ∘ payload) <$> parse_packet MySQLGreeting = Some 91%nat) /\
  (well_formed_packet MySQLFirstResponseOK /\
   length MySQLFirstResponseOK = 11%nat /\
   parse_packet MySQLFirstResponseOK
     = Some (Packet 7 2 [0x00; 0x00; 0x00; 0x02; 0x00; 0x00; 0x00])) /\
  (well_formed_packet MySQLSecondResponseOK /\
   length MySQLSecondResponseOK = 11%nat /\
   parse_packet MySQLSecondResponseOK
     = Some (Packet 7 4 [0x00; 0x00; 0x00; 0x02; 0x00; 0x00; 0x00])).
Proof.
  assert (Hb : forall bs, forallb (fun b => (0 <=? b) && (b <? 256)) bs = true
                          -> Forall is_byte bs).
  { intros bs Hall. apply Forall_forall. intros b Hin.
    rewrite forallb_forall in Hall.
    apply list_elem_of_In in Hin. specialize (Hall b Hin).
    unfold is_byte. lia. }
  repeat split; try reflexivity; try (apply Hb; reflexivity);
    eexists; (split; [reflexivity | reflexivity]).
Qed.

(** The state after package initialisation: the variables are allocated and
    hold the literals. *)
Lemma initial_state_allocated : vars_allocated initial_state.
Proof.
  unfold vars_allocated.
  repeat split; apply elem_of_dom; eexists; vm_compute; reflexivity.
Qed.

Lemma initial_state_reads :
  slice_read (var_MySQLGreeting (st_vars initial_state))
    (st_heap initial_state) = Some MySQLGreeting /\
  slice_read (var_MySQLFirstResponseOK (st_vars initial_state))
    (st_heap initial_state) = Some MySQLFirstResponseOK /\
  slice_read (var_MySQLSecondResponseOK (st_vars initial_state))
    (st_heap initial_state) = Some MySQLSecondResponseOK.
Proof. repeat split; vm_compute; reflexivity. Qed.

(** Every array that exists before a call is the same after it. *)
Lemma MySQLGetFile_heap_frame (infile : string) (h : gmap loc (list Z))
    (l : loc) :
  l ∈ dom h -> (MySQLGetFile spare infile h).2 !! l = h !! l.
Proof.
  intros Hl. rewrite MySQLGetFile_unfold. cbv zeta.
  assert (Hne : fresh (dom h) <> l).
  { intros <-. by apply (is_fresh (dom h)). }
  destruct (bytes_of_string infile) as [|x xs]; simpl.
  - by rewrite !lookup_insert_ne.
  - set (h1 := <[fresh (dom h) := _]> h).
    assert (Hne1 : fresh (dom h1) <> l).
    { intros E. apply (is_fresh (dom h1)). rewrite E.
      unfold h1. rewrite dom_insert_L. by apply elem_of_union_r. }
    rewrite lookup_insert_ne by done. unfold h1.
    by rewrite lookup_insert_ne.
Qed.

(** C8. A call of [MySQLGetFile], with any input, in a state where the three
    package variables are allocated, leaves the variables, every array of
    the heap that existed before the call, and hence the bytes of
    [MySQLGreeting], [MySQLFirstResponseOK] and [MySQLSecondResponseOK],
    unchanged. *)
Theorem MySQLGetFile_preserves_constants (infile : string) (st : state) :
  vars_allocated st ->
  let st' := (call_MySQLGetFile spare infile st).2 in
  st_vars st' = st_vars st /\
  (forall l, l ∈ dom (st_heap st) -> st_heap st' !! l = st_heap st !! l) /\
  slice_read (var_MySQLGreeting (st_vars st')) (st_heap st')
    = slice_read (var_MySQLGreeting (st_vars st)) (st_heap st) /\
  slice_read (var_MySQLFirstResponseOK (st_vars st')) (st_heap st')
    = slice_read (var_MySQLFirstResponseOK (st_vars st)) (st_heap st) /\
  slice_read (var_MySQLSecondResponseOK (st_vars st')) (st_heap st')
    = slice_read (var_MySQLSecondResponseOK (st_vars st)) (st_heap st).
Proof.
  intros (Hg & Hf & Hs) st'.
  assert (Hv : st_vars st' = st_vars st).
  { subst st'. unfold call_MySQLGetFile.
    destruct (MySQLGetFile spare infile (st_heap st)); reflexivity. }
  assert (Hh : forall l, l ∈ dom (st_heap st) ->
                         st_heap st' !! l = st_heap st !! l).
  { intros l Hl. subst st'. unfold call_MySQLGetFile.
    pose proof (MySQLGetFile_heap_frame infile (st_heap st) l Hl) as F.
    destruct (MySQLGetFile spare infile (st_heap st)); exact F. }
  split; [exact Hv|]. split; [exact Hh|].
  rewrite Hv. unfold slice_read.
  rewrite (Hh _ Hg), (Hh _ Hf), (Hh _ Hs). auto.
Qed.

End PacketsFacts.

(** The frame property at the state left by package initialisation, for the
    file name [/etc/passwd] and a runtime that doubles capacities. *)
Lemma MySQLGetFile_preserves_constants_witness :
  packets.vars_allocated packets.initial_state /\
  let st' :=
    (packets.call_MySQLGetFile (fun c n => n) "/etc/passwd"
       packets.initial_state).2 in
  packets.st_vars st' = packets.st_vars packets.initial_state /\
  (forall l, l ∈ dom (packets.st_heap packets.initial_state) ->
     packets.st_heap st' !! l
       = packets.st_heap packets.initial_state !! l) /\
  packets.slice_read
      (packets.var_MySQLGreeting (packets.st_vars st')) (packets.st_heap st')
    = packets.slice_read
        (packets.var_MySQLGreeting (packets.st_vars packets.initial_state))
        (packets.st_heap packets.initial_state) /\
  packets.slice_read
      (packets.var_MySQLFirstResponseOK (packets.st_vars st'))
      (packets.st_heap st')
    = packets.slice_read
        (packets.var_MySQLFirstResponseOK
           (packets.st_vars packets.initial_state))
        (packets.st_heap packets.initial_state) /\
  packets.slice_read
      (packets.var_MySQLSecondResponseOK (packets.st_vars st'))
      (packets.st_heap st')
    = packets.slice_read
        (packets.var_MySQLSecondResponseOK
           (packets.st_vars packets.initial_state))
        (packets.st_heap packets.initial_state).
Proof.
  split; [apply initial_state_allocated|].
  apply (MySQLGetFile_preserves_constants (fun c n => n) "/etc/passwd"
           packets.initial_state).
  apply initial_state_allocated.
Defined.

(** * Properties of [ble_sniff] *)

Section SnifferFacts.

Import golib ble_sniff.

Variable CompanyIdents : gmap Z string.

(** ** Events built by [onProprietary] *)

(** [onProprietary] never panics, and performs either nothing or one push. *)
Lemma onProprietary_cases (now : Z) (btleData : gmap string value) :
  match advertising_address btleData, eir_ad_entry btleData,
        entry_company_id btleData with
  | Some addr, Some entry, Some cid =>
      onProprietary CompanyIdents now btleData =
        (Some tt,
         [EventAdd "ble.sniff"
            {| PacketTime := now;
               Protocol := "BLE ADVERT";
               Source := addr;
               Destination := "BROADCAST";
               Message :=
                 Sprintf "Proprietary %s Data"
                   [CompanyIdents_at CompanyIdents
                      (uint16_of (ParseUint (Replace cid "0x" "" (-1)) 16 16).1)];
               Data :=
                 VString
                   (default "No data could be retrieved"
                      (as_string (entry_data btleData))) |};
          Refresh])
  | _, _, _ => onProprietary CompanyIdents now btleData = (Some tt, [])
  end.
Proof.
  unfold advertising_address, eir_ad_entry, entry_company_id, entry_data,
    eir_ad_entry, advertising_data, onProprietary.
  destruct (as_string (btleData !! "btle.advertising_address")) as [addr|];
    [|reflexivity].
  destruct (as_map (btleData !! "btcommon.eir_ad.advertising_data"))
    as [ad|]; [|reflexivity].
  destruct (as_map (ad !! "btcommon.eir_ad.entry")) as [entry|];
    [|reflexivity].
  destruct (as_string (entry !! "btcommon.eir_ad.entry.company_id"))
    as [cid|]; [|reflexivity].
  destruct (as_string (entry !! "btcommon.eir_ad.entry.data")); reflexivity.
Qed.

Lemma onProprietary_total (now : Z) (btleData : gmap string value) :
  (onProprietary CompanyIdents now btleData).1 = Some tt.
Proof.
  pose proof (onProprietary_cases now btleData) as H.
  destruct (advertising_address btleData), (eir_ad_entry btleData),
    (entry_company_id btleData); rewrite H; reflexivity.
Qed.

(** The format ["Proprietary %s Data"] with one string operand. *)
Lemma Sprintf_proprietary (name : string) :
  Sprintf "Proprietary %s Data" [name] = "Proprietary " +:+ name +:+ " Data".
Proof. reflexivity. Qed.

(** ** The company id *)

Lemma hex_digit_value_digit_of (c : ascii) (d : Z) :
  hex_digit_value c = Some d ->
  digit_of (Z_of_ascii c) = Some d /\ 0 <= d < 16.
Proof.
  intros H.
  destruct c as [[] [] [] [] [] [] [] []]; vm_compute in H;
    try discriminate; injection H as <-; (split; [reflexivity | lia]).
Qed.

Lemma hex_value_from_ge (s : string) :
  forall acc k, 0 <= acc -> hex_value_from acc s = Some k -> acc <= k.
Proof.
  induction s as [|c s IH]; intros acc k Hacc H; simpl in H.
  - injection H as <-. lia.
  - destruct (hex_digit_value c) as [d|] eqn:Hd; [|discriminate].
    destruct (hex_digit_value_digit_of _ _ Hd) as (_ & Hr).
    specialize (IH (16 * acc + d) k ltac:(lia) H). lia.
Qed.

Lemma ParseUint_loop_hex (s : string) :
  forall acc k,
    0 <= acc -> hex_value_from acc s = Some k -> k < 2 ^ 16 ->
    ParseUint_loop 16 (2 ^ 60) (2 ^ 16 - 1) (bytes_of_string s) acc
      = (k, None).
Proof.
  induction s as [|c s IH]; intros acc k Hacc H Hk; simpl in H.
  - by injection H as <-.
  - destruct (hex_digit_value c) as [d|] eqn:Hd; [|discriminate].
    destruct (hex_digit_value_digit_of _ _ Hd) as (Hdig & Hr).
    pose proof (hex_value_from_ge s (16 * acc + d) k ltac:(lia) H) as Hge.
    change (bytes_of_string (String c s))
      with (Z_of_ascii c :: bytes_of_string s).
    cbn [ParseUint_loop]. rewrite Hdig.
    assert (E1 : uint64_mul acc 16 = acc * 16).
    { unfold uint64_mul, uint64_mod. apply Z.mod_small. lia. }
    assert (E2 : uint64_add (acc * 16) d = acc * 16 + d).
    { unfold uint64_add, uint64_mod. apply Z.mod_small. lia. }
    rewrite E1, E2.
    replace (d >=? 16) with false by lia.
    replace (acc >=? 2 ^ 60) with false by lia.
    replace ((acc * 16 + d <? acc * 16) || (acc * 16 + d >? 2 ^ 16 - 1))
      with false by lia.
    replace (acc * 16 + d) with (16 * acc + d) by lia.
    apply IH; [lia | done | done].
Qed.

(** On a string of hexadecimal digits that denotes a number below 2^16,
    [ParseUint] in base 16 with 16 bits gives that number. *)
Lemma ParseUint_hex_value (s : string) (k : Z) :
  hex_value s = Some k -> k < 2 ^ 16 ->
  ParseUint s 16 16 = (k, None) /\ uint16_of k = k.
Proof.
  intros H Hk. unfold hex_value in H.
  destruct s as [|c s]; [discriminate|].
  pose proof (hex_value_from_ge (String c s) 0 k ltac:(lia) H) as Hge.
  split.
  - unfold ParseUint.
    change ((uint64_mod - 1) / 16 + 1) with (2 ^ 60).
    by apply ParseUint_loop_hex.
  - unfold uint16_of. apply Z.mod_small. lia.
Qed.

(** C6. [onProprietary] pushes nothing when the advertising address, the
    advertising-data object, the eir_ad entry object or the company id
    string is absent (or of another type). Otherwise it pushes exactly one
    event, tagged ["ble.sniff"], whose protocol is ["BLE ADVERT"], whose
    destination is ["BROADCAST"], whose source is the advertising address,
    whose message is ["Proprietary " ++ name ++ " Data"], [name] being the
    [CompanyIdents] entry at the company id parsed in base 16 after every
    ["0x"] is removed, and whose data is ["No data could be retrieved"] when
    the entry has no data field. Every event in the actions of a call is
    such an event. When what is left of the company id after the removal is
    a string of hexadecimal digits denoting a number below 2^16, [name] is
    the [CompanyIdents] entry at that number. *)
Theorem onProprietary_event (now : Z) (btleData : gmap string value) :
  let r := onProprietary CompanyIdents now btleData in
  let name_of (cid : string) :=
    CompanyIdents_at CompanyIdents
      (uint16_of (ParseUint (Replace cid "0x" "" (-1)) 16 16).1) in
  r.1 = Some tt /\
  (advertising_address btleData = None \/
   advertising_data btleData = None \/
   eir_ad_entry btleData = None \/
   entry_company_id btleData = None -> r.2 = []) /\
  (forall addr cid,
     advertising_address btleData = Some addr ->
     entry_company_id btleData = Some cid ->
     exists e,
       r.2 = [EventAdd "ble.sniff" e; Refresh] /\
       PacketTime e = now /\
       Protocol e = "BLE ADVERT" /\
       Destination e = "BROADCAST" /\
       Source e = addr /\
       Message e = "Proprietary " +:+ name_of cid +:+ " Data" /\
       (entry_data btleData = None ->
        Data e = VString "No data could be retrieved") /\
       (forall d, entry_data btleData = Some (VString d) ->
                  Data e = VString d)) /\
  (forall tag e,
     EventAdd tag e ∈ r.2 ->
     tag = "ble.sniff" /\
     Protocol e = "BLE ADVERT" /\
     Destination e = "BROADCAST" /\
     btleData !! "btle.advertising_address" = Some (VString (Source e)) /\
     (exists cid,
        entry_company_id btleData = Some cid /\
        Message e = "Proprietary " +:+ name_of cid +:+ " Data") /\
     (entry_data btleData = None ->
      Data e = VString "No data could be retrieved")) /\
  (forall cid k,
     hex_value (Replace cid "0x" "" (-1)) = Some k -> k < 2 ^ 16 ->
     name_of cid = CompanyIdents_at CompanyIdents k).
Proof.
  intros r name_of.
  pose proof (onProprietary_cases now btleData) as H. fold r in H.
  assert (Hent : eir_ad_entry btleData = None ->
                 entry_company_id btleData = None).
  { unfold entry_company_id. by intros ->. }
  assert (Had : advertising_data btleData = None ->
                eir_ad_entry btleData = None).
  { unfold eir_ad_entry. by intros ->. }
  split; [apply onProprietary_total|].
  split; [|split; [|split]].
  4:{ intros cid k Hk Hlt. unfold name_of.
      destruct (ParseUint_hex_value _ _ Hk Hlt) as (-> & Hu).
      cbn [fst]. by rewrite Hu. }
  - intros Habs.
    assert (Hnone : advertising_address btleData = None \/
                    entry_company_id btleData = None) by tauto.
    destruct (advertising_address btleData), (eir_ad_entry btleData),
      (entry_company_id btleData); try (by rewrite H);
      destruct Hnone; discriminate.
  - intros addr cid Ha Hc. rewrite Ha, Hc in H.
    destruct (eir_ad_entry btleData) as [entry|] eqn:He;
      [|specialize (Hent eq_refl); congruence].
    eexists. rewrite H. split; [reflexivity|]. simpl.
    repeat split.
    + by intros ->.
    + by intros d ->.
  - intros tag e Hin.
    destruct (advertising_address btleData) as [addr|] eqn:Ha;
      [|rewrite H in Hin; by apply elem_of_nil in Hin].
    destruct (eir_ad_entry btleData) as [entry|] eqn:He;
      [|rewrite H in Hin; by apply elem_of_nil in Hin].
    destruct (entry_company_id btleData) as [cid|] eqn:Hc;
      [|rewrite H in Hin; by apply elem_of_nil in Hin].
    rewrite H in Hin. simpl in Hin.
    apply elem_of_cons in Hin as [Heq|Hin];
      [|apply elem_of_cons in Hin as [Heq|Hin];
        [discriminate | by apply elem_of_nil in Hin]].
    injection Heq as -> ->. simpl.
    repeat split.
    + unfold advertising_address, as_string in Ha.
      destruct (btleData !! "btle.advertising_address") as [[]|];
        congruence.
    + by exists cid.
    + by intros ->.
Qed.

(** ** One iteration of the packet loop *)

Lemma onAdvertisement_total (now : Z) (btleData : gmap string value) :
  (onAdvertisement CompanyIdents now btleData).1 = Some tt.
Proof. apply onProprietary_total. Qed.

(** When [Running()] answers false the body only logs and breaks. *)
Lemma pkt_body_not_running (stats : SnifferStats) (x : recv) :
  r_running x = false ->
  pkt_body CompanyIdents stats x
    = (Some (Break, stats), [ModDebug "end pkt loop"]).
Proof. intros H. unfold pkt_body. rewrite H. reflexivity. Qed.

(** When [Running()] answers true the body stamps the statistics, then what
    it does depends on the shape of the value only. *)
Lemma pkt_body_running (stats : SnifferStats) (x : recv) :
  r_running x = true ->
  let s := stamp (r_now x) stats in
  pkt_body CompanyIdents stats x =
    match as_map (Some (r_value x)) with
    | None => (Some (Continue, s), [])
    | Some packet_map =>
    match as_map (packet_map !! "btle") with
    | None => (Some (Continue, s), [])
    | Some btle =>
    match as_string (btle !! "btle.access_address") with
    | None => (Some (Return, s), [])
    | Some a =>
        if String.eqb a "0x8e89bed6" then
          (Some (Continue,
                 set_NumMatched (uint64_add (NumMatched s) 1)
                   (set_NumAdvertisements
                      (uint64_add (NumAdvertisements s) 1) s)),
           (onAdvertisement CompanyIdents (r_event_now x) btle).2)
        else
          (Some (Continue, set_NumMatched (uint64_add (NumMatched s) 1) s),
           [])
    end end end.
Proof.
  intros H s. unfold pkt_body. rewrite H. cbn [negb]. fold (stamp (r_now x) stats).
  fold s.
  destruct (as_map (Some (r_value x))) as [pm|]; [|reflexivity].
  destruct (as_map (pm !! "btle")) as [btle|]; [|reflexivity].
  destruct (as_string (btle !! "btle.access_address")) as [a|];
    [|reflexivity].
  destruct (String.eqb a "0x8e89bed6"); [|reflexivity].
  unfold andThen.
  pose proof (onAdvertisement_total (r_event_now x) btle) as T.
  destruct (onAdvertisement CompanyIdents (r_event_now x) btle)
    as [[[]|] acts]; [|discriminate].
  simpl. rewrite !app_nil_r. reflexivity.
Qed.

(** The body never panics. *)
Lemma pkt_body_total (stats : SnifferStats) (x : recv) :
  exists c stats' acts,
    pkt_body CompanyIdents stats x = (Some (c, stats'), acts).
Proof.
  destruct (r_running x) eqn:R.
  - rewrite (pkt_body_running _ _ R). cbv zeta.
    destruct (as_map (Some (r_value x))) as [pm|]; [|eauto].
    destruct (as_map (pm !! "btle")) as [btle|]; [|eauto].
    destruct (as_string (btle !! "btle.access_address")) as [a|]; [|eauto].
    destruct (String.eqb a "0x8e89bed6"); eauto.
  - rewrite (pkt_body_not_running _ _ R). eauto.
Qed.

(** The shape of a value decides whether it is an advertisement. *)
Lemma is_advertisement_iff (v : value) (btle : gmap string value) :
  is_advertisement v btle <->
  exists pm a,
    as_map (Some v) = Some pm /\ as_map (pm !! "btle") = Some btle /\
    as_string (btle !! "btle.access_address") = Some a /\
    String.eqb a "0x8e89bed6" = true.
Proof.
  split.
  - intros (pm & -> & Hb & Ha). exists pm, "0x8e89bed6".
    rewrite Hb, Ha. auto.
  - intros (pm & a & Hv & Hb & Ha & E).
    apply String.eqb_eq in E. subst a.
    exists pm. unfold as_map, as_string in *.
    destruct v; try discriminate. injection Hv as ->.
    destruct (pm !! "btle") as [[]|]; try discriminate.
    injection Hb as ->.
    destruct (btle !! "btle.access_address") as [[]|]; try discriminate.
    injection Ha as ->. auto.
Qed.

Lemma is_advertisement_unique (v : value) (b1 b2 : gmap string value) :
  is_advertisement v b1 -> is_advertisement v b2 -> b1 = b2.
Proof.
  intros (pm1 & -> & H1 & _) (pm2 & E & H2 & _).
  injection E as <-. congruence.
Qed.

Lemma uint64_add_1_neq (n : Z) : uint64_add n 1 <> n.
Proof.
  unfold uint64_add, uint64_mod. intros E.
  pose proof (Z.mod_pos_bound (n + 1) (2 ^ 64) ltac:(lia)) as B.
  assert (0 <= n < 2 ^ 64) as R by lia.
  destruct (Z.eq_dec n (2 ^ 64 - 1)) as [->|Hn].
  - vm_compute in E. discriminate.
  - rewrite Z.mod_small in E by lia. lia.
Qed.

Lemma uint64_add_1_small (n : Z) :
  0 <= n -> n + 1 < uint64_mod -> uint64_add n 1 = n + 1.
Proof. intros. unfold uint64_add. apply Z.mod_small. lia. Qed.

(** ** The loop *)

(** The loop over a channel that delivers [pre] and then [post]. *)
Lemma pkt_loop_app (stats : SnifferStats) (pre post : list recv) :
  pkt_loop CompanyIdents stats (pre ++ post) =
    match pkt_loop CompanyIdents stats pre with
    | (Some (ChanClosed, stats1), acts1) =>
        let '(r, acts2) := pkt_loop CompanyIdents stats1 post in
        (r, acts1 ++ acts2)
    | other => other
    end.
Proof.
  revert stats. induction pre as [|x pre IH]; intros stats.
  - simpl. by destruct (pkt_loop CompanyIdents stats post).
  - cbn [app pkt_loop]. unfold andThen.
    destruct (pkt_body CompanyIdents stats x) as [[[c s1]|] acts];
      [|reflexivity].
    destruct c.
    + rewrite IH.
      destruct (pkt_loop CompanyIdents s1 pre) as [[[e s2]|] acts1];
        [|reflexivity].
      destruct e; try reflexivity.
      destruct (pkt_loop CompanyIdents s2 post) as [r acts2].
      by rewrite app_assoc.
    + reflexivity.
    + reflexivity.
Qed.

(** The loop never panics: it ends for every finite delivery. *)
Lemma pkt_loop_total (stats : SnifferStats) (ch : list recv) :
  exists e stats' acts,
    pkt_loop CompanyIdents stats ch = (Some (e, stats'), acts).
Proof.
  revert stats. induction ch as [|x ch IH]; intros stats.
  - simpl. unfold pure. eauto.
  - cbn [pkt_loop]. unfold andThen.
    destruct (pkt_body_total stats x) as (c & s1 & acts & ->).
    destruct c.
    + destruct (IH s1) as (e & s2 & acts2 & ->). eauto.
    + simpl. eauto.
    + simpl. eauto.
Qed.

Lemma NumAdvertisements_stamp (now : Z) (stats : SnifferStats) :
  NumAdvertisements (stamp now stats) = NumAdvertisements stats.
Proof. unfold stamp. by destruct (IsZero (FirstPacket stats)). Qed.

Lemma NumMatched_stamp (now : Z) (stats : SnifferStats) :
  NumMatched (stamp now stats) = NumMatched stats.
Proof. unfold stamp. by destruct (IsZero (FirstPacket stats)). Qed.

(** Whether a value is an advertisement can be decided. *)
Lemma is_advertisement_dec (v : value) :
  (exists btle, is_advertisement v btle) \/
  (forall btle, ~ is_advertisement v btle).
Proof.
  destruct (as_map (Some v)) as [pm|] eqn:Hv.
  2:{ right. intros btle (pm & a & E & _)%is_advertisement_iff. congruence. }
  destruct (as_map (pm !! "btle")) as [btle|] eqn:Hb.
  2:{ right. intros b (pm' & a & E & E' & _)%is_advertisement_iff.
      congruence. }
  destruct (as_string (btle !! "btle.access_address")) as [a|] eqn:Ha.
  2:{ right. intros b (pm' & a & E & E' & E'' & _)%is_advertisement_iff.
      congruence. }
  destruct (String.eqb a "0x8e89bed6") eqn:Heq.
  - left. exists btle. apply is_advertisement_iff. eauto 10.
  - right. intros b (pm' & a' & E & E' & E'' & T)%is_advertisement_iff.
    congruence.
Qed.

(** An advertisement met while running is handed to [onAdvertisement] and
    counted. *)
Lemma pkt_body_advertisement (stats : SnifferStats) (x : recv)
    (btle : gmap string value) :
  r_running x = true ->
  is_advertisement (r_value x) btle ->
  let s := stamp (r_now x) stats in
  pkt_body CompanyIdents stats x =
    (Some (Continue,
           set_NumMatched (uint64_add (NumMatched s) 1)
             (set_NumAdvertisements (uint64_add (NumAdvertisements s) 1) s)),
     (onAdvertisement CompanyIdents (r_event_now x) btle).2).
Proof.
  intros R (pm & a & Hv & Hb & Ha & E)%is_advertisement_iff s.
  rewrite (pkt_body_running _ _ R). cbv zeta.
  by rewrite Hv, Hb, Ha, E.
Qed.

(** Any other value met while running causes no action and is not counted
    as an advertisement. *)
Lemma pkt_body_other (stats : SnifferStats) (x : recv) :
  r_running x = true ->
  (forall btle, ~ is_advertisement (r_value x) btle) ->
  exists c stats',
    pkt_body CompanyIdents stats x = (Some (c, stats'), []) /\
    NumAdvertisements stats' = NumAdvertisements stats.
Proof.
  intros R Hno.
  rewrite (pkt_body_running _ _ R). cbv zeta.
  destruct (as_map (Some (r_value x))) as [pm|] eqn:Hv.
  2:{ eexists _, _. split; [reflexivity|apply NumAdvertisements_stamp]. }
  destruct (as_map (pm !! "btle")) as [btle|] eqn:Hb.
  2:{ eexists _, _. split; [reflexivity|apply NumAdvertisements_stamp]. }
  destruct (as_string (btle !! "btle.access_address")) as [a|] eqn:Ha.
  2:{ eexists _, _. split; [reflexivity|apply NumAdvertisements_stamp]. }
  destruct (String.eqb a "0x8e89bed6") eqn:Heq.
  - exfalso. apply (Hno btle), is_advertisement_iff. eauto 10.
  - eexists _, _. split; [reflexivity|]. simpl. apply NumAdvertisements_stamp.
Qed.

(** C1 (amended). Take a value that the packet loop of [Start] receives
    while [Running()] answers true (the loop has consumed [pre] without
    leaving). If the value is a JSON object with a ["btle"] object whose
    ["btle.access_address"] is the string ["0x8e89bed6"], the iteration's
    actions are those of [onAdvertisement] on that ["btle"] object and
    [NumAdvertisements] is incremented once (by one, modulo 2^64);
    otherwise the iteration performs no action and leaves
    [NumAdvertisements] as it was. Hence the value is republished if and
    only if it is such an object. *)
Theorem pkt_loop_republishes_advertisements
    (stats stats1 : SnifferStats) (pre : list recv) (acts1 : list action)
    (x : recv) :
  pkt_loop CompanyIdents stats pre = (Some (ChanClosed, stats1), acts1) ->
  r_running x = true ->
  exists c stats2 acts,
    pkt_body CompanyIdents stats1 x = (Some (c, stats2), acts) /\
    (exists e, pkt_loop CompanyIdents stats (pre ++ [x])
               = (Some (e, stats2), acts1 ++ acts)) /\
    (forall btle,
       is_advertisement (r_value x) btle ->
       acts = (onAdvertisement CompanyIdents (r_event_now x) btle).2 /\
       NumAdvertisements stats2 = uint64_add (NumAdvertisements stats1) 1 /\
       (0 <= NumAdvertisements stats1 ->
        NumAdvertisements stats1 + 1 < uint64_mod ->
        NumAdvertisements stats2 = NumAdvertisements stats1 + 1)) /\
    ((forall btle, ~ is_advertisement (r_value x) btle) ->
     acts = [] /\ NumAdvertisements stats2 = NumAdvertisements stats1) /\
    (NumAdvertisements stats2 <> NumAdvertisements stats1 <->
     exists btle, is_advertisement (r_value x) btle) /\
    ((exists btle, republished CompanyIdents stats1 x btle) <->
     exists btle, is_advertisement (r_value x) btle).
Proof.
  intros Hpre R.
  assert (Hloop : forall c stats2 acts,
    pkt_body CompanyIdents stats1 x = (Some (c, stats2), acts) ->
    exists e, pkt_loop CompanyIdents stats (pre ++ [x])
              = (Some (e, stats2), acts1 ++ acts)).
  { intros c stats2 acts Hb. rewrite pkt_loop_app, Hpre.
    cbn [pkt_loop]. unfold andThen. rewrite Hb.
    destruct c; simpl; rewrite app_nil_r; eauto. }
  destruct (is_advertisement_dec (r_value x)) as [[btle Hadv]|Hno].
  - pose proof (pkt_body_advertisement stats1 x btle R Hadv) as Hb.
    cbv zeta in Hb.
    eexists _, _, _. split; [exact Hb|].
    split; [exact (Hloop _ _ _ Hb)|].
    assert (Hnum : NumAdvertisements
                     (set_NumMatched
                        (uint64_add (NumMatched (stamp (r_now x) stats1)) 1)
                        (set_NumAdvertisements
                           (uint64_add
                              (NumAdvertisements (stamp (r_now x) stats1)) 1)
                           (stamp (r_now x) stats1)))
                   = uint64_add (NumAdvertisements stats1) 1).
    { unfold set_NumMatched, set_NumAdvertisements.
      cbn [NumAdvertisements]. by rewrite NumAdvertisements_stamp. }
    split; [|split; [|split]].
    + intros btle' Hadv'.
      rewrite (is_advertisement_unique _ _ _ Hadv' Hadv).
      split; [reflexivity|]. split; [exact Hnum|].
      intros H0 Hmax. rewrite Hnum. by apply uint64_add_1_small.
    + intros Hno. destruct (Hno btle Hadv).
    + rewrite Hnum. split; [eauto|]. intros _. apply uint64_add_1_neq.
    + split; [eauto|]. intros _. exists btle. unfold republished. eauto.
  - destruct (pkt_body_other stats1 x R Hno) as (c & stats2 & Hb & Hnum).
    exists c, stats2, []. split; [exact Hb|].
    split; [exact (Hloop _ _ _ Hb)|].
    split; [|split; [|split]].
    + intros btle Hadv. destruct (Hno btle Hadv).
    + auto.
    + split; [congruence|]. intros [btle Hadv]. destruct (Hno btle Hadv).
    + split.
      * intros (btle & c' & stats' & Hb' & Hnum').
        rewrite Hb in Hb'. injection Hb' as _ <- _.
        rewrite Hnum in Hnum'. symmetry in Hnum'.
        destruct (uint64_add_1_neq _ Hnum').
      * intros [btle Hadv]. destruct (Hno btle Hadv).
Qed.

(** A body that continues without action hands the rest of the channel to
    the loop. *)
Lemma pkt_loop_continue (stats s : SnifferStats) (x : recv)
    (rest : list recv) :
  pkt_body CompanyIdents stats x = (Some (Continue, s), []) ->
  pkt_loop CompanyIdents stats (x :: rest) = pkt_loop CompanyIdents s rest.
Proof.
  intros Hb. cbn [pkt_loop]. unfold andThen. rewrite Hb.
  by destruct (pkt_loop CompanyIdents s rest).
Qed.

(** C2. What the loop does, while running, with a value in which an
    expected field is missing or of another type. A value that is not an
    object, or whose ["btle"] field is not an object, is skipped: no
    action, and the loop goes on with the rest of the channel. A value
    whose ["btle.access_address"] is not a string is not skipped that way:
    the body returns from the enclosing function, so the loop ends there
    and nothing of the rest of the channel is received. *)
Theorem pkt_loop_missing_field (stats : SnifferStats) (x : recv)
    (rest : list recv) :
  r_running x = true ->
  let s := stamp (r_now x) stats in
  (as_map (Some (r_value x)) = None ->
   pkt_body CompanyIdents stats x = (Some (Continue, s), []) /\
   pkt_loop CompanyIdents stats (x :: rest)
     = pkt_loop CompanyIdents s rest) /\
  (forall pm,
     r_value x = VMap pm -> as_map (pm !! "btle") = None ->
     pkt_body CompanyIdents stats x = (Some (Continue, s), []) /\
     pkt_loop CompanyIdents stats (x :: rest)
       = pkt_loop CompanyIdents s rest) /\
  (forall pm btle,
     r_value x = VMap pm -> pm !! "btle" = Some (VMap btle) ->
     as_string (btle !! "btle.access_address") = None ->
     pkt_body CompanyIdents stats x = (Some (Return, s), []) /\
     pkt_loop CompanyIdents stats (x :: rest) = (Some (Returned, s), [])).
Proof.
  intros R s.
  pose proof (pkt_body_running stats x R) as Hb. cbv zeta in Hb. fold s in Hb.
  split; [|split].
  - intros Hv. rewrite Hv in Hb. split; [exact Hb|].
    by apply pkt_loop_continue.
  - intros pm Hv Hbtle. rewrite Hv in Hb. cbn [as_map] in Hb.
    rewrite Hbtle in Hb. split; [exact Hb|]. by apply pkt_loop_continue.
  - intros pm btle Hv Hbtle Ha. rewrite Hv in Hb. cbn [as_map] in Hb.
    rewrite Hbtle in Hb. cbn [as_map] in Hb. rewrite Ha in Hb.
    split; [exact Hb|].
    cbn [pkt_loop]. unfold andThen. rewrite Hb. reflexivity.
Qed.

(** When the body returns from inside the loop, the worker ends without
    resetting [pktSourceChan]. *)
Lemma worker_return_keeps_channel (started : Z) (ch : list recv)
    (sn : Sniffer) (ctx : SnifferContext) (stats' : SnifferStats)
    (acts : list action) :
  Ctx sn = Some ctx ->
  pkt_loop CompanyIdents (NewSnifferStats started) ch
    = (Some (Returned, stats'), acts) ->
  exists sn',
    worker CompanyIdents started ch sn = (Some sn', acts) /\
    pktSourceChan sn' = Some {| chan_reader := Reader ctx |} /\
    Stats sn' = Some stats'.
Proof.
  intros Hctx Hloop. unfold worker. cbn [set_Stats Ctx Stats].
  rewrite Hctx. unfold andThen. rewrite Hloop. simpl.
  rewrite app_nil_r. eauto.
Qed.

(** In every other case the worker sets [pktSourceChan] to nil. *)
Lemma worker_resets_channel (started : Z) (ch : list recv)
    (sn : Sniffer) (ctx : SnifferContext) (e : loop_exit)
    (stats' : SnifferStats) (acts : list action) :
  Ctx sn = Some ctx ->
  e <> Returned ->
  pkt_loop CompanyIdents (NewSnifferStats started) ch
    = (Some (e, stats'), acts) ->
  exists sn',
    worker CompanyIdents started ch sn = (Some sn', acts) /\
    pktSourceChan sn' = None /\
    Stats sn' = Some stats'.
Proof.
  intros Hctx He Hloop. unfold worker. cbn [set_Stats Ctx Stats].
  rewrite Hctx. unfold andThen. rewrite Hloop.
  destruct e; [| |congruence]; simpl; rewrite app_nil_r; eauto.
Qed.

(** C7. The loop is one recursion over what the channel delivers. It ends
    when the channel is closed; and at an iteration where [Running()]
    answers false it ends at once: the statistics are not touched, the only
    action is the debug line, and neither the value received at that
    iteration nor anything delivered after it has any influence on the
    result. The loop ends for every finite delivery. *)
Theorem pkt_loop_stops_when_not_running (stats : SnifferStats) :
  pkt_loop CompanyIdents stats [] = (Some (ChanClosed, stats), []) /\
  (forall x rest,
     r_running x = false ->
     pkt_loop CompanyIdents stats (x :: rest)
       = (Some (Broken, stats), [ModDebug "end pkt loop"])) /\
  (forall pre x post y,
     r_running x = false ->
     r_running y = false ->
     pkt_loop CompanyIdents stats (pre ++ x :: post)
       = pkt_loop CompanyIdents stats (pre ++ [y])) /\
  (forall ch, exists e stats' acts,
     pkt_loop CompanyIdents stats ch = (Some (e, stats'), acts)).
Proof.
  assert (Hbreak : forall s x rest,
    r_running x = false ->
    pkt_loop CompanyIdents s (x :: rest)
      = (Some (Broken, s), [ModDebug "end pkt loop"])).
  { intros s x rest R. cbn [pkt_loop]. unfold andThen.
    by rewrite (pkt_body_not_running _ _ R). }
  split; [reflexivity|]. split; [apply Hbreak|]. split.
  - intros pre x post y Rx Ry. rewrite !pkt_loop_app.
    destruct (pkt_loop CompanyIdents stats pre) as [[[e s1]|] acts1];
      [|reflexivity].
    destruct e; try reflexivity.
    by rewrite (Hbreak s1 x post Rx), (Hbreak s1 y [] Ry).
  - apply pkt_loop_total.
Qed.

(** ** Invariants of the statistics *)

Lemma pkt_body_counters (k : Z) (s s' : SnifferStats) (x : recv)
    (c : control) (acts : list action) :
  pkt_body CompanyIdents s x = (Some (c, s'), acts) ->
  counters_ok k s -> k + 1 < uint64_mod ->
  counters_ok (k + 1) s'.
Proof.
  intros Hb (Hadv & Hk) Hmax. unfold counters_ok.
  destruct (r_running x) eqn:R.
  - rewrite (pkt_body_running _ _ R) in Hb. cbv zeta in Hb.
    pose proof (NumAdvertisements_stamp (r_now x) s) as EA.
    pose proof (NumMatched_stamp (r_now x) s) as EM.
    remember (stamp (r_now x) s) as s0 eqn:Es0. clear Es0.
    destruct (as_map (Some (r_value x))) as [pm|];
      [|injection Hb as <- <- <-; lia].
    destruct (as_map (pm !! "btle")) as [btle|];
      [|injection Hb as <- <- <-; lia].
    destruct (as_string (btle !! "btle.access_address")) as [a|];
      [|injection Hb as <- <- <-; lia].
    destruct (String.eqb a "0x8e89bed6"); injection Hb as <- <- <-;
      unfold set_NumMatched, set_NumAdvertisements;
      cbn [NumAdvertisements NumMatched]; rewrite ?EA, ?EM;
      rewrite ?uint64_add_1_small by lia; lia.
  - rewrite (pkt_body_not_running _ _ R) in Hb.
    injection Hb as <- <- <-. lia.
Qed.

Lemma pkt_loop_counters (ch : list recv) :
  forall (k : Z) (s s' : SnifferStats) (e : loop_exit) (acts : list action),
    pkt_loop CompanyIdents s ch = (Some (e, s'), acts) ->
    counters_ok k s -> k + Z.of_nat (length ch) < uint64_mod ->
    counters_ok (k + Z.of_nat (length ch)) s'.
Proof.
  induction ch as [|x ch IH]; intros k s s' e acts Hl Hc Hmax.
  - injection Hl as <- <- <-. simpl. by rewrite Z.add_0_r.
  - cbn [pkt_loop] in Hl. unfold andThen in Hl.
    destruct (pkt_body CompanyIdents s x) as [[[c s1]|] acts0] eqn:Hb;
      [|discriminate].
    cbn [length] in *.
    assert (Hc1 : counters_ok (k + 1) s1).
    { eapply pkt_body_counters; [exact Hb | exact Hc | lia]. }
    assert (Hweak : counters_ok (k + Z.of_nat (S (length ch))) s1).
    { destruct Hc1 as (? & ?). split; [done | lia]. }
    destruct c.
    + destruct (pkt_loop CompanyIdents s1 ch) as [[[e2 s2]|] acts2] eqn:Hl2;
        [|discriminate].
      injection Hl as <- <- <-.
      replace (k + Z.of_nat (S (length ch)))
        with ((k + 1) + Z.of_nat (length ch)) by lia.
      eapply IH; [exact Hl2 | exact Hc1 | lia].
    + injection Hl as <- <- <-. exact Hweak.
    + injection Hl as <- <- <-. exact Hweak.
Qed.

(** What one iteration does to the two stamps. *)
Lemma pkt_body_stamps (s s' : SnifferStats) (x : recv) (c : control)
    (acts : list action) :
  pkt_body CompanyIdents s x = (Some (c, s'), acts) ->
  (r_running x = false -> s' = s) /\
  (r_running x = true ->
   LastPacket s' = r_now x /\
   FirstPacket s' = if IsZero (FirstPacket s) then r_now x else FirstPacket s).
Proof.
  intros Hb. split; intros R.
  - rewrite (pkt_body_not_running _ _ R) in Hb. by injection Hb as <- <- <-.
  - rewrite (pkt_body_running _ _ R) in Hb. cbv zeta in Hb.
    assert (HL : LastPacket (stamp (r_now x) s) = r_now x) by reflexivity.
    assert (HF : FirstPacket (stamp (r_now x) s)
                 = if IsZero (FirstPacket s) then r_now x else FirstPacket s).
    { unfold stamp. by destruct (IsZero (FirstPacket s)). }
    destruct (as_map (Some (r_value x))) as [pm|];
      [|by injection Hb as <- <- <-].
    destruct (as_map (pm !! "btle")) as [btle|];
      [|by injection Hb as <- <- <-].
    destruct (as_string (btle !! "btle.access_address")) as [a|];
      [|by injection Hb as <- <- <-].
    destruct (String.eqb a "0x8e89bed6"); by injection Hb as <- <- <-.
Qed.

Lemma IsZero_false (t : Z) : t <> 0 -> IsZero t = false.
Proof. unfold IsZero. lia. Qed.

(** Once [FirstPacket] is set, no iteration changes it. *)
Lemma pkt_loop_FirstPacket_stable (ch : list recv) :
  forall (s s' : SnifferStats) (e : loop_exit) (acts : list action),
    pkt_loop CompanyIdents s ch = (Some (e, s'), acts) ->
    FirstPacket s <> 0 -> FirstPacket s' = FirstPacket s.
Proof.
  induction ch as [|x ch IH]; intros s s' e acts Hl Hnz.
  - by injection Hl as <- <- <-.
  - cbn [pkt_loop] in Hl. unfold andThen in Hl.
    destruct (pkt_body CompanyIdents s x) as [[[c s1]|] acts0] eqn:Hb;
      [|discriminate].
    assert (H1 : FirstPacket s1 = FirstPacket s).
    { destruct (pkt_body_stamps _ _ _ _ _ Hb) as (Hoff & Hon).
      destruct (r_running x).
      - destruct (Hon eq_refl) as (_ & ->). by rewrite IsZero_false.
      - by rewrite Hoff. }
    destruct c.
    + destruct (pkt_loop CompanyIdents s1 ch) as [[[e2 s2]|] acts2] eqn:Hl2;
        [|discriminate].
      injection Hl as <- <- <-.
      rewrite <- H1. eapply IH; [exact Hl2 | congruence].
    + by injection Hl as <- <- <-.
    + by injection Hl as <- <- <-.
Qed.

Lemma clock_monotone_cons (x : recv) (ch : list recv) :
  clock_monotone (x :: ch) ->
  clock_monotone ch /\ (forall y, y ∈ ch -> r_now x <= r_now y).
Proof.
  intros H. split.
  - intros i j a b Hij Ha Hb. apply (H (S i) (S j) a b); [lia | done | done].
  - intros y (j & Hj)%list_elem_of_lookup.
    apply (H 0%nat (S j) x y); [lia | done | done].
Qed.

Lemma clock_monotone_take (n : nat) (ch : list recv) :
  clock_monotone ch -> clock_monotone (take n ch).
Proof.
  intros H i j a b Hij Ha Hb.
  apply lookup_take_Some in Ha as (Ha & _).
  apply lookup_take_Some in Hb as (Hb & _).
  by apply (H i j).
Qed.

(** While the clock does not go back, a set [FirstPacket] is never after
    [LastPacket]. *)
Lemma pkt_loop_stamps_ordered (ch : list recv) :
  forall (s s' : SnifferStats) (e : loop_exit) (acts : list action),
    pkt_loop CompanyIdents s ch = (Some (e, s'), acts) ->
    clock_monotone ch ->
    (FirstPacket s <> 0 -> FirstPacket s <= LastPacket s) ->
    (FirstPacket s <> 0 -> forall y, y ∈ ch -> LastPacket s <= r_now y) ->
    FirstPacket s' <> 0 -> FirstPacket s' <= LastPacket s'.
Proof.
  induction ch as [|x ch IH]; intros s s' e acts Hl Hmono Hord Hnext.
  - by injection Hl as <- <- <-.
  - cbn [pkt_loop] in Hl. unfold andThen in Hl.
    destruct (pkt_body CompanyIdents s x) as [[[c s1]|] acts0] eqn:Hb;
      [|discriminate].
    destruct (clock_monotone_cons _ _ Hmono) as (Hmono' & Hx).
    destruct (pkt_body_stamps _ _ _ _ _ Hb) as (Hoff & Hon).
    destruct (r_running x) eqn:R.
    + destruct (Hon eq_refl) as (HL & HF).
      assert (Hord1 : FirstPacket s1 <> 0 -> FirstPacket s1 <= LastPacket s1).
      { rewrite HL, HF. unfold IsZero.
        destruct (Z.eqb_spec (FirstPacket s) 0) as [E|E]; [lia|].
        intros _. specialize (Hord E).
        specialize (Hnext E x ltac:(left)). lia. }
      destruct c.
      * destruct (pkt_loop CompanyIdents s1 ch) as [[[e2 s2]|] acts2] eqn:Hl2;
          [|discriminate].
        injection Hl as <- <- <-.
        eapply IH; [exact Hl2 | exact Hmono' | exact Hord1 |].
        intros _ y Hy. rewrite HL. by apply Hx.
      * by injection Hl as <- <- <-.
      * by injection Hl as <- <- <-.
    + rewrite (Hoff eq_refl) in *.
      rewrite (pkt_body_not_running _ _ R) in Hb.
      injection Hb as <- _. by injection Hl as <- <- <-.
Qed.

Lemma stats_after_eq (s : SnifferStats) (ch : list recv) :
  exists e acts,
    pkt_loop CompanyIdents s ch
      = (Some (e, stats_after CompanyIdents s ch), acts).
Proof.
  unfold stats_after.
  destruct (pkt_loop_total s ch) as (e & s' & acts & ->). eauto.
Qed.

(** C9 (amended). Start from the statistics that [Start] installs and
    let the loop receive any prefix of what the channel delivers. At that
    iteration boundary: a [FirstPacket] that is not the zero time is the
    same at every later boundary, so that it changes only when it is the
    zero time; if the channel delivers fewer than 2^64 values in all (the
    counters are [uint64] and wrap around beyond), then
    [NumAdvertisements <= NumMatched]; and if the instants that the loop
    reads never go back, then [FirstPacket <= LastPacket] whenever
    [FirstPacket] is not the zero time. *)
Theorem stats_invariants (started : Z) (ch : list recv) (n : nat) :
  let s := stats_after CompanyIdents (NewSnifferStats started) (take n ch) in
  (Z.of_nat (length ch) < uint64_mod ->
   NumAdvertisements s <= NumMatched s) /\
  (clock_monotone ch ->
   FirstPacket s <> 0 -> FirstPacket s <= LastPacket s) /\
  (forall m : nat,
     (n <= m)%nat ->
     let s' :=
       stats_after CompanyIdents (NewSnifferStats started) (take m ch) in
     (FirstPacket s <> 0 -> FirstPacket s' = FirstPacket s) /\
     (FirstPacket s' <> FirstPacket s -> FirstPacket s = 0)).
Proof.
  intros s.
  destruct (stats_after_eq (NewSnifferStats started) (take n ch))
    as (e & acts & Hl). fold s in Hl.
  assert (Hstable : forall m : nat,
    (n <= m)%nat -> FirstPacket s <> 0 ->
    FirstPacket
      (stats_after CompanyIdents (NewSnifferStats started) (take m ch))
    = FirstPacket s).
  { intros m Hnm Hnz.
    destruct (stats_after_eq (NewSnifferStats started) (take m ch))
      as (e' & acts' & Hl').
    set (s' := stats_after _ _ (take m ch)) in *.
    assert (Hsplit : take m ch = take n ch ++ drop n (take m ch)).
    { rewrite <- (take_drop n (take m ch)) at 1.
      by rewrite take_take, Nat.min_l. }
    rewrite Hsplit, pkt_loop_app, Hl in Hl'.
    destruct e.
    - destruct (pkt_loop CompanyIdents s (drop n (take m ch)))
        as [[[e2 s2]|] acts2] eqn:Hl2; [|discriminate].
      injection Hl' as _ <- _.
      eapply pkt_loop_FirstPacket_stable; [exact Hl2 | exact Hnz].
    - by injection Hl' as _ <- _.
    - by injection Hl' as _ <- _. }
  split; [|split].
  - intros Hlen.
    assert (Hc : counters_ok (0 + Z.of_nat (length (take n ch))) s).
    { eapply pkt_loop_counters; [exact Hl | |].
      - unfold counters_ok; simpl; lia.
      - rewrite length_take. lia. }
    destruct Hc as ((_ & ?) & _). done.
  - intros Hmono.
    eapply pkt_loop_stamps_ordered; [exact Hl | | |].
    + by apply clock_monotone_take.
    + simpl. lia.
    + simpl. lia.
  - intros m Hnm s'. split; [by apply Hstable|].
    intros Hne. destruct (Z.eq_dec (FirstPacket s) 0) as [E|E]; [done|].
    destruct Hne. by apply Hstable.
Qed.

(** ** The context: [GetContext], [Close] and [Configure] *)

(** Case analysis on the innermost scrutinee of the goal. *)
Ltac break_match :=
  match goal with
  | |- context [match ?t with _ => _ end] =>
      lazymatch t with
      | context [match _ with _ => _ end] => fail
      | _ => destruct t eqn:?
      end
  end.

(** Membership in a list that is written out. *)
Ltac in_concrete H :=
  repeat (apply elem_of_cons in H as [H|H];
          [try discriminate; try (injection H as ?; subst)|]);
  try (by apply elem_of_nil in H).

Ltac eqb_subst :=
  repeat match goal with
  | H : String.eqb _ _ = true |- _ => apply String.eqb_eq in H; subst
  | H : String.eqb _ _ = false |- _ => apply String.eqb_neq in H
  end.

(** [GetContext] never panics and never returns a nil context. *)
Lemma GetContext_total (os : OS) (sn : Sniffer) :
  exists err ctx acts, GetContext os sn = (Some (err, Some ctx), acts).
Proof.
  unfold GetContext. cbv zeta.
  repeat break_match; simpl; eauto.
Qed.

(** A context whose [TSharkRunning] flag is set has its process, which was
    started, and a context returned with an error has no output file. *)
Lemma GetContext_context (os : OS) (sn : Sniffer) (err : option error)
    (ctx : SnifferContext) (acts : list action) :
  GetContext os sn = (Some (err, Some ctx), acts) ->
  (TSharkRunning ctx = true ->
   Process ctx = true /\ exists p, TSharkProc ctx = Some p) /\
  (forall e, err = Some e -> OutputFile ctx = None).
Proof.
  unfold GetContext. cbv zeta.
  repeat break_match; simpl; intros [= <- <- <-]; simpl;
    (split; [intros; try discriminate; eauto | intros; try discriminate; auto]).
Qed.

(** [Close] on a context whose flag and process agree. *)
Lemma Close_cases (os : OS) (c : SnifferContext) :
  (TSharkRunning c = true ->
   Process c = true /\ exists p, TSharkProc c = Some p) ->
  exists acts,
    Close os c = (Some (set_OutputFile None c), acts) /\
    (forall p, TSharkRunning c = true -> TSharkProc c = Some p ->
               ProcKill p ∈ acts) /\
    (TSharkRunning c = false -> forall p, ProcKill p ∉ acts) /\
    (forall f, OutputFile c = Some f -> FileClose f ∈ acts) /\
    (OutputFile c = None -> forall f, FileClose f ∉ acts).
Proof.
  intros Hproc. unfold Close.
  assert (Hid : OutputFile c = None -> set_OutputFile None c = c).
  { destruct c; simpl; by intros ->. }
  destruct (TSharkRunning c) eqn:R.
  - destruct (Hproc eq_refl) as (Hstarted & p & Hp). clear Hproc.
    rewrite Hp, Hstarted.
    destruct (Kill_err os p), (OutputFile c) as [f|] eqn:Hf; simpl;
      rewrite ?Hid by done;
      (eexists; split; [reflexivity|]);
      (split; [intros p' _ [= <-]; set_solver|]);
      (split; [discriminate|]);
      (split; [intros f' [= <-] || intros f' [=]; try set_solver|]);
      try discriminate; intros _ f' Hin; in_concrete Hin.
  - clear Hproc. destruct (OutputFile c) as [f|] eqn:Hf; simpl;
      rewrite ?Hid by done;
      (eexists; split; [reflexivity|]);
      (split; [discriminate|]);
      (split; [intros _ p' Hin; in_concrete Hin|]);
      (split; [intros f' [= <-] || intros f' [=]; try set_solver|]);
      try discriminate; intros _ f' Hin; in_concrete Hin.
Qed.

(** C5. [GetContext] starts the tshark process only when the
    ["ble.sniff.source"] parameter is the empty string. With a non-empty
    source its first action is to open that file, it starts no process and
    [TSharkRunning] stays false, and when the file opens the context's
    [Reader] reads from it. When the source is empty and the parameters are
    read, the tshark command is run with the arguments [-i <interface> -T
    json] if ["ble.sniff.pcap"] is empty and [-T json -r <pcap file>]
    otherwise. *)
Theorem GetContext_decoder (os : OS) (sn : Sniffer) :
  let r := GetContext os sn in
  let param := StringParam (SessionModule_ sn) in
  (exists err ctx, r.1 = Some (err, Some ctx)) /\
  (forall c, ProcStart c ∈ r.2 -> param "ble.sniff.source" = (None, "")) /\
  (forall src,
     param "ble.sniff.source" = (None, src) -> src <> "" ->
     (exists rest, r.2 = FileOpen src :: rest) /\
     (forall c, ProcStart c ∉ r.2) /\
     (forall err ctx,
        r.1 = Some (err, Some ctx) ->
        TSharkRunning ctx = false /\
        TSharkProc ctx = None /\
        match Open_err os src with
        | None => Reader ctx = Some (FileReader src)
        | Some e => err = Some e /\ Reader ctx = None
        end)) /\
  (forall tshark iface pcap,
     param "ble.sniff.source" = (None, "") ->
     param "ble.sniff.tshark" = (None, tshark) ->
     param "ble.sniff.interface" = (None, iface) ->
     param "ble.sniff.pcap" = (None, pcap) ->
     let proc :=
       {| cmd_name := tshark;
          cmd_arg := if String.eqb pcap "" then ["-i"; iface; "-T"; "json"]
                     else ["-T"; "json"; "-r"; pcap] |} in
     (forall c, ProcStart c ∈ r.2 -> c = proc) /\
     (forall f, FileOpen f ∉ r.2) /\
     (StdoutPipe_err os proc = None -> ProcStart proc ∈ r.2) /\
     (forall err ctx,
        r.1 = Some (err, Some ctx) ->
        TSharkProc ctx = Some proc /\
        (TSharkRunning ctx = true <->
         StdoutPipe_err os proc = None /\ Start_err os proc = None) /\
        (TSharkRunning ctx = true -> Reader ctx = Some (StdoutOf proc)))).
Proof.
  cbv zeta. split; [|split; [|split]].
  - destruct (GetContext_total os sn) as (err & ctx & acts & ->). eauto.
  - unfold GetContext. cbv zeta.
    repeat break_match; simpl in *; intros c Hc; in_concrete Hc;
      by eqb_subst.
  - intros src Hsrc Hne. unfold GetContext. cbv zeta. rewrite Hsrc.
    apply String.eqb_neq in Hne. cbn [Source_ set_Source]. rewrite Hne.
    repeat break_match; simpl;
      (split; [eauto|]);
      (split; [intros c Hc; in_concrete Hc|]);
      intros err ctx [= <- <-]; auto.
  - intros tshark iface pcap Hsrc Htshark Hiface Hpcap.
    unfold GetContext. cbv zeta. rewrite Hsrc, Htshark, Hiface, Hpcap.
    cbn [Source_ set_Source PcapFile set_PcapFile Interface set_Interface
         set_TSharkProc].
    change (String.eqb "" "") with true. cbv iota.
    set (proc := {| cmd_name := tshark;
                    cmd_arg := if String.eqb pcap ""
                               then ["-i"; iface; "-T"; "json"]
                               else ["-T"; "json"; "-r"; pcap] |}).
    assert (Hp : (if String.eqb pcap ""
                  then {| cmd_name := tshark;
                          cmd_arg := ["-i"; iface; "-T"; "json"] |}
                  else {| cmd_name := tshark;
                          cmd_arg := ["-T"; "json"; "-r"; pcap] |}) = proc).
    { unfold proc. by destruct (String.eqb pcap ""). }
    rewrite Hp.
    destruct (StdoutPipe_err os proc) eqn:Epipe;
      [|destruct (Start_err os proc) eqn:Estart];
      repeat break_match; simpl;
      (split; [intros c Hc; by in_concrete Hc|]);
      (split; [intros f Hc; by in_concrete Hc|]);
      (split; [intros; try discriminate; set_solver|]);
      intros err ctx [= <- <-]; simpl;
      (split; [reflexivity|]);
      (split; [split; [intros; try discriminate; auto
                      | intros [? ?]; try discriminate; auto]
              | intros; try discriminate; auto]).
Qed.

(** [Configure] on a module that is not running, when [GetContext] fails. *)
Lemma Configure_error (os : OS) (sn : Sniffer) (e : error)
    (ctx : SnifferContext) (acts : list action) :
  Running sn = false ->
  GetContext os sn = (Some (Some e, Some ctx), acts) ->
  exists acts',
    Close os ctx = (Some (set_OutputFile None ctx), acts') /\
    (forall p, TSharkRunning ctx = true -> TSharkProc ctx = Some p ->
               ProcKill p ∈ acts') /\
    (forall f, OutputFile ctx = Some f -> FileClose f ∈ acts') /\
    Configure os sn = (Some (Some e, set_Ctx None sn), acts ++ acts').
Proof.
  intros R Hg.
  destruct (GetContext_context _ _ _ _ _ Hg) as (Hproc & _).
  destruct (Close_cases os ctx Hproc) as (acts' & Hc & Hkill & _ & Hf & _).
  exists acts'. repeat split; try done.
  unfold Configure. rewrite R. unfold andThen. rewrite Hg.
  cbn [Ctx set_Ctx]. rewrite Hc. simpl. by rewrite app_nil_r.
Qed.

(** [Configure] returns nil only after [GetContext] succeeded. *)
Lemma Configure_nil (os : OS) (sn sn' : Sniffer) (acts : list action) :
  Configure os sn = (Some (None, sn'), acts) ->
  Running sn = false /\
  exists ctx,
    GetContext os sn = (Some (None, Some ctx), acts) /\
    sn' = set_Ctx (Some ctx) sn.
Proof.
  intros Hc.
  destruct (Running sn) eqn:R.
  { unfold Configure in Hc. rewrite R in Hc. discriminate. }
  split; [reflexivity|].
  destruct (GetContext_total os sn) as (err & ctx & acts0 & Hg).
  destruct err as [e|].
  - destruct (Configure_error os sn e ctx acts0 R Hg)
      as (acts' & _ & _ & _ & Hc').
    congruence.
  - unfold Configure in Hc. rewrite R in Hc.
    unfold andThen in Hc. rewrite Hg in Hc. simpl in Hc.
    rewrite app_nil_r in Hc. injection Hc as <- <-.
    exists ctx. auto.
Qed.

(** C10. [Configure] on a running module returns [ErrAlreadyStarted] and
    leaves the module as it is, without any action. On a module that is not
    running, when [GetContext] returns an error, [Configure] runs [Close]
    on the context [GetContext] built (which kills the process if it was
    started and closes the output file if one is open), sets [Ctx] to nil
    and returns that error. [Configure] returns nil only when [GetContext]
    returned a context without error, and [Ctx] is then that context.
    [Configure] never panics. *)
Theorem Configure_outcomes (os : OS) (sn : Sniffer) :
  (Running sn = true ->
   Configure os sn = (Some (Some (ErrAlreadyStarted "ble.sniff"), sn), [])) /\
  (forall e ctx acts,
     Running sn = false ->
     GetContext os sn = (Some (Some e, Some ctx), acts) ->
     exists acts',
       Close os ctx = (Some (set_OutputFile None ctx), acts') /\
       (forall p, TSharkRunning ctx = true -> TSharkProc ctx = Some p ->
                  ProcKill p ∈ acts') /\
       (forall f, OutputFile ctx = Some f -> FileClose f ∈ acts') /\
       Configure os sn = (Some (Some e, set_Ctx None sn), acts ++ acts') /\
       Ctx (set_Ctx None sn) = None) /\
  (forall sn' acts,
     Configure os sn = (Some (None, sn'), acts) ->
     Running sn = false /\
     exists ctx,
       GetContext os sn = (Some (None, Some ctx), acts) /\
       sn' = set_Ctx (Some ctx) sn /\
       Ctx sn' = Some ctx) /\
  (exists r acts, Configure os sn = (Some r, acts)).
Proof.
  split; [|split; [|split]].
  - intros R. unfold Configure. by rewrite R.
  - intros e ctx acts R Hg.
    destruct (Configure_error os sn e ctx acts R Hg)
      as (acts' & Hc & Hk & Hf & Hconf).
    exists acts'. auto.
  - intros sn' acts Hc.
    destruct (Configure_nil os sn sn' acts Hc) as (R & ctx & Hg & ->).
    split; [exact R|]. exists ctx. auto.
  - destruct (Running sn) eqn:R.
    + unfold Configure. rewrite R. unfold pure. eauto.
    + destruct (GetContext_total os sn) as (err & ctx & acts0 & Hg).
      destruct err as [e|].
      * destruct (Configure_error os sn e ctx acts0 R Hg)
          as (acts' & _ & _ & _ & ->).
        eauto.
      * unfold Configure. rewrite R. unfold andThen. rewrite Hg. simpl.
        eauto.
Qed.

(** ** [Start] *)

(** When [Configure] succeeds, [Start] sets the module running, starts the
    worker and returns, having done nothing more than [Configure] did. The
    worker, run on the module that [Start] left, does not panic and leaves
    in [Stats] the statistics that the loop computed from
    [NewSnifferStats]; it writes [Stats] and [pktSourceChan] only. *)
Lemma Start_starts_worker (os : OS) (started : Z) (ch : list recv)
    (sn sn1 : Sniffer) (acts1 : list action) :
  Configure os sn = (Some (None, sn1), acts1) ->
  Start CompanyIdents os started ch sn
    = (Some (None, set_Started true sn1,
             Some (worker CompanyIdents started ch)), acts1) /\
  exists sn2 acts2,
    worker CompanyIdents started ch (set_Started true sn1)
      = (Some sn2, acts2) /\
    acts2 = (pkt_loop CompanyIdents (NewSnifferStats started) ch).2 /\
    Running sn2 = true /\
    Ctx sn2 = Ctx sn1 /\
    Stats sn2
      = Some (stats_after CompanyIdents (NewSnifferStats started) ch).
Proof.
  intros Hc.
  destruct (Configure_nil os sn sn1 acts1 Hc) as (R & ctx & _ & ->).
  destruct (stats_after_eq (NewSnifferStats started) ch) as (e & acts & Hl).
  split.
  - unfold Start, andThen. rewrite Hc.
    unfold SetRunning, Running. cbn [set_Ctx SessionModule_].
    unfold Running in R. rewrite R. cbn [Bool.eqb].
    unfold pure. by rewrite app_nil_r.
  - unfold worker, andThen. cbn [set_Stats set_Started set_Ctx Ctx Stats].
    rewrite Hl.
    destruct e; simpl; rewrite !app_nil_r; eauto 10.
Qed.

End SnifferFacts.

(** * The statements on the sample inputs *)

Section Witnesses.

Import golib ble_sniff.

Lemma sample_is_advertisement :
  is_advertisement samples.advertisement samples.btle.
Proof. exists {[ "btle" := VMap samples.btle ]}. by repeat split. Qed.

Lemma sample_clock_monotone : clock_monotone samples.delivery.
Proof.
  intros i j x y Hij Hx Hy.
  destruct i as [|[|[|i]]], j as [|[|[|j]]]; simpl in Hx, Hy;
    try discriminate; try lia;
    injection Hx as <-; injection Hy as <-; simpl; lia.
Qed.

(** The second value of the sample delivery, an advertisement received
    while running, is republished and counted. *)
Lemma pkt_loop_republishes_advertisements_witness :
  r_running (samples.received true 4 samples.advertisement) = true /\
  exists e stats2,
    pkt_loop samples.CompanyIdents (NewSnifferStats 1)
      [samples.received true 2 samples.not_an_object;
       samples.received true 4 samples.advertisement]
    = (Some (e, stats2),
       (onAdvertisement samples.CompanyIdents 5 samples.btle).2) /\
    NumAdvertisements stats2 = 1.
Proof.
  split; [reflexivity|].
  destruct (pkt_loop_republishes_advertisements samples.CompanyIdents
              (NewSnifferStats 1) (stamp 2 (NewSnifferStats 1))
              [samples.received true 2 samples.not_an_object] []
              (samples.received true 4 samples.advertisement)
              eq_refl eq_refl)
    as (c & stats2 & acts & _ & (e & Hl) & Hadv & _).
  destruct (Hadv samples.btle sample_is_advertisement) as (-> & _ & Hone).
  exists e, stats2. split; [exact Hl|].
  apply Hone; reflexivity.
Defined.

(** C1 as it is written fails for a value received when [Running()]
    answers false: the sample advertisement is such a JSON object, yet the
    iteration that receives it republishes nothing and [NumAdvertisements]
    stays as it was. *)
Lemma advertisement_not_republished_when_stopped :
  ~ ((exists btle,
        republished samples.CompanyIdents (NewSnifferStats 1)
          (samples.received false 2 samples.advertisement) btle) <->
     (exists btle,
        is_advertisement
          (r_value (samples.received false 2 samples.advertisement)) btle)).
Proof.
  intros [_ H].
  destruct (H (ex_intro _ samples.btle sample_is_advertisement))
    as (btle & c & stats' & Hb & Hnum).
  rewrite (pkt_body_not_running samples.CompanyIdents (NewSnifferStats 1)
             (samples.received false 2 samples.advertisement) eq_refl) in Hb.
  injection Hb as _ <- _. vm_compute in Hnum. discriminate.
Qed.

(** A value whose ["btle"] object has no access address ends the loop: the
    advertisement delivered after it is never received. *)
Lemma pkt_loop_missing_field_witness :
  r_running (samples.received true 2 samples.no_access_address) = true /\
  pkt_loop samples.CompanyIdents (NewSnifferStats 1)
    [samples.received true 2 samples.no_access_address;
     samples.received true 4 samples.advertisement]
  = (Some (Returned, stamp 2 (NewSnifferStats 1)), []).
Proof.
  split; [reflexivity|].
  apply (proj2 (proj2 (pkt_loop_missing_field samples.CompanyIdents
                         (NewSnifferStats 1)
                         (samples.received true 2 samples.no_access_address)
                         [samples.received true 4 samples.advertisement]
                         eq_refl))
           {[ "btle" := VMap samples.btle_no_address ]}
           samples.btle_no_address); reflexivity.
Defined.

(** The same advertisement, received first, is republished. *)
Lemma advertisement_alone_is_republished :
  pkt_loop samples.CompanyIdents (NewSnifferStats 1)
    [samples.received true 4 samples.advertisement]
  = (Some (ChanClosed,
           {| NumAdvertisements := 1; NumMatched := 1; NumDumped := 0;
              NumWrote := 0; Started_ := 1; FirstPacket := 4;
              LastPacket := 4 |}),
     [EventAdd "ble.sniff"
        {| PacketTime := 5; Protocol := "BLE ADVERT";
           Source := "c0:ff:ee:c0:ff:ee"; Destination := "BROADCAST";
           Message := "Proprietary Apple, Inc. Data";
           Data := VString "02:15:aa:bb" |};
      Refresh]).
Proof. vm_compute. reflexivity. Qed.

(** An advertisement received once [Running()] answers false is not
    touched. *)
Lemma pkt_loop_stops_when_not_running_witness :
  r_running (samples.received false 2 samples.advertisement) = false /\
  pkt_loop samples.CompanyIdents (NewSnifferStats 1)
    [samples.received false 2 samples.advertisement;
     samples.received true 4 samples.advertisement]
  = (Some (Broken, NewSnifferStats 1), [ModDebug "end pkt loop"]).
Proof.
  split; [reflexivity|].
  apply (proj1 (proj2 (pkt_loop_stops_when_not_running samples.CompanyIdents
                         (NewSnifferStats 1)))).
  reflexivity.
Defined.

(** The invariants on the sample delivery. *)
Lemma stats_invariants_witness :
  Z.of_nat (length samples.delivery) < uint64_mod /\
  clock_monotone samples.delivery /\
  forall n : nat,
    let s := stats_after samples.CompanyIdents (NewSnifferStats 1)
               (take n samples.delivery) in
    NumAdvertisements s <= NumMatched s /\
    (FirstPacket s <> 0 -> FirstPacket s <= LastPacket s) /\
    (forall m : nat,
       (n <= m)%nat ->
       let s' := stats_after samples.CompanyIdents (NewSnifferStats 1)
                   (take m samples.delivery) in
       (FirstPacket s <> 0 -> FirstPacket s' = FirstPacket s) /\
       (FirstPacket s' <> FirstPacket s -> FirstPacket s = 0)).
Proof.
  split; [reflexivity|]. split; [exact sample_clock_monotone|].
  intros n.
  destruct (stats_invariants samples.CompanyIdents 1 samples.delivery n)
    as (Hcount & Hstamps & Hfirst).
  split; [apply Hcount; reflexivity|].
  split; [apply Hstamps; exact sample_clock_monotone|].
  exact Hfirst.
Defined.

(** The event built from the sample ["btle"] object. *)
Lemma onProprietary_event_witness :
  advertising_address samples.btle = Some "c0:ff:ee:c0:ff:ee" /\
  entry_company_id samples.btle = Some "0x004c" /\
  exists e,
    (onProprietary samples.CompanyIdents 5 samples.btle).2
      = [EventAdd "ble.sniff" e; Refresh] /\
    Protocol e = "BLE ADVERT" /\
    Destination e = "BROADCAST" /\
    Source e = "c0:ff:ee:c0:ff:ee" /\
    Message e = "Proprietary Apple, Inc. Data" /\
    Data e = VString "02:15:aa:bb".
Proof.
  split; [reflexivity|]. split; [reflexivity|].
  destruct (proj1 (proj2 (proj2 (onProprietary_event samples.CompanyIdents 5
                                   samples.btle)))
              "c0:ff:ee:c0:ff:ee" "0x004c" eq_refl eq_refl)
    as (e & He & _ & Hp & Hd & Hs & Hm & _ & Hdata).
  exists e.
  split; [exact He|]. split; [exact Hp|]. split; [exact Hd|].
  split; [exact Hs|]. split.
  - rewrite Hm.
    rewrite (proj2 (proj2 (proj2 (proj2
               (onProprietary_event samples.CompanyIdents 5 samples.btle))))
               "0x004c" 76 eq_refl eq_refl).
    reflexivity.
  - apply Hdata. reflexivity.
Defined.

(** [GetContext] on a module that reads a JSON file, and on modules that
    run tshark on the interface and on a pcap file. *)
Lemma GetContext_decoder_witness :
  (StringParam (SessionModule_ samples.file_module) "ble.sniff.source"
     = (None, "capture.json") /\
   "capture.json" <> "" /\
   (exists rest, (GetContext samples.os_ok samples.file_module).2
                 = FileOpen "capture.json" :: rest) /\
   forall c, ProcStart c ∉ (GetContext samples.os_ok samples.file_module).2) /\
  ProcStart {| cmd_name := "tshark";
               cmd_arg := ["-i"; "nRF Sniffer for Bluetooth LE"; "-T";
                           "json"] |}
    ∈ (GetContext samples.os_ok samples.live_module).2 /\
  ProcStart {| cmd_name := "tshark";
               cmd_arg := ["-T"; "json"; "-r"; "capture.pcap"] |}
    ∈ (GetContext samples.os_ok samples.pcap_module).2.
Proof.
  split; [|split].
  - split; [reflexivity|]. split; [discriminate|].
    destruct (proj1 (proj2 (proj2 (GetContext_decoder samples.os_ok
                                     samples.file_module)))
                "capture.json" eq_refl ltac:(discriminate))
      as (Hopen & Hno & _).
    split; [exact Hopen | exact Hno].
  - apply (proj1 (proj2 (proj2 (proj2 (proj2 (proj2
             (GetContext_decoder samples.os_ok samples.live_module)))
             "tshark" "nRF Sniffer for Bluetooth LE" ""
             eq_refl eq_refl eq_refl eq_refl)))).
    reflexivity.
  - apply (proj1 (proj2 (proj2 (proj2 (proj2 (proj2
             (GetContext_decoder samples.os_ok samples.pcap_module)))
             "tshark" "nRF Sniffer for Bluetooth LE" "capture.pcap"
             eq_refl eq_refl eq_refl eq_refl)))).
    reflexivity.
Defined.

(** [Configure] on a running module, and on a module whose source file
    cannot be opened. *)
Lemma Configure_outcomes_witness :
  Running samples.running_module = true /\
  Configure samples.os_ok samples.running_module
    = (Some (Some (ErrAlreadyStarted "ble.sniff"), samples.running_module),
       []) /\
  Running samples.file_module = false /\
  exists acts',
    Configure samples.os_no_file samples.file_module
    = (Some (Some (ErrOther "no such file or directory"),
             set_Ctx None samples.file_module),
       [FileOpen "capture.json"] ++ acts').
Proof.
  split; [reflexivity|]. split.
  - apply (proj1 (Configure_outcomes samples.os_ok samples.running_module)).
    reflexivity.
  - split; [reflexivity|].
    destruct (proj1 (proj2 (Configure_outcomes samples.os_no_file
                              samples.file_module))
                (ErrOther "no such file or directory")
                (set_Source "capture.json" NewSnifferContext)
                [FileOpen "capture.json"] eq_refl eq_refl)
      as (acts' & _ & _ & _ & Hc & _).
    exists acts'. exact Hc.
Defined.

End Witnesses.

(** * Further properties of [packets] *)

Section PacketsMore.

Import packets.

Variable spare : nat -> nat -> nat.

(** The bytes that a call returns. *)
Lemma MySQLGetFile_bytes_out (infile : string) (h : gmap loc (list Z)) :
  MySQLGetFile_bytes spare infile h
  = Some ((len_string infile + 1) mod 256
            :: 0 :: 0 :: 1 :: 251 :: bytes_of_string infile).
Proof.
  unfold MySQLGetFile_bytes. rewrite MySQLGetFile_unfold.
  rewrite byte_of_int_add.
  destruct (bytes_of_string infile) as [|x xs] eqn:E.
  - unfold slice_read; simpl. rewrite lookup_insert_eq. reflexivity.
  - unfold slice_read; cbv zeta.
    cbn [s_arr s_len s_off]. rewrite lookup_insert_eq.
    rewrite drop_0. do 2 f_equal.
    set (hdr := [_; 0; 0; 1; 251]).
    change (take (length (hdr ++ x :: xs))
              ((hdr ++ x :: xs) ++ replicate
                 (spare 5 (5 + length (x :: xs))) 0) = hdr ++ x :: xs).
    apply take_app_length.
Qed.

Lemma bytes_of_string_is_byte (s : string) :
  Forall is_byte (bytes_of_string s).
Proof.
  unfold bytes_of_string. apply Forall_fmap, Forall_forall.
  intros c _. apply Z_of_ascii_byte.
Qed.

Lemma Z_of_ascii_inj (a b : ascii) : Z_of_ascii a = Z_of_ascii b -> a = b.
Proof.
  unfold Z_of_ascii. intros H. apply N2Z.inj in H.
  rewrite <- (Ascii.ascii_N_embedding a), <- (Ascii.ascii_N_embedding b).
  by rewrite H.
Qed.

Lemma bytes_of_string_inj (s t : string) :
  bytes_of_string s = bytes_of_string t -> s = t.
Proof.
  unfold bytes_of_string. revert t.
  induction s as [|a s IH]; intros [|b t] H; simpl in H;
    try discriminate; [reflexivity|].
  injection H as Hab Hst.
  f_equal; [by apply Z_of_ascii_inj | by apply IH].
Qed.

(** X1. The bytes that [MySQLGetFile] returns are a well-formed MySQL
    packet (the declared length is the length of the payload) exactly when
    the file name has at most 254 bytes: the length is written in one byte
    and the two high bytes of the length field are always zero. When they
    are well formed, the packet has sequence number 1 and its payload is
    0xfb followed by the file name. *)
Theorem MySQLGetFile_packet (infile : string) (h : gmap loc (list Z)) :
  exists bs,
    MySQLGetFile_bytes spare infile h = Some bs /\
    Forall is_byte bs /\
    parse_packet bs
      = Some (Packet ((len_string infile + 1) mod 256) 1
                (0xfb :: bytes_of_string infile)) /\
    (well_formed_packet bs <-> (String.length infile <= 254)%nat).
Proof.
  eexists. split; [apply MySQLGetFile_bytes_out|].
  assert (Hbytes : Forall is_byte
            ((len_string infile + 1) mod 256
               :: 0 :: 0 :: 1 :: 251 :: bytes_of_string infile)).
  { apply Forall_cons. split; [apply Z.mod_pos_bound; lia|].
    repeat (apply Forall_cons; split; [unfold is_byte; lia|]).
    apply bytes_of_string_is_byte. }
  assert (Hparse : parse_packet
            ((len_string infile + 1) mod 256
               :: 0 :: 0 :: 1 :: 251 :: bytes_of_string infile)
          = Some (Packet ((len_string infile + 1) mod 256) 1
                    (251 :: bytes_of_string infile))).
  { unfold parse_packet, le24. simpl. by rewrite Z.lor_0_r. }
  split; [exact Hbytes|]. split; [exact Hparse|].
  unfold well_formed_packet. rewrite Hparse. unfold len_string.
  split.
  - intros (_ & p & [= <-] & Hd). simpl in Hd.
    rewrite length_bytes_of_string in Hd.
    destruct (decide (String.length infile <= 254)%nat) as [|Hbig];
      [done|].
    pose proof (Z.mod_pos_bound (Z.of_nat (String.length infile) + 1) 256
                  ltac:(lia)). lia.
  - intros Hle. split; [exact Hbytes|]. eexists. split; [reflexivity|].
    simpl. rewrite length_bytes_of_string.
    rewrite Z.mod_small by lia. lia.
Qed.

(** X2. Different file names give different packets, whatever the heaps
    the two calls start from: the name can be read back from the bytes. *)
Theorem MySQLGetFile_injective (f1 f2 : string)
    (h1 h2 : gmap loc (list Z)) :
  f1 <> f2 ->
  MySQLGetFile_bytes spare f1 h1 <> MySQLGetFile_bytes spare f2 h2.
Proof.
  intros Hne Heq. rewrite !MySQLGetFile_bytes_out in Heq.
  injection Heq as _ Hb. by apply Hne, bytes_of_string_inj.
Qed.

(** X3. The slice that [MySQLGetFile] returns lives in an array that did
    not exist before the call. A caller may therefore assign to any of its
    elements: the assignment does not panic, it is seen when the slice is
    read again, and no array that existed before the call changes. *)
Theorem MySQLGetFile_result_not_aliased (infile : string)
    (h : gmap loc (list Z)) (i : nat) (b : Z) :
  let r := MySQLGetFile spare infile h in
  let out :=
    (len_string infile + 1) mod 256
      :: 0 :: 0 :: 1 :: 251 :: bytes_of_string infile in
  (s_arr r.1 ∉ dom h) /\
  ((i < s_len r.1)%nat ->
   exists h',
     slice_store r.1 i b r.2 = Some h' /\
     slice_read r.1 h' = Some (<[i := b]> out) /\
     (forall l, l ∈ dom h -> h' !! l = h !! l)) /\
  ((s_len r.1 <= i)%nat -> slice_store r.1 i b r.2 = None).
Proof.
  intros r out.
  pose proof (MySQLGetFile_bytes_out infile h) as Hout.
  unfold MySQLGetFile_bytes in Hout. fold r in Hout.
  pose proof (MySQLGetFile_heap_frame spare infile h) as Hframe.
  fold r in Hframe.
  assert (Hfresh : s_arr r.1 ∉ dom h).
  { subst r. rewrite MySQLGetFile_unfold. cbv zeta.
    destruct (bytes_of_string infile); simpl.
    - apply is_fresh.
    - set (h1 := <[fresh (dom h) := _]> h).
      intros Hin. apply (is_fresh (dom h1)).
      unfold h1 at 2. rewrite dom_insert_L. by apply elem_of_union_r. }
  assert (Hoff : s_off r.1 = 0%nat).
  { subst r. rewrite MySQLGetFile_unfold. cbv zeta.
    by destruct (bytes_of_string infile). }
  destruct r as [s h1] eqn:Er. cbn [fst snd] in *.
  unfold slice_read in Hout.
  destruct (h1 !! s_arr s) as [arr|] eqn:Harr; [|discriminate].
  injection Hout as Hout. rewrite Hoff, drop_0 in Hout.
  split; [exact Hfresh|]. split.
  - intros Hi. unfold slice_store. rewrite Harr.
    destruct (decide (i < s_len s)%nat); [|lia].
    eexists. split; [reflexivity|]. split.
    + unfold slice_read. rewrite lookup_insert_eq, Hoff, drop_0.
      rewrite Nat.add_0_l. subst out. rewrite <- Hout.
      by rewrite take_insert_lt.
    + intros l0 Hl. rewrite lookup_insert_ne; [by apply Hframe|].
      intros <-. by apply Hfresh.
  - intros Hi. unfold slice_store.
    destruct (decide (i < s_len s)%nat); [lia|done].
Qed.

(** Every array allocated before a call is allocated after it. *)
Lemma MySQLGetFile_dom (infile : string) (h : gmap loc (list Z)) (l : loc) :
  l ∈ dom h -> l ∈ dom (MySQLGetFile spare infile h).2.
Proof.
  intros Hl. apply elem_of_dom.
  rewrite (MySQLGetFile_heap_frame spare infile h l Hl).
  by apply elem_of_dom.
Qed.

(** X4. That the three package variables are allocated is an invariant of
    [MySQLGetFile]: after any sequence of calls the variables are the same
    slices, still allocated, and read the same bytes as before the first
    call. *)
Theorem call_sequence_keeps_constants (infiles : list string) (st : state) :
  vars_allocated st ->
  let st' := call_sequence spare infiles st in
  vars_allocated st' /\
  st_vars st' = st_vars st /\
  slice_read (var_MySQLGreeting (st_vars st')) (st_heap st')
    = slice_read (var_MySQLGreeting (st_vars st)) (st_heap st) /\
  slice_read (var_MySQLFirstResponseOK (st_vars st')) (st_heap st')
    = slice_read (var_MySQLFirstResponseOK (st_vars st)) (st_heap st) /\
  slice_read (var_MySQLSecondResponseOK (st_vars st')) (st_heap st')
    = slice_read (var_MySQLSecondResponseOK (st_vars st)) (st_heap st).
Proof.
  revert st. induction infiles as [|infile rest IH]; intros st Halloc.
  - simpl. auto.
  - cbn [call_sequence]. cbv zeta.
    set (st1 := (call_MySQLGetFile spare infile st).2).
    assert (Hv : st_vars st1 = st_vars st).
    { subst st1. unfold call_MySQLGetFile.
      by destruct (MySQLGetFile spare infile (st_heap st)). }
    assert (Hh : st_heap st1 = (MySQLGetFile spare infile (st_heap st)).2).
    { subst st1. unfold call_MySQLGetFile.
      by destruct (MySQLGetFile spare infile (st_heap st)). }
    destruct Halloc as (Hg & Hf & Hs).
    assert (Halloc1 : vars_allocated st1).
    { unfold vars_allocated. rewrite Hv, Hh.
      repeat split; by apply MySQLGetFile_dom. }
    destruct (IH st1 Halloc1) as (Ha & Hvars & Rg & Rf & Rs).
    split; [exact Ha|]. split; [congruence|].
    rewrite Rg, Rf, Rs, Hv. unfold slice_read. rewrite Hh.
    rewrite !(MySQLGetFile_heap_frame spare infile (st_heap st)) by done.
    auto.
Qed.

End PacketsMore.

(** * Further properties of [ble_sniff]: the context *)

(** Case analysis on the innermost scrutinee of the goal. *)
Ltac split_match :=
  match goal with
  | |- context [match ?t with _ => _ end] =>
      lazymatch t with
      | context [match _ with _ => _ end] => fail
      | _ => destruct t eqn:?
      end
  end.

(** Membership in a list that is written out, as a hypothesis and as a
    goal. *)
Ltac in_written H :=
  repeat (apply elem_of_cons in H as [H|H];
          [try discriminate; try (injection H as ?; subst)|]);
  try (by apply elem_of_nil in H).

Ltac split_match_in H :=
  match type of H with
  | context [match ?t with _ => _ end] =>
      lazymatch t with
      | context [match _ with _ => _ end] => fail
      | _ => destruct t eqn:?
      end
  end.

Ltac is_written :=
  repeat first [apply list_elem_of_here | apply list_elem_of_further].

Ltac eqb_facts :=
  repeat match goal with
  | H : String.eqb _ _ = true |- _ => apply String.eqb_eq in H; subst
  | H : String.eqb _ _ = false |- _ => apply String.eqb_neq in H
  end.

Section ContextMore.

Import golib ble_sniff.

(** What [Close] does, case by case. *)
Lemma Close_exact (os : OS) (c : SnifferContext) :
  let file_acts :=
    match OutputFile c with
    | Some f => [LogDebug "closing output"; FileClose f;
                 LogDebug "output closed"]
    | None => []
    end in
  Close os c =
    match TSharkRunning c, TSharkProc c, Process c with
    | true, Some p, true =>
        (Some (set_OutputFile None c),
         [ProcKill p;
          match Kill_err os p with
          | Some _ => LogDebug "killed TSharkProc"
          | None => LogWarning "could not kill TShark Process"
          end] ++ file_acts)
    | true, _, _ => (None, [])
    | false, _, _ => (Some (set_OutputFile None c), file_acts)
    end.
Proof.
  assert (Hid : OutputFile c = None -> set_OutputFile None c = c).
  { destruct c; simpl; by intros ->. }
  unfold Close.
  destruct (TSharkRunning c), (TSharkProc c) as [p|], (Process c);
    try destruct (Kill_err os p);
    destruct (OutputFile c) eqn:Hf; simpl; rewrite ?Hid by done;
    reflexivity.
Qed.

(** X5. [Close] changes nothing of the context but [OutputFile], which it
    leaves nil; in particular [TSharkRunning] stays as it was. So a second
    [Close] kills the process again exactly as the first did, but closes no
    file: the output file is closed at most once. *)
Theorem Close_twice (os : OS) (c c1 : SnifferContext)
    (acts1 : list action) :
  Close os c = (Some c1, acts1) ->
  c1 = set_OutputFile None c /\
  TSharkRunning c1 = TSharkRunning c /\
  exists acts2,
    Close os c1 = (Some c1, acts2) /\
    (forall f, FileClose f ∉ acts2) /\
    (forall p, ProcKill p ∈ acts2 <-> ProcKill p ∈ acts1) /\
    (forall f, FileClose f ∈ acts1 <-> OutputFile c = Some f).
Proof.
  intros H.
  pose proof (Close_exact os c) as E. cbv zeta in E. rewrite H in E.
  pose proof (Close_exact os (set_OutputFile None c)) as E1.
  cbv zeta in E1.
  change (OutputFile (set_OutputFile None c)) with (@None string) in E1.
  change (TSharkRunning (set_OutputFile None c)) with (TSharkRunning c) in E1.
  change (TSharkProc (set_OutputFile None c)) with (TSharkProc c) in E1.
  change (Process (set_OutputFile None c)) with (Process c) in E1.
  change (set_OutputFile None (set_OutputFile None c))
    with (set_OutputFile None c) in E1.
  assert (Hc1 : c1 = set_OutputFile None c).
  { destruct (TSharkRunning c), (TSharkProc c), (Process c); congruence. }
  subst c1. split; [reflexivity|]. split; [reflexivity|].
  destruct (TSharkRunning c) eqn:R, (TSharkProc c) as [p|] eqn:P,
      (Process c) eqn:S;
    try discriminate; injection E as ->;
    simpl in E1; (eexists; split; [exact E1|]);
    try destruct (Kill_err os p);
    destruct (OutputFile c) as [f|] eqn:Hf; simpl;
    (split; [intros f' Hin; by in_written Hin|]);
    (split; [intros p'; split; intros Hin; in_written Hin; is_written|]);
    (intros f'; split;
     [intros Hin; by in_written Hin | intros [= <-] || intros [=]; is_written]).
Qed.

(** X6. [Close] panics exactly when [TSharkRunning] is set on a context
    whose [TSharkProc] is nil or points to a command without a process
    (one that was never started, or whose [Start] failed), and then before
    any action. Otherwise, when the flag is set it kills the process, and
    its log is the reverse of what happened: the warning ["could not kill
    TShark Process"] is logged exactly when [Kill] succeeded and the debug
    line ["killed TSharkProc"] exactly when [Kill] returned an error. With
    the flag unset its only actions are those of closing the output
    file. *)
Theorem Close_kill_log (os : OS) (c : SnifferContext) :
  ((Close os c).1 = None <->
   TSharkRunning c = true /\ (TSharkProc c = None \/ Process c = false)) /\
  ((Close os c).1 = None -> (Close os c).2 = []) /\
  (forall p,
     TSharkRunning c = true -> TSharkProc c = Some p -> Process c = true ->
     ProcKill p ∈ (Close os c).2 /\
     (LogWarning "could not kill TShark Process" ∈ (Close os c).2 <->
      Kill_err os p = None) /\
     (LogDebug "killed TSharkProc" ∈ (Close os c).2 <->
      Kill_err os p <> None)) /\
  (TSharkRunning c = false -> forall a, a ∈ (Close os c).2 ->
     exists f, OutputFile c = Some f /\
               a ∈ [LogDebug "closing output"; FileClose f;
                    LogDebug "output closed"]).
Proof.
  pose proof (Close_exact os c) as E. cbv zeta in E. rewrite E. clear E.
  destruct (TSharkRunning c) eqn:R; [|].
  - destruct (TSharkProc c) as [p|] eqn:P, (Process c) eqn:S; simpl.
    + split; [split; [discriminate | intros [_ [[=]|[=]]]]|].
      split; [discriminate|]. split; [|discriminate].
      intros p' _ [= <-] _.
      destruct (Kill_err os p) eqn:K, (OutputFile c) eqn:Hf; simpl;
        (split; [is_written|]);
        (split; split; intros Hin; try done; try (by in_written Hin);
         try is_written).
    + split; [split; [intros _; split; [done | by right] | by intros _]|].
      split; [done|]. split; [discriminate|discriminate].
    + split; [split; [intros _; split; [done | by left] | by intros _]|].
      split; [done|]. split; [discriminate|discriminate].
    + split; [split; [intros _; split; [done | by left] | by intros _]|].
      split; [done|]. split; [discriminate|discriminate].
  - destruct (TSharkProc c) as [p|], (Process c); simpl;
      (split; [split; [discriminate | intros [[=] _]]|]);
      (split; [discriminate|]); (split; [discriminate|]);
      intros _ a Hin; (destruct (OutputFile c) as [f|]; [eauto|]);
      by apply elem_of_nil in Hin.
Qed.

(** The result of [GetContext] when it succeeds, field by field. *)
Lemma GetContext_success_fields (os : OS) (sn : Sniffer)
    (ctx : SnifferContext) (acts : list action) :
  GetContext os sn = (Some (None, Some ctx), acts) ->
  let param := StringParam (SessionModule_ sn) in
  Source_ ctx = (param "ble.sniff.source").2 /\
  Output ctx = (param "ble.sniff.output").2 /\
  OutputFile ctx
    = (if String.eqb (Output ctx) "" then None else Some (Output ctx)) /\
  TSharkRunning ctx = String.eqb (Source_ ctx) "" /\
  (if String.eqb (Source_ ctx) "" then
     exists p, TSharkProc ctx = Some p /\ Reader ctx = Some (StdoutOf p) /\
               StdoutPipe_err os p = None /\ Start_err os p = None /\
               acts = [ProcStdoutPipe p; ProcStart p]
                        ++ (if String.eqb (Output ctx) "" then []
                            else [FileCreate (Output ctx)])
   else
     TSharkProc ctx = None /\
     Reader ctx = Some (FileReader (Source_ ctx)) /\
     Open_err os (Source_ ctx) = None /\
     acts = [FileOpen (Source_ ctx)]
              ++ (if String.eqb (Output ctx) "" then []
                  else [FileCreate (Output ctx)])) /\
  (Output ctx <> "" -> Create_err os (Output ctx) = None) /\
  DumpLocal ctx = false /\ Verbose ctx = false /\ Filter ctx = "" /\
  Expression ctx = "" /\ Compiled ctx = None.
Proof.
  unfold GetContext. cbv zeta.
  repeat split_match; simpl; intros [= <- <-]; simpl in *;
    repeat match goal with
    | H : String.eqb ?a ?b = _ |- _ => rewrite ?H; revert H
    end; intros;
    repeat split; try reflexivity; try done; eauto 10.
  all: intros Hne; eqb_facts; done.
Qed.

(** X7. A context that [GetContext] returns without error always has a
    [Reader]: the stdout of the tshark process it started when [Source] is
    empty (and then [TSharkRunning] is set), the source file otherwise (and
    then there is no process). [OutputFile] is set exactly when [Output] is
    not empty, and the file was then created. [Verbose], [DumpLocal],
    [Filter], [Expression] and [Compiled] keep the values of
    [NewSnifferContext]: ["ble.sniff.verbose"] is never read. *)
Theorem GetContext_success (os : OS) (sn : Sniffer) (ctx : SnifferContext)
    (acts : list action) :
  GetContext os sn = (Some (None, Some ctx), acts) ->
  (Source_ ctx = "" ->
   TSharkRunning ctx = true /\
   exists p, TSharkProc ctx = Some p /\ Reader ctx = Some (StdoutOf p) /\
             ProcStart p ∈ acts /\ forall f, FileOpen f ∉ acts) /\
  (Source_ ctx <> "" ->
   TSharkRunning ctx = false /\ TSharkProc ctx = None /\
   Reader ctx = Some (FileReader (Source_ ctx)) /\
   FileOpen (Source_ ctx) ∈ acts /\ forall p, ProcStart p ∉ acts) /\
  (Output ctx = "" ->
   OutputFile ctx = None /\ forall f, FileCreate f ∉ acts) /\
  (Output ctx <> "" ->
   OutputFile ctx = Some (Output ctx) /\ FileCreate (Output ctx) ∈ acts) /\
  Verbose ctx = false /\ DumpLocal ctx = false /\ Filter ctx = "" /\
  Expression ctx = "" /\ Compiled ctx = None.
Proof.
  intros H.
  destruct (GetContext_success_fields os sn ctx acts H)
    as (_ & _ & Hof & Hrun & Hmode & _ & Hd & Hv & Hf & He & Hc).
  split; [|split; [|split; [|split]]]; [| | | |auto].
  - intros Hs. rewrite Hs in *. change (String.eqb "" "") with true in *.
    split; [exact Hrun|].
    destruct Hmode as (p & Hp & Hr & _ & _ & ->).
    exists p. repeat split; try done; [is_written|].
    intros f Hin. apply elem_of_app in Hin as [Hin|Hin];
      [by in_written Hin|].
    destruct (String.eqb (Output ctx) ""); by in_written Hin.
  - intros Hs. apply String.eqb_neq in Hs. rewrite Hs in *.
    destruct Hmode as (Hp & Hr & _ & ->).
    repeat split; try done; [is_written|].
    intros p Hin. apply elem_of_app in Hin as [Hin|Hin];
      [by in_written Hin|].
    destruct (String.eqb (Output ctx) ""); by in_written Hin.
  - intros Ho. rewrite Ho in *. change (String.eqb "" "") with true in *.
    split; [exact Hof|]. intros f Hin.
    destruct (String.eqb (Source_ ctx) "").
    + destruct Hmode as (p & _ & _ & _ & _ & ->). by in_written Hin.
    + destruct Hmode as (_ & _ & _ & ->). by in_written Hin.
  - intros Ho. apply String.eqb_neq in Ho. rewrite Ho in *.
    split; [exact Hof|].
    destruct (String.eqb (Source_ ctx) "").
    + destruct Hmode as (p & _ & _ & _ & _ & ->). is_written.
    + destruct Hmode as (_ & _ & _ & ->). is_written.
Qed.

(** X8. When a parameter cannot be read before the reader is set up,
    [GetContext] returns the error without having done anything: that is
    so for ["ble.sniff.source"], and, the source being empty, for
    ["ble.sniff.tshark"], ["ble.sniff.interface"] and ["ble.sniff.pcap"]
    in that order. The context returned with the error has no process and
    no reader. *)
Theorem GetContext_param_error (os : OS) (sn : Sniffer) (e : error) :
  let param := StringParam (SessionModule_ sn) in
  (param "ble.sniff.source").1 = Some e \/
  (param "ble.sniff.source" = (None, "") /\
   ((param "ble.sniff.tshark").1 = Some e \/
    ((param "ble.sniff.tshark").1 = None /\
     ((param "ble.sniff.interface").1 = Some e \/
      ((param "ble.sniff.interface").1 = None /\
       (param "ble.sniff.pcap").1 = Some e))))) ->
  exists ctx,
    GetContext os sn = (Some (Some e, Some ctx), []) /\
    TSharkProc ctx = None /\ TSharkRunning ctx = false /\
    Reader ctx = None /\ OutputFile ctx = None.
Proof.
  cbv zeta. unfold GetContext. cbv zeta.
  destruct (StringParam (SessionModule_ sn) "ble.sniff.source")
    as [[e0|] src]; cbn [fst snd].
  { intros [[= ->]|[[=] _]]. eexists. split; [reflexivity|]. auto. }
  intros [[=]|[[= ->] H]]. cbn [Source_ set_Source].
  change (String.eqb "" "") with true. cbv iota.
  destruct (StringParam (SessionModule_ sn) "ble.sniff.tshark")
    as [[e1|] tshark]; cbn [fst snd] in *.
  { destruct H as [[= ->]|[[=] _]]. eexists. split; [reflexivity|]. auto. }
  destruct H as [[=]|[_ H]].
  destruct (StringParam (SessionModule_ sn) "ble.sniff.interface")
    as [[e2|] iface]; cbn [fst snd] in *.
  { destruct H as [[= ->]|[[=] _]]. eexists. split; [reflexivity|]. auto. }
  destruct H as [[=]|[_ H]].
  destruct (StringParam (SessionModule_ sn) "ble.sniff.pcap")
    as [[e3|] pcap]; cbn [fst snd] in *; [|discriminate].
  injection H as ->. eexists. split; [reflexivity|]. auto.
Qed.

(** The result of [GetContext] when it fails. *)
Lemma GetContext_error_fields (os : OS) (sn : Sniffer) (e : error)
    (ctx : SnifferContext) (acts : list action) :
  GetContext os sn = (Some (Some e, Some ctx), acts) ->
  OutputFile ctx = None /\
  (forall f, FileClose f ∉ acts) /\
  (forall p, ProcKill p ∉ acts) /\
  (if TSharkRunning ctx then
     exists p, TSharkProc ctx = Some p /\ Start_err os p = None /\
               forall q, ProcStart q ∈ acts <-> q = p
   else forall q, ProcStart q ∈ acts -> Start_err os q <> None).
Proof.
  intros H. unfold GetContext in H. cbv zeta in H.
  repeat split_match_in H; simpl in *; try discriminate;
    injection H as <- <- <-; simpl;
    (split; [reflexivity|]);
    (split; [intros f Hin; by in_written Hin|]);
    (split; [intros p Hin; by in_written Hin|]);
    try (intros q Hin; in_written Hin; congruence);
    (eexists; split; [reflexivity|]; split; [assumption|];
     intros q; split; [intros Hin; by in_written Hin | intros ->; is_written]).
Qed.

(** X9. When [Configure] fails on a module that is not running, [Ctx] is
    nil and the error is the one that [GetContext] returned. [Kill] is
    called on the tshark process exactly when that process had been started
    with success; what [Kill] answers does not change the result, so a
    process that survives a failed [Kill] is not reported. No file is
    closed: a source file that [GetContext] opened for reading stays
    open. *)
Theorem Configure_error_cleanup (os : OS) (sn sn' : Sniffer) (e : error)
    (acts : list action) :
  Running sn = false ->
  Configure os sn = (Some (Some e, sn'), acts) ->
  sn' = set_Ctx None sn /\
  (exists ctx, (GetContext os sn).1 = Some (Some e, Some ctx)) /\
  (forall p, ProcKill p ∈ acts <->
             ProcStart p ∈ acts /\ Start_err os p = None) /\
  (forall f, FileClose f ∉ acts).
Proof.
  intros R Hc.
  destruct (GetContext_total os sn) as (err & ctx & acts0 & Hg).
  destruct err as [e0|].
  2:{ unfold Configure in Hc. rewrite R in Hc. unfold andThen in Hc.
      rewrite Hg in Hc. discriminate. }
  destruct (Configure_error os sn e0 ctx acts0 R Hg)
    as (acts' & Hclose & _ & _ & Hc').
  rewrite Hc' in Hc. injection Hc as <- <- <-.
  split; [reflexivity|].
  split; [exists ctx; by rewrite Hg|].
  destruct (GetContext_error_fields os sn e0 ctx acts0 Hg)
    as (Hof & Hnoclose & Hnokill & Hrun).
  destruct (GetContext_context os sn _ ctx acts0 Hg) as (Hstarted & _).
  pose proof (Close_exact os ctx) as E. cbv zeta in E.
  rewrite Hclose, Hof in E.
  destruct (TSharkRunning ctx) eqn:Rn.
  - destruct Hrun as (p & Hp & Hstart & Hq).
    destruct (Hstarted eq_refl) as (Hproc & _). rewrite Hp, Hproc in E.
    injection E as ->. split.
    + intros q. rewrite !elem_of_app. split.
      * intros [Hin|Hin]; [by apply Hnokill in Hin|].
        destruct (Kill_err os p); in_written Hin;
          (split; [left; by apply Hq | done]).
      * intros [[Hin|Hin] Hs].
        -- apply Hq in Hin as ->. right. is_written.
        -- destruct (Kill_err os p); by in_written Hin.
    + intros f. rewrite elem_of_app. intros [Hin|Hin];
        [by apply Hnoclose in Hin|].
      destruct (Kill_err os p); by in_written Hin.
  - assert (E' : acts' = []).
    { destruct (TSharkProc ctx), (Process ctx); by injection E as ->. }
    subst acts'. clear E. rewrite app_nil_r. split.
    + intros q. split.
      * intros Hin. by apply Hnokill in Hin.
      * intros [Hin Hs]. by apply Hrun in Hin.
    + exact Hnoclose.
Qed.

(** X10. After a [Configure] that succeeded, the function that [Stop] runs
    does not panic: it kills exactly the process that [Configure] started,
    closes exactly the output file that [Configure] created and leaves
    [OutputFile] nil. The source file opened for reading is not closed. *)
Theorem stop_after_Configure (os : OS) (sn sn1 : Sniffer)
    (acts1 : list action) :
  Configure os sn = (Some (None, sn1), acts1) ->
  exists c1 acts2,
    Ctx sn1 = Some c1 /\
    stop_callback os sn1
      = (Some (set_Ctx (Some (set_OutputFile None c1)) sn1), acts2) /\
    (forall p, ProcKill p ∈ acts2 <-> ProcStart p ∈ acts1) /\
    (forall f, FileClose f ∈ acts2 <-> FileCreate f ∈ acts1).
Proof.
  intros Hc.
  destruct (Configure_nil os sn sn1 acts1 Hc) as (R & ctx & Hg & ->).
  destruct (GetContext_success_fields os sn ctx acts1 Hg)
    as (_ & _ & Hof & Hrun & Hmode & _).
  destruct (GetContext_context os sn _ ctx acts1 Hg) as (Hstarted & _).
  exists ctx. unfold stop_callback. cbn [Ctx set_Ctx].
  pose proof (Close_exact os ctx) as E. cbv zeta in E.
  rewrite Hrun, Hof in E. unfold andThen. rewrite E.
  destruct (String.eqb (Source_ ctx) "") eqn:Hs.
  - destruct Hmode as (p & Hp & _ & _ & _ & ->).
    destruct (Hstarted Hrun) as (Hproc & _). rewrite Hp, Hproc.
    destruct (Kill_err os p), (String.eqb (Output ctx) "") eqn:Ho; simpl;
      (eexists; split; [reflexivity|]; split; [reflexivity|]);
      (split; intros q; split; intros Hin; in_written Hin; is_written).
  - destruct Hmode as (Hp & _ & _ & ->).
    destruct (TSharkProc ctx), (Process ctx),
        (String.eqb (Output ctx) "") eqn:Ho; simpl;
      (eexists; split; [reflexivity|]; split; [reflexivity|]);
      (split; intros q; split; intros Hin; in_written Hin; is_written).
Qed.

End ContextMore.

(** * Further properties of [ble_sniff]: the packet loop *)

Section LoopMore.

Import golib ble_sniff.

Variable CompanyIdents : gmap Z string.

(** The body, by the shape of the value. *)
Lemma pkt_body_classify (stats : SnifferStats) (x : recv) :
  r_running x = true ->
  let s := stamp (r_now x) stats in
  pkt_body CompanyIdents stats x =
    match classify (r_value x) with
    | NotPacket => (Some (Continue, s), [])
    | NoAddress => (Some (Return, s), [])
    | Addressed btle a =>
        if String.eqb a "0x8e89bed6" then
          (Some (Continue,
                 set_NumMatched (uint64_add (NumMatched s) 1)
                   (set_NumAdvertisements
                      (uint64_add (NumAdvertisements s) 1) s)),
           (onAdvertisement CompanyIdents (r_event_now x) btle).2)
        else
          (Some (Continue, set_NumMatched (uint64_add (NumMatched s) 1) s),
           [])
    end.
Proof.
  intros R s. rewrite (pkt_body_running CompanyIdents _ _ R). cbv zeta.
  fold s. unfold classify.
  destruct (r_value x) as [| | | | | |pm]; try reflexivity.
  cbn [as_map].
  destruct (pm !! "btle") as [[| | | | | |btle]|]; try reflexivity.
  cbn [as_map].
  destruct (btle !! "btle.access_address") as [[| | | |a| |]|];
    reflexivity.
Qed.

(** The vocabulary of shapes agrees with [is_advertisement]. *)
Lemma advertises_is_advertisement (x : recv) :
  advertises x = true <-> exists btle, is_advertisement (r_value x) btle.
Proof.
  unfold advertises, classify, is_advertisement. split.
  - destruct (r_value x) as [| | | | | |pm]; try discriminate.
    destruct (pm !! "btle") as [[| | | | | |btle]|] eqn:Hb;
      try discriminate.
    destruct (btle !! "btle.access_address") as [[| | | |a| |]|] eqn:Ha;
      try discriminate.
    intros ->%String.eqb_eq. eauto.
  - intros (btle & pm & -> & -> & ->). reflexivity.
Qed.

(** What [onAdvertisement] does is to push at most one event. *)
Lemma onAdvertisement_pushes (now : Z) (btle : gmap string value) :
  exists events,
    (onAdvertisement CompanyIdents now btle).2 = pushes events /\
    (length events <= 1)%nat /\
    Forall (fun e => Protocol e = "BLE ADVERT" /\
                     Destination e = "BROADCAST" /\
                     PacketTime e = now) events.
Proof.
  unfold onAdvertisement.
  pose proof (onProprietary_cases CompanyIdents now btle) as H.
  destruct (advertising_address btle), (eir_ad_entry btle),
    (entry_company_id btle); rewrite H;
    try (exists []; repeat split; [simpl; lia | constructor]).
  eexists [_]. split; [reflexivity|]. split; [simpl; lia|].
  repeat constructor.
Qed.

Lemma pushes_app (a b : list SnifferEvent) :
  pushes (a ++ b) = pushes a ++ pushes b.
Proof. unfold pushes. apply bind_app. Qed.

Lemma events_of_app (a b : list action) :
  events_of (a ++ b) = events_of a ++ events_of b.
Proof. unfold events_of. apply omap_app. Qed.

Lemma events_of_pushes (events : list SnifferEvent) :
  events_of (pushes events) = events.
Proof.
  induction events as [|e events IH]; [reflexivity|].
  change (pushes (e :: events))
    with ([EventAdd "ble.sniff" e; Refresh] ++ pushes events).
  rewrite events_of_app, IH. reflexivity.
Qed.

(** One iteration: the actions, and the three fields it never writes. *)
Lemma pkt_body_shape (s s1 : SnifferStats) (x : recv) (c : control)
    (acts : list action) :
  pkt_body CompanyIdents s x = (Some (c, s1), acts) ->
  (exists events,
     acts = pushes events
              ++ (if r_running x then [] else [ModDebug "end pkt loop"]) /\
     (length events <= if advertises x then 1 else 0)%nat /\
     Forall (fun e => Protocol e = "BLE ADVERT" /\
                      Destination e = "BROADCAST" /\
                      PacketTime e = r_event_now x) events) /\
  (c = Break <-> r_running x = false) /\
  (c = Return <-> r_running x = true /\ lacks_address x = true) /\
  NumDumped s1 = NumDumped s /\ NumWrote s1 = NumWrote s /\
  Started_ s1 = Started_ s /\
  NumMatched s1
    = (if r_running x && addressed x then uint64_add (NumMatched s) 1
       else NumMatched s) /\
  NumAdvertisements s1
    = (if r_running x && advertises x
       then uint64_add (NumAdvertisements s) 1
       else NumAdvertisements s).
Proof.
  intros Hb.
  assert (Hst : forall now,
    NumDumped (stamp now s) = NumDumped s /\
    NumWrote (stamp now s) = NumWrote s /\
    Started_ (stamp now s) = Started_ s).
  { intros now. unfold stamp. by destruct (IsZero (FirstPacket s)). }
  destruct (r_running x) eqn:R.
  - rewrite (pkt_body_classify _ _ R) in Hb. cbv zeta in Hb.
    destruct (Hst (r_now x)) as (Hd & Hw & Hs).
    pose proof (NumMatched_stamp (r_now x) s) as Hm.
    pose proof (NumAdvertisements_stamp (r_now x) s) as Ha.
    unfold advertises, addressed, lacks_address.
    remember (stamp (r_now x) s) as s0 eqn:Es0. clear Es0.
    destruct (classify (r_value x)) as [| |btle a].
    + injection Hb as <- <- <-.
      split; [exists []; repeat split; [simpl; lia | constructor]|].
      repeat split; try done; try (by intros [_ [=]]).
    + injection Hb as <- <- <-.
      split; [exists []; repeat split; [simpl; lia | constructor]|].
      repeat split; try done.
    + destruct (String.eqb a "0x8e89bed6").
      * injection Hb as <- <- <-.
        destruct (onAdvertisement_pushes (r_event_now x) btle)
          as (events & -> & Hlen & Hall).
        split; [exists events; by rewrite app_nil_r|].
        cbn [andb]. unfold set_NumMatched, set_NumAdvertisements.
        cbn [NumDumped NumWrote Started_ NumMatched NumAdvertisements].
        rewrite Hm, Ha.
        repeat split; try done; try (by intros [_ [=]]).
      * injection Hb as <- <- <-.
        split; [exists []; repeat split; [simpl; lia | constructor]|].
        cbn [andb]. unfold set_NumMatched.
        cbn [NumDumped NumWrote Started_ NumMatched NumAdvertisements].
        rewrite Hm.
        repeat split; try done; try (by intros [_ [=]]).
  - rewrite (pkt_body_not_running _ _ _ R) in Hb.
    injection Hb as <- <- <-.
    split; [exists []; repeat split; [simpl; lia | constructor]|].
    repeat split; try done; by intros [[=] _].
Qed.

(** The loop never writes [NumDumped], [NumWrote] or [Started]. *)
Lemma pkt_loop_untouched (ch : list recv) :
  forall (s s' : SnifferStats) (e : loop_exit) (acts : list action),
    pkt_loop CompanyIdents s ch = (Some (e, s'), acts) ->
    NumDumped s' = NumDumped s /\ NumWrote s' = NumWrote s /\
    Started_ s' = Started_ s.
Proof.
  induction ch as [|x ch IH]; intros s s' e acts Hl.
  - by injection Hl as <- <- <-.
  - cbn [pkt_loop] in Hl. unfold andThen in Hl.
    destruct (pkt_body CompanyIdents s x) as [[[c s1]|] acts0] eqn:Hb;
      [|discriminate].
    destruct (pkt_body_shape _ _ _ _ _ Hb)
      as (_ & _ & _ & Hd & Hw & Hs & _).
    destruct c.
    + destruct (pkt_loop CompanyIdents s1 ch) as [[[e2 s2]|] acts2] eqn:Hl2;
        [|discriminate].
      injection Hl as <- <- <-.
      destruct (IH _ _ _ _ Hl2) as (? & ? & ?). repeat split; congruence.
    + by injection Hl as <- <- <-.
    + by injection Hl as <- <- <-.
Qed.

(** X11. The packet loop never writes [NumDumped], [NumWrote] or
    [Started]: whatever the channel delivers, the statistics that a run of
    [Start] leaves have [NumDumped = 0] and [NumWrote = 0], and [Print]
    always returns nil, reports the instant of the start in its first line
    and 0 dumped packets in its last. *)
Theorem worker_never_dumps (time_String : Z -> string) (started : Z)
    (ch : list recv) :
  let s := stats_after CompanyIdents (NewSnifferStats started) ch in
  NumDumped s = 0 /\ NumWrote s = 0 /\ Started_ s = started /\
  (Print time_String s).1 = None /\
  length (Print time_String s).2 = 6%nat /\
  head (Print time_String s).2
    = Some {| info_format := "Sniffer Started    : %s";
              info_args := [ArgTime started] |} /\
  last (Print time_String s).2
    = Some {| info_format := "Dumped Packets     : %d";
              info_args := [ArgUint64 0] |}.
Proof.
  intros s.
  destruct (stats_after_eq CompanyIdents (NewSnifferStats started) ch)
    as (e & acts & Hl). fold s in Hl.
  destruct (pkt_loop_untouched _ _ _ _ _ Hl) as (Hd & Hw & Hs).
  simpl in Hd, Hw, Hs.
  repeat split; try done; unfold Print; simpl; by rewrite ?Hd, ?Hs.
Qed.

(** The actions of the loop and the advertisements it counted. *)
Lemma pkt_loop_shape (ch : list recv) :
  forall (s s' : SnifferStats) (e : loop_exit) (acts : list action),
    pkt_loop CompanyIdents s ch = (Some (e, s'), acts) ->
    exists events,
      acts = pushes events
               ++ (if e is Broken then [ModDebug "end pkt loop"] else []) /\
      Forall (fun ev => Protocol ev = "BLE ADVERT" /\
                        Destination ev = "BROADCAST") events /\
      (length events <= length (List.filter advertises ch))%nat /\
      (0 <= NumAdvertisements s ->
       NumAdvertisements s + Z.of_nat (length ch) < uint64_mod ->
       NumAdvertisements s + Z.of_nat (length events)
       <= NumAdvertisements s').
Proof.
  induction ch as [|x ch IH]; intros s s' e acts Hl.
  - injection Hl as <- <- <-. exists []. simpl.
    repeat split; [constructor | lia | lia].
  - cbn [pkt_loop] in Hl. unfold andThen in Hl.
    destruct (pkt_body CompanyIdents s x) as [[[c s1]|] acts0] eqn:Hb;
      [|discriminate].
    destruct (pkt_body_shape _ _ _ _ _ Hb)
      as ((ev0 & -> & Hlen0 & Hall0) & Hbrk & Hret & _ & _ & _ & _ & Hadv).
    assert (Hall0' : Forall (fun ev => Protocol ev = "BLE ADVERT" /\
                                        Destination ev = "BROADCAST") ev0).
    { eapply Forall_impl; [exact Hall0|]. by intros ev (? & ? & _). }
    assert (Hcount : (length ev0
                      <= length (List.filter advertises (x :: ch)))%nat).
    { cbn [List.filter]. destruct (advertises x); simpl in *; lia. }
    assert (Hnum : 0 <= NumAdvertisements s ->
                   NumAdvertisements s + Z.of_nat (length (x :: ch))
                     < uint64_mod ->
                   NumAdvertisements s + Z.of_nat (length ev0)
                     <= NumAdvertisements s1 /\
                   0 <= NumAdvertisements s1 /\
                   NumAdvertisements s1 + Z.of_nat (length ch) < uint64_mod).
    { intros H0 Hmax. cbn [length] in Hmax. rewrite Hadv.
      destruct (r_running x && advertises x) eqn:Hra.
      - rewrite uint64_add_1_small by lia.
        destruct (advertises x); simpl in *; lia.
      - destruct (advertises x) eqn:Ha; simpl in Hlen0.
        + destruct (r_running x) eqn:R; [discriminate|].
          destruct (proj2 Hbrk eq_refl).
          rewrite (pkt_body_not_running _ _ _ R) in Hb.
          injection Hb as _ _ Hacts. destruct ev0; [simpl; lia|].
          discriminate.
        + assert (length ev0 = 0%nat) as -> by lia. simpl. lia. }
    destruct c.
    + assert (R : r_running x = true).
      { destruct (r_running x); [done|].
        pose proof (proj2 Hbrk eq_refl). discriminate. }
      rewrite R in *. rewrite app_nil_r in *.
      destruct (pkt_loop CompanyIdents s1 ch) as [[[e2 s2]|] acts2] eqn:Hl2;
        [|discriminate].
      injection Hl as <- <- <-.
      destruct (IH _ _ _ _ Hl2) as (ev & -> & Hall & Hlen & Hn).
      exists (ev0 ++ ev). rewrite pushes_app, app_assoc.
      split; [reflexivity|]. split; [by apply Forall_app|].
      split.
      * rewrite length_app. cbn [List.filter].
        destruct (advertises x); simpl in *; lia.
      * intros H0 Hmax. destruct (Hnum H0 Hmax) as (H1 & H2 & H3).
        specialize (Hn H2 H3). rewrite length_app. lia.
    + assert (R : r_running x = false) by by apply Hbrk.
      rewrite R in *. injection Hl as <- <- <-. rewrite app_nil_r.
      exists ev0. split; [reflexivity|]. split; [done|]. split; [done|].
      intros H0 Hmax. by destruct (Hnum H0 Hmax).
    + assert (R : r_running x = true) by by apply Hret.
      rewrite R in *. injection Hl as <- <- <-. rewrite app_nil_r.
      exists ev0. split; [reflexivity|]. split; [done|]. split; [done|].
      intros H0 Hmax. by destruct (Hnum H0 Hmax).
Qed.

(** X12. All that the packet loop does to the outside is to push events:
    its actions are, for each event, [Events.Add] under the tag
    ["ble.sniff"] followed by [Refresh], and at the very end the debug
    line, present exactly when the loop was left because [Running()]
    answered false. Every event has protocol ["BLE ADVERT"] and destination
    ["BROADCAST"]. There are never more events than advertisements among
    the delivered values, nor, from the statistics of [Start] and for
    fewer than 2^64 values, more than [NumAdvertisements]. *)
Theorem pkt_loop_only_pushes (started : Z) (ch : list recv)
    (e : loop_exit) (s' : SnifferStats) (acts : list action) :
  pkt_loop CompanyIdents (NewSnifferStats started) ch
    = (Some (e, s'), acts) ->
  acts = pushes (events_of acts)
           ++ (if e is Broken then [ModDebug "end pkt loop"] else []) /\
  Forall (fun ev => Protocol ev = "BLE ADVERT" /\
                    Destination ev = "BROADCAST") (events_of acts) /\
  (length (events_of acts) <= length (List.filter advertises ch))%nat /\
  (Z.of_nat (length ch) < uint64_mod ->
   Z.of_nat (length (events_of acts)) <= NumAdvertisements s').
Proof.
  intros Hl.
  destruct (pkt_loop_shape ch _ _ _ _ Hl) as (events & -> & Hall & Hlen & Hn).
  assert (Hev : events_of
                  (pushes events
                     ++ (if e is Broken then [ModDebug "end pkt loop"]
                         else [])) = events).
  { rewrite events_of_app, events_of_pushes.
    destruct e; simpl; by rewrite app_nil_r. }
  rewrite Hev. repeat split; try done.
  intros Hmax. simpl in Hn. apply Hn; lia.
Qed.

Lemma uint64_add_mod (a : Z) : uint64_add (a mod uint64_mod) 1 = (a + 1) mod uint64_mod.
Proof. unfold uint64_add. by rewrite Zplus_mod_idemp_l. Qed.

(** How the loop ends and what it has counted when it drains the channel. *)
Lemma pkt_loop_exit_counts (ch : list recv) :
  forall (s s' : SnifferStats) (e : loop_exit) (acts : list action)
         (m a : Z),
    pkt_loop CompanyIdents s ch = (Some (e, s'), acts) ->
    NumMatched s = m mod uint64_mod ->
    NumAdvertisements s = a mod uint64_mod ->
    (e = ChanClosed <->
     Forall (fun x => r_running x = true /\ lacks_address x = false) ch) /\
    (e = ChanClosed ->
     NumMatched s'
       = (m + Z.of_nat (length (List.filter addressed ch))) mod uint64_mod /\
     NumAdvertisements s'
       = (a + Z.of_nat (length (List.filter advertises ch)))
           mod uint64_mod).
Proof.
  induction ch as [|x ch IH]; intros s s' e acts m a Hl Hm Ha.
  - injection Hl as <- <- <-. simpl. rewrite !Z.add_0_r.
    split; [split; [constructor | done] | done].
  - cbn [pkt_loop] in Hl. unfold andThen in Hl.
    destruct (pkt_body CompanyIdents s x) as [[[c s1]|] acts0] eqn:Hb;
      [|discriminate].
    destruct (pkt_body_shape _ _ _ _ _ Hb)
      as (_ & Hbrk & Hret & _ & _ & _ & Hm1 & Ha1).
    destruct c.
    + assert (R : r_running x = true).
      { destruct (r_running x); [done|].
        pose proof (proj2 Hbrk eq_refl). discriminate. }
      assert (L : lacks_address x = false).
      { destruct (lacks_address x); [|done].
        pose proof (proj2 Hret (conj R eq_refl)). discriminate. }
      rewrite R in Hm1, Ha1. cbn [andb] in Hm1, Ha1.
      destruct (pkt_loop CompanyIdents s1 ch) as [[[e2 s2]|] acts2] eqn:Hl2;
        [|discriminate].
      injection Hl as <- <- <-.
      assert (Hm' : NumMatched s1
                    = (m + (if addressed x then 1 else 0)) mod uint64_mod).
      { rewrite Hm1, Hm. destruct (addressed x).
        - apply uint64_add_mod.
        - by rewrite Z.add_0_r. }
      assert (Ha' : NumAdvertisements s1
                    = (a + (if advertises x then 1 else 0)) mod uint64_mod).
      { rewrite Ha1, Ha. destruct (advertises x).
        - apply uint64_add_mod.
        - by rewrite Z.add_0_r. }
      destruct (IH _ _ _ _ _ _ Hl2 Hm' Ha') as (Hiff & Hcnt).
      split.
      * rewrite Hiff. rewrite Forall_cons. tauto.
      * intros He. destruct (Hcnt He) as (-> & ->).
        cbn [List.filter].
        destruct (addressed x), (advertises x); cbn [length];
          split; f_equal; lia.
    + injection Hl as <- <- <-.
      split; [split; [discriminate|] | discriminate].
      intros [Hx _]%Forall_cons. rewrite (proj1 Hbrk eq_refl) in Hx.
      destruct Hx; discriminate.
    + injection Hl as <- <- <-.
      split; [split; [discriminate|] | discriminate].
      intros [Hx _]%Forall_cons.
      destruct (proj1 Hret eq_refl) as (_ & L). destruct Hx; congruence.
Qed.

(** X13. From the statistics of [Start], the loop ends because the channel
    was closed if and only if every delivered value was received while
    [Running()] answered true and none has a ["btle"] object without a
    string ["btle.access_address"]. When it does, [NumMatched] is the
    number of values with a string access address and [NumAdvertisements]
    the number of those whose address is ["0x8e89bed6"], both modulo
    2^64. *)
Theorem pkt_loop_drains (started : Z) (ch : list recv) (e : loop_exit)
    (s' : SnifferStats) (acts : list action) :
  pkt_loop CompanyIdents (NewSnifferStats started) ch
    = (Some (e, s'), acts) ->
  (e = ChanClosed <->
   Forall (fun x => r_running x = true /\ lacks_address x = false) ch) /\
  (e = ChanClosed ->
   NumMatched s'
     = Z.of_nat (length (List.filter addressed ch)) mod uint64_mod /\
   NumAdvertisements s'
     = Z.of_nat (length (List.filter advertises ch)) mod uint64_mod).
Proof.
  intros Hl.
  apply (pkt_loop_exit_counts ch _ _ _ _ 0 0 Hl); reflexivity.
Qed.

(** [LastPacket] after the loop drained a channel that delivered something. *)
Lemma pkt_loop_LastPacket (ch : list recv) :
  forall (s s' : SnifferStats) (acts : list action) (x : recv),
    pkt_loop CompanyIdents s (ch ++ [x]) = (Some (ChanClosed, s'), acts) ->
    LastPacket s' = r_now x.
Proof.
  intros s s' acts x Hl. rewrite pkt_loop_app in Hl.
  destruct (pkt_loop CompanyIdents s ch) as [[[e1 s1]|] acts1];
    [|discriminate].
  destruct e1; try discriminate.
  cbn [pkt_loop] in Hl. unfold andThen in Hl.
  destruct (pkt_body CompanyIdents s1 x) as [[[c s2]|] acts2] eqn:Hb;
    [|discriminate].
  destruct (pkt_body_stamps _ _ _ _ _ _ Hb) as (_ & Hon).
  destruct (pkt_body_shape _ _ _ _ _ Hb) as (_ & Hbrk & _).
  destruct c; simpl in Hl; try discriminate.
  injection Hl as <- _.
  destruct (r_running x); [by destruct (Hon eq_refl)|].
  pose proof (proj2 Hbrk eq_refl). discriminate.
Qed.

(** X14. The two stamps follow the values received, whatever their shape:
    when the first delivered value is received while running at an instant
    that is not the zero time, [FirstPacket] is that instant from then on,
    whatever follows; and when the loop drains the channel, [LastPacket] is
    the instant at which the last value was received, even if no value was
    a packet. *)
Theorem pkt_loop_stamps_exact (started : Z) (x0 : recv) (ch : list recv) :
  let s := stats_after CompanyIdents (NewSnifferStats started) (x0 :: ch) in
  (r_running x0 = true -> r_now x0 <> 0 -> FirstPacket s = r_now x0) /\
  (Forall (fun x => r_running x = true /\ lacks_address x = false)
     (x0 :: ch) ->
   LastPacket s = r_now (List.last ch x0)).
Proof.
  intros s.
  destruct (stats_after_eq CompanyIdents (NewSnifferStats started) (x0 :: ch))
    as (e & acts & Hl). fold s in Hl.
  split.
  - intros R Hnz. cbn [pkt_loop] in Hl. unfold andThen in Hl.
    destruct (pkt_body CompanyIdents (NewSnifferStats started) x0)
      as [[[c s1]|] acts0] eqn:Hb; [|discriminate].
    destruct (pkt_body_stamps _ _ _ _ _ _ Hb) as (_ & Hon).
    destruct (Hon R) as (_ & HF). simpl in HF.
    destruct c.
    + destruct (pkt_loop CompanyIdents s1 ch) as [[[e2 s2]|] acts2] eqn:Hl2;
        [|discriminate].
      injection Hl as _ <- _.
      rewrite <- HF.
      eapply pkt_loop_FirstPacket_stable; [exact Hl2 | congruence].
    + injection Hl as _ <- _. exact HF.
    + injection Hl as _ <- _. exact HF.
  - intros Hall.
    destruct (pkt_loop_exit_counts (x0 :: ch) _ _ _ _ 0 0 Hl eq_refl eq_refl)
      as (Hiff & _).
    apply Hiff in Hall. subst e.
    destruct (exists_last (l := x0 :: ch) ltac:(discriminate))
      as (pre & y & Heq).
    rewrite Heq in Hl.
    rewrite (pkt_loop_LastPacket _ _ _ _ _ Hl).
    f_equal.
    assert (Hlast : List.last (x0 :: ch) x0 = y).
    { rewrite Heq. apply last_last. }
    rewrite <- Hlast. destruct ch; reflexivity.
Qed.

(** While the clock never reads the zero time, a [LastPacket] that is set
    stays set. *)
Lemma pkt_loop_LastPacket_set (ch : list recv) :
  forall (s s' : SnifferStats) (e : loop_exit) (acts : list action),
    pkt_loop CompanyIdents s ch = (Some (e, s'), acts) ->
    Forall (fun x => r_now x <> 0) ch ->
    LastPacket s <> 0 -> LastPacket s' <> 0.
Proof.
  induction ch as [|x ch IH]; intros s s' e acts Hl Hnz Hs.
  - by injection Hl as <- <- <-.
  - cbn [pkt_loop] in Hl. unfold andThen in Hl.
    destruct (pkt_body CompanyIdents s x) as [[[c s1]|] acts0] eqn:Hb;
      [|discriminate].
    apply Forall_cons in Hnz as (Hx & Hnz).
    assert (H1 : LastPacket s1 <> 0).
    { destruct (pkt_body_stamps _ _ _ _ _ _ Hb) as (Hoff & Hon).
      destruct (r_running x).
      - destruct (Hon eq_refl) as (-> & _). exact Hx.
      - by rewrite Hoff. }
    destruct c.
    + destruct (pkt_loop CompanyIdents s1 ch) as [[[e2 s2]|] acts2] eqn:Hl2;
        [|discriminate].
      injection Hl as <- <- <-. eapply IH; eauto.
    + by injection Hl as <- <- <-.
    + by injection Hl as <- <- <-.
Qed.

(** X15. After a run of [Start] under a clock that never reads the zero
    time, the two stamps are set together: both are the zero time when the
    loop received nothing while running (the channel was empty, or
    [Running()] answered false at the first value), and then [Print] shows
    ["never"] for both; otherwise neither is, and [Print] shows the two
    instants. *)
Theorem Print_after_run (time_String : Z -> string) (started : Z)
    (ch : list recv) :
  Forall (fun x => r_now x <> 0) ch ->
  let s := stats_after CompanyIdents (NewSnifferStats started) ch in
  let received := match ch with x :: _ => r_running x | [] => false end in
  (FirstPacket s = 0 <-> received = false) /\
  (LastPacket s = 0 <-> received = false) /\
  (Print time_String s).2 !! 1%nat
    = Some {| info_format := "First Packet Seen  : %s";
              info_args :=
                [ArgString (if received then time_String (FirstPacket s)
                            else "never")] |} /\
  (Print time_String s).2 !! 2%nat
    = Some {| info_format := "Last Packet Seen   : %s";
              info_args :=
                [ArgString (if received then time_String (LastPacket s)
                            else "never")] |}.
Proof.
  intros Hnz s received.
  destruct (stats_after_eq CompanyIdents (NewSnifferStats started) ch)
    as (e & acts & Hl). fold s in Hl. clearbody s.
  assert (Hcases : (received = false /\ FirstPacket s = 0 /\ LastPacket s = 0)
                   \/ (received = true /\ FirstPacket s <> 0 /\
                       LastPacket s <> 0)).
  { destruct ch as [|x ch].
    - left. injection Hl as _ <- _. auto.
    - apply Forall_cons in Hnz as (Hx & Hnz).
      cbn [pkt_loop] in Hl. unfold andThen in Hl.
      destruct (pkt_body CompanyIdents (NewSnifferStats started) x)
        as [[[c s1]|] acts0] eqn:Hb; [|discriminate].
      destruct (pkt_body_stamps _ _ _ _ _ _ Hb) as (Hoff & Hon).
      destruct (pkt_body_shape _ _ _ _ _ Hb) as (_ & Hbrk & _).
      subst received. destruct (r_running x) eqn:R.
      + right. split; [reflexivity|].
        destruct (Hon eq_refl) as (HL & HF). simpl in HF.
        destruct c.
        * destruct (pkt_loop CompanyIdents s1 ch)
            as [[[e2 s2]|] acts2] eqn:Hl2; [|discriminate].
          injection Hl as _ <- _. split.
          -- rewrite (pkt_loop_FirstPacket_stable _ _ _ _ _ _ Hl2);
               congruence.
          -- eapply pkt_loop_LastPacket_set; [exact Hl2 | exact Hnz |].
             congruence.
        * injection Hl as _ <- _. split; congruence.
        * injection Hl as _ <- _. split; congruence.
      + left. split; [reflexivity|].
        rewrite (proj2 Hbrk eq_refl) in Hl. injection Hl as _ <- _.
        rewrite (Hoff eq_refl). auto. }
  unfold Print. cbn [snd]. unfold IsZero.
  destruct Hcases as [(-> & HF & HL)|(-> & HF & HL)].
  - rewrite HF, HL. simpl. repeat split; try done.
  - repeat split; try done; try congruence.
    + simpl. by destruct (Z.eqb_spec (FirstPacket s) 0).
    + simpl. by destruct (Z.eqb_spec (LastPacket s) 0).
Qed.

(** Neither [GetContext] nor [Close] pushes an event. *)
Lemma GetContext_no_event (os : OS) (sn : Sniffer) :
  events_of (GetContext os sn).2 = [].
Proof.
  unfold GetContext. cbv zeta. repeat split_match; reflexivity.
Qed.

Lemma Close_no_event (os : OS) (c : SnifferContext) :
  events_of (Close os c).2 = [].
Proof.
  rewrite Close_exact. cbv zeta.
  destruct (TSharkRunning c), (TSharkProc c) as [p|], (Process c);
    try destruct (Kill_err os p); destruct (OutputFile c); reflexivity.
Qed.

(** X16. [Start] never panics and returns without waiting for the worker:
    when it returns it has done what [Configure] did and nothing more, so
    no event has been pushed and [Stats] and [pktSourceChan] are as they
    were. When it returns nil, the module was not running and now is, [Ctx]
    has a reader and the worker has been started as a goroutine; run on the
    module as [Start] left it, that worker does not panic, its actions are
    those of the packet loop, it keeps the flag and [Ctx], and it leaves in
    [Stats] what the loop computed from [NewSnifferStats]. When [Start]
    returns an error, no goroutine was started and the running flag is as
    before; on a module that was running the error is [ErrAlreadyStarted]
    and nothing at all was done, otherwise [Ctx] is nil. *)
Theorem Start_outcomes (os : OS) (started : Z) (ch : list recv)
    (sn : Sniffer) :
  exists err sn' g acts,
    Start CompanyIdents os started ch sn = (Some (err, sn', g), acts) /\
    acts = (Configure os sn).2 /\
    events_of acts = [] /\
    Stats sn' = Stats sn /\
    pktSourceChan sn' = pktSourceChan sn /\
    (err = None ->
     Running sn = false /\ Running sn' = true /\
     (exists ctx r, Ctx sn' = Some ctx /\ Reader ctx = Some r) /\
     g = Some (worker CompanyIdents started ch) /\
     exists sn2 acts2,
       worker CompanyIdents started ch sn' = (Some sn2, acts2) /\
       acts2 = (pkt_loop CompanyIdents (NewSnifferStats started) ch).2 /\
       Running sn2 = true /\
       Ctx sn2 = Ctx sn' /\
       Stats sn2
         = Some (stats_after CompanyIdents (NewSnifferStats started) ch)) /\
    (forall e, err = Some e ->
     g = None /\
     Running sn' = Running sn /\
     (Running sn = true ->
      e = ErrAlreadyStarted "ble.sniff" /\ sn' = sn /\ acts = []) /\
     (Running sn = false -> Ctx sn' = None)).
Proof.
  destruct (Running sn) eqn:R.
  - exists (Some (ErrAlreadyStarted "ble.sniff")), sn, None, [].
    assert (Hc : Configure os sn
                 = (Some (Some (ErrAlreadyStarted "ble.sniff"), sn), [])).
    { unfold Configure. by rewrite R. }
    split; [unfold Start, andThen; by rewrite Hc|].
    split; [by rewrite Hc|].
    repeat (split; [reflexivity|]). split; [discriminate|].
    intros e [= <-]. repeat split; try done.
  - destruct (GetContext_total os sn) as (err & ctx & acts0 & Hg).
    pose proof (GetContext_no_event os sn) as E0. rewrite Hg in E0.
    cbn [snd] in E0.
    destruct err as [e0|].
    + destruct (Configure_error os sn e0 ctx acts0 R Hg)
        as (acts' & Hclose & _ & _ & Hc).
      exists (Some e0), (set_Ctx None sn), None, (acts0 ++ acts').
      pose proof (Close_no_event os ctx) as E1. rewrite Hclose in E1.
      cbn [snd] in E1.
      split; [unfold Start, andThen; rewrite Hc; simpl; by rewrite app_nil_r|].
      split; [by rewrite Hc|].
      split; [by rewrite events_of_app, E0, E1|].
      repeat (split; [reflexivity|]). split; [discriminate|].
      intros e [= <-]. repeat split; try done.
    + assert (Hc : Configure os sn
                   = (Some (None, set_Ctx (Some ctx) sn), acts0)).
      { unfold Configure. rewrite R. unfold andThen. rewrite Hg. simpl.
        by rewrite app_nil_r. }
      destruct (Start_starts_worker CompanyIdents os started ch sn _ _ Hc)
        as (HS & sn2 & acts2 & Hw & Hacts & Hrun & Hctx & Hstats).
      exists None, (set_Started true (set_Ctx (Some ctx) sn)),
        (Some (worker CompanyIdents started ch)), acts0.
      split; [exact HS|]. split; [by rewrite Hc|]. split; [exact E0|].
      repeat (split; [reflexivity|]). split; [|discriminate].
      intros _. repeat (split; [reflexivity|]).
      destruct (GetContext_success_fields os sn ctx acts0 Hg)
        as (_ & _ & _ & _ & Hmode & _).
      split.
      { exists ctx. destruct (String.eqb (Source_ ctx) "").
        - destruct Hmode as (p & _ & -> & _). eauto.
        - destruct Hmode as (_ & -> & _). eauto. }
      split; [reflexivity|].
      exists sn2, acts2. repeat split; assumption.
Qed.

End LoopMore.

(** * Further properties of [ble_sniff]: the company id and the parameters *)

Section CompanyMore.

Import golib ble_sniff.

Variable CompanyIdents : gmap Z string.

Lemma hex_digit_value_none (c : ascii) :
  hex_digit_value c = None ->
  digit_of (Z_of_ascii c) = None \/
  exists d, digit_of (Z_of_ascii c) = Some d /\ 16 <= d.
Proof.
  intros H.
  destruct c as [[] [] [] [] [] [] [] []]; vm_compute in H;
    try discriminate;
    first [ left; reflexivity
          | right; eexists; split; [reflexivity | vm_compute; discriminate] ].
Qed.

(** A number that does not fit sixteen bits is a range error. *)
Lemma ParseUint_loop_overflow (s : string) :
  forall acc v,
    0 <= acc < 2 ^ 16 -> hex_value_from acc s = Some v -> 2 ^ 16 <= v ->
    ParseUint_loop 16 (2 ^ 60) (2 ^ 16 - 1) (bytes_of_string s) acc
      = (2 ^ 16 - 1, Some ErrRange).
Proof.
  induction s as [|c s IH]; intros acc v Hacc H Hv; simpl in H.
  - injection H as <-. lia.
  - destruct (hex_digit_value c) as [d|] eqn:Hd; [|discriminate].
    destruct (hex_digit_value_digit_of _ _ Hd) as (Hdig & Hr).
    change (bytes_of_string (String c s))
      with (Z_of_ascii c :: bytes_of_string s).
    cbn [ParseUint_loop]. rewrite Hdig.
    assert (E1 : uint64_mul acc 16 = acc * 16).
    { unfold uint64_mul, uint64_mod. apply Z.mod_small. lia. }
    assert (E2 : uint64_add (acc * 16) d = acc * 16 + d).
    { unfold uint64_add, uint64_mod. apply Z.mod_small. lia. }
    rewrite E1, E2.
    replace (d >=? 16) with false by lia.
    replace (acc >=? 2 ^ 60) with false by lia.
    destruct (Z.ltb_spec (acc * 16 + d) (2 ^ 16)) as [Hsmall|Hbig].
    + replace ((acc * 16 + d <? acc * 16) || (acc * 16 + d >? 2 ^ 16 - 1))
        with false by lia.
      apply (IH _ v); [lia | | done].
      by replace (acc * 16 + d) with (16 * acc + d) by lia.
    + replace ((acc * 16 + d <? acc * 16) || (acc * 16 + d >? 2 ^ 16 - 1))
        with true by lia.
      reflexivity.
Qed.

(** A string that is not made of hexadecimal digits is an error. *)
Lemma ParseUint_loop_not_hex (s : string) :
  forall acc,
    0 <= acc < 2 ^ 16 -> hex_value_from acc s = None ->
    ParseUint_loop 16 (2 ^ 60) (2 ^ 16 - 1) (bytes_of_string s) acc
      = (0, Some ErrSyntax) \/
    ParseUint_loop 16 (2 ^ 60) (2 ^ 16 - 1) (bytes_of_string s) acc
      = (2 ^ 16 - 1, Some ErrRange).
Proof.
  induction s as [|c s IH]; intros acc Hacc H; simpl in H; [discriminate|].
  change (bytes_of_string (String c s))
    with (Z_of_ascii c :: bytes_of_string s).
  cbn [ParseUint_loop].
  destruct (hex_digit_value c) as [d|] eqn:Hd.
  - destruct (hex_digit_value_digit_of _ _ Hd) as (Hdig & Hr).
    rewrite Hdig.
    assert (E1 : uint64_mul acc 16 = acc * 16).
    { unfold uint64_mul, uint64_mod. apply Z.mod_small. lia. }
    assert (E2 : uint64_add (acc * 16) d = acc * 16 + d).
    { unfold uint64_add, uint64_mod. apply Z.mod_small. lia. }
    rewrite E1, E2.
    replace (d >=? 16) with false by lia.
    replace (acc >=? 2 ^ 60) with false by lia.
    destruct (Z.ltb_spec (acc * 16 + d) (2 ^ 16)) as [Hsmall|Hbig].
    + replace ((acc * 16 + d <? acc * 16) || (acc * 16 + d >? 2 ^ 16 - 1))
        with false by lia.
      apply IH; [lia|].
      by replace (acc * 16 + d) with (16 * acc + d) by lia.
    + replace ((acc * 16 + d <? acc * 16) || (acc * 16 + d >? 2 ^ 16 - 1))
        with true by lia.
      by right.
  - left. destruct (hex_digit_value_none _ Hd) as [->|(d & -> & Hd16)];
      [reflexivity|].
    by replace (d >=? 16) with true by lia.
Qed.

(** [ParseUint] in base 16 with 16 bits, on every string. *)
Lemma ParseUint_16 (s : string) :
  match hex_value s with
  | Some v =>
      ParseUint s 16 16
      = if v <? 2 ^ 16 then (v, None) else (2 ^ 16 - 1, Some ErrRange)
  | None =>
      ParseUint s 16 16 = (0, Some ErrSyntax) \/
      ParseUint s 16 16 = (2 ^ 16 - 1, Some ErrRange)
  end.
Proof.
  destruct s as [|c s]; [by left|].
  unfold hex_value, ParseUint.
  change ((uint64_mod - 1) / 16 + 1) with (2 ^ 60).
  destruct (hex_value_from 0 (String c s)) as [v|] eqn:H.
  - destruct (Z.ltb_spec v (2 ^ 16)).
    + by apply ParseUint_loop_hex.
    + by apply (ParseUint_loop_overflow _ 0 v).
  - by apply ParseUint_loop_not_hex.
Qed.

Lemma hex_value_nonneg (s : string) (v : Z) : hex_value s = Some v -> 0 <= v.
Proof.
  unfold hex_value. destruct s as [|c s]; [discriminate|].
  intros H. apply (hex_value_from_ge (String c s) 0 v); [lia | exact H].
Qed.

(** X17. A company id that cannot be parsed never prevents the event: the
    error of [ParseUint] is dropped and the value it returns with the error
    is used. With the advertising address and the company id present,
    exactly one event is pushed, and the name in its message is the
    [CompanyIdents] entry at a key below 2^16: the number that the id
    denotes (after every ["0x"] is removed) when that is a hexadecimal
    number below 2^16, 65535 when it is a larger one, 0 when nothing is
    left of the id, and 0 or 65535 when it is not a hexadecimal number. *)
Theorem onProprietary_company_key (now : Z) (btleData : gmap string value)
    (addr cid : string) :
  advertising_address btleData = Some addr ->
  entry_company_id btleData = Some cid ->
  let cleaned := Replace cid "0x" "" (-1) in
  exists e k,
    (onProprietary CompanyIdents now btleData).2
      = [EventAdd "ble.sniff" e; Refresh] /\
    Message e
      = "Proprietary " +:+ CompanyIdents_at CompanyIdents k +:+ " Data" /\
    0 <= k < 2 ^ 16 /\
    match hex_value cleaned with
    | Some v => k = if v <? 2 ^ 16 then v else 65535
    | None => k = 0 \/ k = 65535
    end /\
    (cleaned = "" -> k = 0).
Proof.
  intros Ha Hc cleaned.
  pose proof (onProprietary_cases CompanyIdents now btleData) as H.
  rewrite Ha, Hc in H.
  destruct (eir_ad_entry btleData) as [entry|] eqn:He.
  2:{ unfold entry_company_id in Hc. rewrite He in Hc. discriminate. }
  rewrite H. fold cleaned.
  eexists _, (uint16_of (ParseUint cleaned 16 16).1).
  split; [reflexivity|]. split; [reflexivity|].
  split; [apply Z.mod_pos_bound; lia|].
  pose proof (ParseUint_16 cleaned) as P.
  split.
  - destruct (hex_value cleaned) as [v|] eqn:Hv.
    + rewrite P. destruct (Z.ltb_spec v (2 ^ 16)); [|reflexivity].
      cbn [fst]. unfold uint16_of. apply Z.mod_small.
      pose proof (hex_value_nonneg _ _ Hv). lia.
    + destruct P as [-> | ->]; [by left | by right].
  - intros ->. reflexivity.
Qed.

Lemma substring_all (s : string) : String.substring 0 (String.length s) s = s.
Proof. induction s as [|c s IH]; simpl; congruence. Qed.

(** Hexadecimal digits hold no ["0x"]: nothing is removed from them. *)
Lemma Replace_from_S (fuel : nat) (s old new : string) (n : Z) :
  Replace_from (S fuel) s old new n =
    if n =? 0 then s
    else if String.prefix old s then
      new +:+ Replace_from fuel
                (String.substring (String.length old)
                   (String.length s - String.length old)%nat s)
                old new (n - 1)
    else
      match s with
      | EmptyString => EmptyString
      | String c s' => String c (Replace_from fuel s' old new n)
      end.
Proof. reflexivity. Qed.

Lemma Replace_from_hex (s : string) :
  forall fuel acc v n,
    hex_value_from acc s = Some v ->
    Replace_from fuel s "0x" "" n = s.
Proof.
  induction s as [|c s IH]; intros fuel acc v n H.
  - destruct fuel; [reflexivity|]. rewrite Replace_from_S.
    by destruct (n =? 0).
  - destruct fuel as [|fuel]; [reflexivity|].
    simpl in H.
    destruct (hex_digit_value c) as [d|] eqn:Hd; [|discriminate].
    rewrite Replace_from_S. destruct (n =? 0); [reflexivity|].
    assert (Hp : String.prefix "0x" (String c s) = false).
    { cbn [String.prefix].
      destruct (Ascii.ascii_dec "0" c) as [<-|]; [|reflexivity].
      destruct s as [|c' s]; [reflexivity|]. cbn [String.prefix].
      destruct (Ascii.ascii_dec "x" c') as [<-|]; [|reflexivity].
      simpl in H. discriminate. }
    rewrite Hp. f_equal. exact (IH fuel (16 * acc + d) v n H).
Qed.

Lemma Replace_hex (h : string) (v : Z) :
  hex_value h = Some v -> Replace h "0x" "" (-1) = h.
Proof.
  unfold hex_value. destruct h as [|c h]; [discriminate|]. intros H.
  unfold Replace. exact (Replace_from_hex _ _ 0 v (-1) H).
Qed.

Lemma Replace_0x_hex (h : string) (v : Z) :
  hex_value h = Some v -> Replace ("0x" +:+ h) "0x" "" (-1) = h.
Proof.
  unfold hex_value. destruct h as [|c h]; [discriminate|]. intros H.
  unfold Replace.
  change ("0x" +:+ String c h) with (String "0" (String "x" (String c h))).
  cbv iota. rewrite Replace_from_S. change (-1 =? 0) with false. cbv iota.
  assert (Hp : String.prefix "0x" (String "0" (String "x" (String c h)))
               = true).
  { cbn [String.prefix].
    destruct (Ascii.ascii_dec "0" "0"); [|done]. cbn [String.prefix].
    destruct (Ascii.ascii_dec "x" "x"); done. }
  rewrite Hp.
  change (String.substring (String.length "0x")
            (String.length (String "0" (String "x" (String c h)))
             - String.length "0x")
            (String "0" (String "x" (String c h))))
    with (String.substring 0 (String.length (String c h)) (String c h)).
  rewrite substring_all.
  exact (Replace_from_hex _ _ 0 v (-1 - 1) H).
Qed.

(** X18. A company id written as hexadecimal digits, in either letter
    case, with or without a leading ["0x"], and denoting a number below
    2^16, is looked up at that number: the event's message names the
    [CompanyIdents] entry at it, or is ["Proprietary  Data"] when the table
    has no such entry. *)
Theorem onProprietary_hex_id (now : Z) (btleData : gmap string value)
    (addr cid h : string) (v : Z) :
  advertising_address btleData = Some addr ->
  entry_company_id btleData = Some cid ->
  cid = h \/ cid = "0x" +:+ h ->
  hex_value h = Some v -> v < 2 ^ 16 ->
  exists e,
    (onProprietary CompanyIdents now btleData).2
      = [EventAdd "ble.sniff" e; Refresh] /\
    Source e = addr /\
    Message e
      = "Proprietary " +:+ default "" (CompanyIdents !! v) +:+ " Data" /\
    (CompanyIdents !! v = None -> Message e = "Proprietary  Data").
Proof.
  intros Ha Hc Hcid Hv Hlt.
  pose proof (onProprietary_cases CompanyIdents now btleData) as H.
  rewrite Ha, Hc in H.
  destruct (eir_ad_entry btleData) as [entry|] eqn:He.
  2:{ unfold entry_company_id in Hc. rewrite He in Hc. discriminate. }
  assert (Hclean : Replace cid "0x" "" (-1) = h).
  { destruct Hcid as [-> | ->];
      [by apply (Replace_hex _ v) | by apply (Replace_0x_hex _ v)]. }
  rewrite H, Hclean.
  destruct (ParseUint_hex_value _ _ Hv Hlt) as (-> & Hu).
  cbn [fst]. rewrite Hu.
  eexists. split; [reflexivity|]. split; [reflexivity|].
  split; [reflexivity|]. simpl. unfold CompanyIdents_at. by intros ->.
Qed.

(** X19. Every parameter that [GetContext] reads is one that [NewSniffer]
    registers: on a module built by [NewSniffer], whatever values are set,
    an error of [GetContext] is an error of the pipe, of the process, or of
    a file, never a missing parameter. The new module is not running and
    has no statistics. When none of the source, tshark, interface and pcap
    parameters is set, the first thing [GetContext] does is to ask for the
    stdout of [tshark -i "nRF Sniffer for Bluetooth LE" -T json]. *)
Theorem NewSniffer_parameters (env : gmap string string) (os : OS) :
  let sn := NewSniffer env in
  Running sn = false /\ Stats sn = None /\
  (forall e ctx acts,
     GetContext os sn = (Some (Some e, Some ctx), acts) ->
     (exists p, StdoutPipe_err os p = Some e \/ Start_err os p = Some e) \/
     (exists f, Open_err os f = Some e \/ Create_err os f = Some e)) /\
  (env !! "ble.sniff.source" = None ->
   env !! "ble.sniff.tshark" = None ->
   env !! "ble.sniff.interface" = None ->
   env !! "ble.sniff.pcap" = None ->
   exists rest,
     (GetContext os sn).2
     = ProcStdoutPipe
         {| cmd_name := "tshark";
            cmd_arg := ["-i"; "nRF Sniffer for Bluetooth LE"; "-T"; "json"] |}
         :: rest).
Proof.
  cbv zeta. split; [reflexivity|]. split; [reflexivity|]. split.
  - intros e ctx acts H. unfold GetContext, NewSniffer in H.
    cbv zeta in H. cbn [SessionModule_ StringParam] in H.
    change (param_default registered_params "ble.sniff.source")
      with (Some "") in H.
    change (param_default registered_params "ble.sniff.tshark")
      with (Some "tshark") in H.
    change (param_default registered_params "ble.sniff.interface")
      with (Some "nRF Sniffer for Bluetooth LE") in H.
    change (param_default registered_params "ble.sniff.pcap")
      with (Some "") in H.
    change (param_default registered_params "ble.sniff.output")
      with (Some "") in H.
    cbv iota beta in H.
    repeat split_match_in H; simpl in *; try discriminate;
      injection H as <- <- <-; eauto 6.
  - intros Hs Ht Hi Hp. unfold GetContext, NewSniffer.
    cbv zeta. cbn [SessionModule_ StringParam].
    change (param_default registered_params "ble.sniff.source")
      with (Some "").
    change (param_default registered_params "ble.sniff.tshark")
      with (Some "tshark").
    change (param_default registered_params "ble.sniff.interface")
      with (Some "nRF Sniffer for Bluetooth LE").
    change (param_default registered_params "ble.sniff.pcap")
      with (Some "").
    cbv iota beta. rewrite Hs, Ht, Hi, Hp. simpl.
    repeat split_match; simpl; eauto.
Qed.

End CompanyMore.

(** * The further statements on the sample inputs *)

Section MoreWitnesses.

Import golib ble_sniff.

(** The packet for [/etc/passwd] is well formed. *)
Lemma MySQLGetFile_packet_witness :
  exists bs,
    packets.MySQLGetFile_bytes (fun c n => n) "/etc/passwd" ∅ = Some bs /\
    packets.well_formed_packet bs.
Proof.
  destruct (MySQLGetFile_packet (fun c n => n) "/etc/passwd" ∅)
    as (bs & Hb & _ & _ & Hwf).
  exists bs. split; [exact Hb|]. apply Hwf. simpl. lia.
Defined.

Lemma MySQLGetFile_injective_witness :
  "/etc/passwd" <> "/etc/shadow" /\
  packets.MySQLGetFile_bytes (fun c n => n) "/etc/passwd" ∅
  <> packets.MySQLGetFile_bytes (fun c n => n) "/etc/shadow"
       (packets.st_heap packets.initial_state).
Proof.
  split; [discriminate|].
  apply MySQLGetFile_injective. discriminate.
Defined.

(** Overwriting the first byte of the packet for [/etc/passwd], returned
    in the heap of the initialised package. *)
Lemma MySQLGetFile_result_not_aliased_witness :
  let r := packets.MySQLGetFile (fun c n => n) "/etc/passwd"
             (packets.st_heap packets.initial_state) in
  (0 < packets.s_len r.1)%nat /\
  exists h',
    packets.slice_store r.1 0 255 r.2 = Some h' /\
    (forall l, l ∈ dom (packets.st_heap packets.initial_state) ->
               h' !! l = packets.st_heap packets.initial_state !! l).
Proof.
  intros r.
  assert (Hlen : (0 < packets.s_len r.1)%nat).
  { vm_compute. lia. }
  split; [exact Hlen|].
  destruct (proj1 (proj2 (MySQLGetFile_result_not_aliased (fun c n => n)
                            "/etc/passwd"
                            (packets.st_heap packets.initial_state) 0 255))
              Hlen) as (h' & Hs & _ & Hf).
  exists h'. split; [exact Hs | exact Hf].
Defined.

Lemma call_sequence_keeps_constants_witness :
  packets.vars_allocated packets.initial_state /\
  let st' := packets.call_sequence (fun c n => n)
               ["/etc/passwd"; "/etc/hosts"] packets.initial_state in
  packets.vars_allocated st' /\
  packets.slice_read (packets.var_MySQLGreeting (packets.st_vars st'))
    (packets.st_heap st') = Some packets.MySQLGreeting.
Proof.
  split; [apply initial_state_allocated|].
  destruct (call_sequence_keeps_constants (fun c n => n)
              ["/etc/passwd"; "/etc/hosts"] packets.initial_state
              initial_state_allocated) as (Ha & _ & Hg & _).
  split; [exact Ha|]. rewrite Hg. apply initial_state_reads.
Defined.

Lemma Close_twice_witness :
  Close samples.os_ok samples.live_context
    = (Some (set_OutputFile None samples.live_context),
       [ProcKill samples.tshark_live;
        LogWarning "could not kill TShark Process";
        LogDebug "closing output"; FileClose "out.json";
        LogDebug "output closed"]) /\
  exists acts2,
    Close samples.os_ok (set_OutputFile None samples.live_context)
      = (Some (set_OutputFile None samples.live_context), acts2) /\
    (forall f, FileClose f ∉ acts2) /\
    ProcKill samples.tshark_live ∈ acts2.
Proof.
  split; [reflexivity|].
  destruct (Close_twice samples.os_ok samples.live_context _ _ eq_refl)
    as (_ & _ & acts2 & Hc & Hf & Hk & _).
  exists acts2. split; [exact Hc|]. split; [exact Hf|].
  apply Hk. apply list_elem_of_here.
Defined.

(** [Kill] succeeds and the warning is logged. *)
Lemma Close_kill_log_witness :
  TSharkRunning samples.live_context = true /\
  TSharkProc samples.live_context = Some samples.tshark_live /\
  Process samples.live_context = true /\
  Kill_err samples.os_ok samples.tshark_live = None /\
  LogWarning "could not kill TShark Process"
    ∈ (Close samples.os_ok samples.live_context).2.
Proof.
  split; [reflexivity|]. split; [reflexivity|]. split; [reflexivity|].
  split; [reflexivity|].
  destruct (proj1 (proj2 (proj2 (Close_kill_log samples.os_ok
                                   samples.live_context)))
              samples.tshark_live eq_refl eq_refl eq_refl) as (_ & Hw & _).
  apply Hw. reflexivity.
Defined.

(** The flag set on a command that was never started: [Close] panics. *)
Lemma Close_unstarted_panics :
  Close samples.os_ok samples.unstarted_context = (None, []).
Proof. reflexivity. Qed.

Lemma GetContext_success_witness :
  exists ctx acts,
    GetContext samples.os_ok samples.live_output_module
      = (Some (None, Some ctx), acts) /\
    Source_ ctx = "" /\ Output ctx <> "" /\
    TSharkRunning ctx = true /\
    OutputFile ctx = Some (Output ctx) /\
    Verbose ctx = false.
Proof.
  remember (GetContext samples.os_ok samples.live_output_module) as r eqn:H.
  pose proof H as H'. vm_compute in H'. rewrite H' in H. symmetry in H.
  eexists _, _. split; [exact H'|].
  split; [reflexivity|]. split; [discriminate|].
  pose proof (GetContext_success samples.os_ok samples.live_output_module
                _ _ H) as (Hlive & _ & _ & Hout & Hv & _).
  split; [exact (proj1 (Hlive eq_refl))|].
  split; [exact (proj1 (Hout ltac:(discriminate)))|exact Hv].
Defined.

Lemma GetContext_param_error_witness :
  (StringParam (SessionModule_ samples.broken_module) "ble.sniff.source").1
    = Some (ErrOther "Parameter does not exist.") /\
  exists ctx,
    GetContext samples.os_ok samples.broken_module
      = (Some (Some (ErrOther "Parameter does not exist."), Some ctx), []).
Proof.
  split; [reflexivity|].
  destruct (GetContext_param_error samples.os_ok samples.broken_module
              (ErrOther "Parameter does not exist.") (or_introl eq_refl))
    as (ctx & H & _).
  exists ctx. exact H.
Defined.

(** The output file cannot be created: the process that was started is
    killed before [Configure] returns. *)
Lemma Configure_error_cleanup_witness :
  Running samples.live_output_module = false /\
  exists sn' acts,
    Configure samples.os_no_create samples.live_output_module
      = (Some (Some (ErrOther "permission denied"), sn'), acts) /\
    Ctx sn' = None /\
    ProcKill samples.tshark_live ∈ acts.
Proof.
  split; [reflexivity|].
  remember (Configure samples.os_no_create samples.live_output_module)
    as r eqn:H.
  pose proof H as H'. vm_compute in H'. rewrite H' in H. symmetry in H.
  eexists _, _. split; [exact H'|].
  destruct (Configure_error_cleanup samples.os_no_create
              samples.live_output_module _ _ _ eq_refl H)
    as (Hsn & _ & Hk & _).
  split; [reflexivity|].
  apply Hk. split; [|reflexivity].
  apply list_elem_of_further, list_elem_of_here.
Defined.

Lemma stop_after_Configure_witness :
  exists sn1 acts1 c1 acts2,
    Configure samples.os_ok samples.live_output_module
      = (Some (None, sn1), acts1) /\
    stop_callback samples.os_ok sn1
      = (Some (set_Ctx (Some (set_OutputFile None c1)) sn1), acts2) /\
    ProcKill samples.tshark_live ∈ acts2 /\
    FileClose "out.json" ∈ acts2.
Proof.
  remember (Configure samples.os_ok samples.live_output_module) as r eqn:H.
  pose proof H as H'. vm_compute in H'. rewrite H' in H. symmetry in H.
  eexists _, _.
  destruct (stop_after_Configure samples.os_ok samples.live_output_module
              _ _ H) as (c1 & acts2 & _ & Hs & Hk & Hf).
  exists c1, acts2. split; [exact H'|]. split; [exact Hs|].
  split.
  - apply Hk. apply list_elem_of_further, list_elem_of_here.
  - apply Hf. do 2 apply list_elem_of_further. apply list_elem_of_here.
Defined.

(** The sample delivery: two advertisements, two events, counted twice. *)
Lemma pkt_loop_only_pushes_witness :
  exists e s' acts,
    pkt_loop samples.CompanyIdents (NewSnifferStats 1) samples.delivery
      = (Some (e, s'), acts) /\
    Z.of_nat (length samples.delivery) < uint64_mod /\
    length (events_of acts) = 2%nat /\
    Z.of_nat (length (events_of acts)) <= NumAdvertisements s' /\
    Forall (fun ev => Protocol ev = "BLE ADVERT" /\
                      Destination ev = "BROADCAST") (events_of acts).
Proof.
  remember (pkt_loop samples.CompanyIdents (NewSnifferStats 1)
              samples.delivery) as r eqn:H.
  pose proof H as H'. vm_compute in H'. rewrite H' in H. symmetry in H.
  eexists _, _, _. split; [exact H'|].
  split; [reflexivity|]. split; [reflexivity|].
  destruct (pkt_loop_only_pushes samples.CompanyIdents 1 samples.delivery
              _ _ _ H) as (_ & Hall & _ & Hle).
  split; [apply Hle; reflexivity | exact Hall].
Defined.

Lemma pkt_loop_drains_witness :
  exists s' acts,
    pkt_loop samples.CompanyIdents (NewSnifferStats 1) samples.delivery
      = (Some (ChanClosed, s'), acts) /\
    NumMatched s' = 2 /\ NumAdvertisements s' = 2.
Proof.
  remember (pkt_loop samples.CompanyIdents (NewSnifferStats 1)
              samples.delivery) as r eqn:H.
  pose proof H as H'. vm_compute in H'. rewrite H' in H. symmetry in H.
  eexists _, _. split; [exact H'|].
  destruct (pkt_loop_drains samples.CompanyIdents 1 samples.delivery
              _ _ _ H) as (_ & Hcnt).
  destruct (Hcnt eq_refl) as (Hm & Ha).
  split; [rewrite Hm | rewrite Ha]; reflexivity.
Defined.

Lemma pkt_loop_stamps_exact_witness :
  let s := stats_after samples.CompanyIdents (NewSnifferStats 1)
             samples.delivery in
  r_running (samples.received true 2 samples.not_an_object) = true /\
  FirstPacket s = 2 /\ LastPacket s = 4.
Proof.
  intros s. split; [reflexivity|].
  destruct (pkt_loop_stamps_exact samples.CompanyIdents 1
              (samples.received true 2 samples.not_an_object)
              [samples.received true 4 samples.advertisement;
               samples.received true 4 samples.advertisement])
    as (Hf & Hl).
  split.
  - apply Hf; [reflexivity | discriminate].
  - apply Hl. repeat constructor.
Defined.

Lemma Print_after_run_witness :
  Forall (fun x => r_now x <> 0) samples.delivery /\
  let s := stats_after samples.CompanyIdents (NewSnifferStats 1)
             samples.delivery in
  FirstPacket s <> 0 /\
  (Print samples.time_String s).2 !! 1%nat
    = Some {| info_format := "First Packet Seen  : %s";
              info_args :=
                [ArgString (samples.time_String (FirstPacket s))] |}.
Proof.
  assert (Hnz : Forall (fun x => r_now x <> 0) samples.delivery).
  { repeat constructor; discriminate. }
  split; [exact Hnz|].
  destruct (Print_after_run samples.CompanyIdents samples.time_String 1
              samples.delivery Hnz) as (Hf & _ & Hp & _).
  split; [|exact Hp].
  intros Hz. apply Hf in Hz. discriminate.
Defined.

(** [Start] on a live capture returns with the worker started and [Stats]
    still nil; the worker then counts the two advertisements of the sample
    delivery. *)
Lemma Start_outcomes_witness :
  exists sn' acts sn2 acts2,
    Start samples.CompanyIdents samples.os_ok 1 samples.delivery
      samples.live_module
    = (Some (None, sn',
             Some (worker samples.CompanyIdents 1 samples.delivery)), acts) /\
    Running sn' = true /\
    Stats sn' = None /\
    worker samples.CompanyIdents 1 samples.delivery sn' = (Some sn2, acts2) /\
    option_map NumAdvertisements (Stats sn2) = Some 2.
Proof.
  destruct (Start_outcomes samples.CompanyIdents samples.os_ok 1
              samples.delivery samples.live_module)
    as (err & sn' & g & acts & HS & _ & _ & Hstats & _ & Hok & _).
  assert (Herr : err = None).
  { remember (Configure samples.os_ok samples.live_module) as r eqn:Hc.
    pose proof Hc as Hc'. vm_compute in Hc'. rewrite Hc' in Hc.
    symmetry in Hc. clear Hc'.
    unfold Start, andThen in HS. rewrite Hc in HS.
    unfold SetRunning in HS. simpl in HS. congruence. }
  subst err.
  destruct (Hok eq_refl)
    as (_ & Hrun & _ & -> & sn2 & acts2 & Hw & _ & _ & _ & Hst).
  exists sn', acts, sn2, acts2.
  split; [exact HS|]. split; [exact Hrun|]. split; [exact Hstats|].
  split; [exact Hw|]. rewrite Hst. reflexivity.
Defined.

(** The upper-case prefix ["0X"] is not removed: the id ["0X4C"] is not a
    hexadecimal number and the event names company 0. *)
Lemma onProprietary_company_key_witness :
  advertising_address (samples.btle_with_company "0X4C")
    = Some "c0:ff:ee:c0:ff:ee" /\
  entry_company_id (samples.btle_with_company "0X4C") = Some "0X4C" /\
  exists e,
    (onProprietary samples.CompanyIdents0 5
       (samples.btle_with_company "0X4C")).2
      = [EventAdd "ble.sniff" e; Refresh] /\
    Message e = "Proprietary Ericsson Technology Licensing Data".
Proof.
  split; [reflexivity|]. split; [reflexivity|].
  destruct (onProprietary_company_key samples.CompanyIdents0 5
              (samples.btle_with_company "0X4C")
              "c0:ff:ee:c0:ff:ee" "0X4C" eq_refl eq_refl)
    as (e & k & He & Hm & _ & _ & _).
  exists e. split; [exact He|].
  remember (onProprietary samples.CompanyIdents0 5
              (samples.btle_with_company "0X4C")) as r eqn:Hr.
  vm_compute in Hr. rewrite Hr in He. injection He as <-. reflexivity.
Defined.

Lemma onProprietary_hex_id_witness :
  hex_value "004C" = Some 76 /\
  exists e,
    (onProprietary samples.CompanyIdents0 5
       (samples.btle_with_company "0x004C")).2
      = [EventAdd "ble.sniff" e; Refresh] /\
    Message e = "Proprietary Apple, Inc. Data".
Proof.
  split; [reflexivity|].
  destruct (onProprietary_hex_id samples.CompanyIdents0 5
              (samples.btle_with_company "0x004C")
              "c0:ff:ee:c0:ff:ee" "0x004C" "004C" 76
              eq_refl eq_refl (or_intror eq_refl) eq_refl eq_refl)
    as (e & He & _ & Hm & _).
  exists e. split; [exact He|]. rewrite Hm. reflexivity.
Defined.

(** A module built by [NewSniffer] with nothing set. *)
Lemma NewSniffer_parameters_witness :
  exists rest,
    (GetContext samples.os_ok (NewSniffer ∅)).2
    = ProcStdoutPipe samples.tshark_live :: rest.
Proof.
  apply (proj2 (proj2 (proj2 (NewSniffer_parameters ∅ samples.os_ok))));
    reflexivity.
Defined.

End MoreWitnesses.

(** * The statistics without a bound or a steady clock *)

Section StatsUnbounded.

Import golib ble_sniff.

Lemma filter_replicate_all (f : recv -> bool) (x : recv) (n : nat) :
  f x = true -> List.filter f (replicate n x) = replicate n x.
Proof.
  intros Hx. induction n as [|n IH]; [reflexivity|].
  cbn [replicate List.filter]. by rewrite Hx, IH.
Qed.

Lemma filter_replicate_none (f : recv -> bool) (x : recv) (n : nat) :
  f x = false -> List.filter f (replicate n x) = [].
Proof.
  intros Hx. induction n as [|n IH]; [reflexivity|].
  cbn [replicate List.filter]. by rewrite Hx, IH.
Qed.

(** An advertisement followed by [n] packets of a connection, [n + 1] being
    2^64: the loop drains the channel and [NumMatched] is back at 0. *)
Lemma pkt_loop_counters_wrap (n : nat) :
  Z.of_nat n = uint64_mod - 1 ->
  let s :=
    stats_after samples.CompanyIdents (NewSnifferStats 1)
      (samples.received true 1 samples.advertisement
         :: replicate n (samples.received true 1 samples.data_packet)) in
  NumAdvertisements s = 1 /\ NumMatched s = 0.
Proof.
  intros Hn s.
  destruct (stats_after_eq samples.CompanyIdents (NewSnifferStats 1)
              (samples.received true 1 samples.advertisement
                 :: replicate n (samples.received true 1 samples.data_packet)))
    as (e & acts & Hl).
  fold s in Hl.
  destruct (pkt_loop_exit_counts samples.CompanyIdents _ _ _ _ _ 0 0 Hl
              eq_refl eq_refl) as (Hexit & Hcount).
  assert (He : e = ChanClosed).
  { apply Hexit. apply Forall_cons. split; [by split|].
    apply Forall_replicate. by split. }
  destruct (Hcount He) as (Hm & Ha).
  cbn [List.filter] in Hm, Ha.
  change (addressed (samples.received true 1 samples.advertisement))
    with true in Hm.
  change (advertises (samples.received true 1 samples.advertisement))
    with true in Ha.
  rewrite filter_replicate_all in Hm by reflexivity.
  rewrite filter_replicate_none in Ha by reflexivity.
  cbn [length] in Hm, Ha. rewrite length_replicate in Hm.
  split.
  - rewrite Ha. reflexivity.
  - rewrite Hm. rewrite Nat2Z.inj_succ, Hn.
    replace (0 + Z.succ (uint64_mod - 1)) with uint64_mod by lia.
    apply Z_mod_same_full.
Qed.

(** C9 as it is written fails: without a condition on the clock and
    without a bound on the number of values, two of the three invariants
    do not hold at the boundary after the last value. When the loop
    reads the instant 5 and then the instant 3, [FirstPacket] is 5 and
    [LastPacket] is 3. When the channel delivers an advertisement and then
    2^64 - 1 packets of a connection, [NumMatched] has wrapped around to 0
    while [NumAdvertisements] is 1. *)
Lemma stats_invariants_fail :
  (let s := stats_after samples.CompanyIdents (NewSnifferStats 1)
              samples.clock_goes_back in
   FirstPacket s = 5 /\ LastPacket s = 3 /\
   ~ (FirstPacket s <> 0 -> FirstPacket s <= LastPacket s)) /\
  (let s := stats_after samples.CompanyIdents (NewSnifferStats 1)
              samples.wrapping_delivery in
   NumAdvertisements s = 1 /\ NumMatched s = 0 /\
   ~ NumAdvertisements s <= NumMatched s).
Proof.
  split.
  - set (s := stats_after _ _ samples.clock_goes_back).
    assert (HF : FirstPacket s = 5) by reflexivity.
    assert (HL : LastPacket s = 3) by reflexivity.
    cbv zeta. rewrite HF, HL. repeat split. intros H.
    assert (5 <= 3) by (apply H; discriminate). lia.
  - unfold samples.wrapping_delivery.
    assert (Hn : Z.of_nat (Z.to_nat (uint64_mod - 1)) = uint64_mod - 1).
    { apply Z2Nat.id. unfold uint64_mod. lia. }
    destruct (pkt_loop_counters_wrap _ Hn) as (Ha & Hm).
    cbv zeta. rewrite Ha, Hm. repeat split. lia.
Qed.

End StatsUnbounded.
